(** * DvDRipper: a shallow embedding of [DvDRipper.py]

    The development follows the source file top to bottom:
    - the Python values and built-ins the program relies on (exceptions,
      [str.splitlines], [str.strip], [str.split], [str.replace], [int]);
    - [get_largest_title], the title selector;
    - [send_message], [error_handler] and [run], the retrying executor,
      together with the stage sequence of [main];
    - [poll_file_size_progress], the progress monitor;
    - [rip_dvd], the rip pipeline.

    Text is modelled as [string]: a sequence of code points below 256. *)

From Stdlib Require Import String Ascii List ZArith Lia Bool Arith Sorted.
From Stdlib Require DecimalString.
Import ListNotations.

Local Open Scope list_scope.
Local Open Scope string_scope.

(* ================================================================== *)
(** * Python values *)

(** The part of the exception hierarchy the program distinguishes:
    [except Exception] catches [Exception] (and its subclasses [ValueError],
    [OSError], [CalledProcessError], ...; [msg] is [str(e)]) and lets
    [SystemExit], raised by [sys.exit], through. *)
Inductive BaseException : Type :=
| Exception (msg : string)
| SystemExit (code : Z).

(** Outcome of evaluating a call: a value or a raised exception. *)
Inductive result (A : Type) : Type :=
| Return (a : A)
| Raise (e : BaseException).
Arguments Return {A} a.
Arguments Raise {A} e.

Definition dquote : ascii := ascii_of_nat 34.
Definition newline : ascii := ascii_of_nat 10.
Definition nl : string := String newline EmptyString.
Definition quoted (s : string) : string :=
  String dquote (s ++ String dquote EmptyString).

(* ================================================================== *)
(** * String built-ins *)

(** [str.isspace] on one character (code points below 256). *)
Definition isspace (c : ascii) : bool :=
  let n := nat_of_ascii c in
  (((9 <=? n) && (n <=? 13)) || ((28 <=? n) && (n <=? 32))
   || (n =? 133) || (n =? 160))%nat.

(** Line boundaries of [str.splitlines]. *)
Definition is_linebreak (c : ascii) : bool :=
  let n := nat_of_ascii c in
  (((10 <=? n) && (n <=? 13)) || ((28 <=? n) && (n <=? 30))
   || (n =? 133))%nat.

Definition is_empty (s : string) : bool :=
  match s with EmptyString => true | String _ _ => false end.

(** [s.splitlines()]: a carriage return followed by a line feed is one
    boundary; a boundary at the very end opens no further line. *)
Fixpoint splitlines (s : string) : list string :=
  match s with
  | EmptyString => []
  | String c rest =>
      if is_linebreak c then
        match rest with
        | String c' rest' =>
            if ((nat_of_ascii c =? 13) && (nat_of_ascii c' =? 10))%nat
            then EmptyString :: splitlines rest'
            else EmptyString :: splitlines rest
        | EmptyString => EmptyString :: splitlines rest
        end
      else
        match splitlines rest with
        | [] => [String c EmptyString]
        | l :: ls => String c l :: ls
        end
  end.

Fixpoint lstrip_by (p : ascii -> bool) (s : string) : string :=
  match s with
  | EmptyString => EmptyString
  | String c rest => if p c then lstrip_by p rest else s
  end.

Fixpoint rstrip_by (p : ascii -> bool) (s : string) : string :=
  match s with
  | EmptyString => EmptyString
  | String c rest =>
      let rest' := rstrip_by p rest in
      if p c && is_empty rest' then EmptyString else String c rest'
  end.

Definition strip_by (p : ascii -> bool) (s : string) : string :=
  rstrip_by p (lstrip_by p s).

(** [s.strip()] *)
Definition strip (s : string) : string := strip_by isspace s.

(** [s.strip(chars)] for a one-character [chars]. *)
Definition strip_char (ch : ascii) (s : string) : string :=
  strip_by (Ascii.eqb ch) s.

(** [s.startswith(p)] *)
Definition startswith (s p : string) : bool := String.prefix p s.

(** [s.split(sep)] for a one-character separator. *)
Fixpoint split (sep : ascii) (s : string) : list string :=
  match s with
  | EmptyString => [EmptyString]
  | String c rest =>
      if Ascii.eqb c sep then EmptyString :: split sep rest
      else
        match split sep rest with
        | [] => [String c EmptyString]
        | l :: ls => String c l :: ls
        end
  end.

(** [s.replace(old, new)] for a non-empty [old]: occurrences are replaced
    left to right without overlap.  [skip] counts the characters of the
    occurrence just matched that are still to be dropped. *)
Fixpoint replace_from (skip : nat) (old new s : string) : string :=
  match s with
  | EmptyString => EmptyString
  | String c rest =>
      match skip with
      | S k => replace_from k old new rest
      | O =>
          if String.prefix old s
          then new ++ replace_from (String.length old - 1) old new rest
          else String c (replace_from 0 old new rest)
      end
  end.

Definition replace (old new s : string) : string := replace_from 0 old new s.

(* ------------------------------------------------------------------ *)
(** ** [int(s)] *)

(** White space skipped by [int] around the literal. *)
Definition int_space (c : ascii) : bool :=
  let n := nat_of_ascii c in
  (((9 <=? n) && (n <=? 13)) || (n =? 32) || (n =? 133) || (n =? 160))%nat.

Definition is_digit (c : ascii) : bool :=
  let n := nat_of_ascii c in ((48 <=? n) && (n <=? 57))%nat.

Definition digit_value (c : ascii) : Z := Z.of_nat (nat_of_ascii c - 48).

(** Default of [sys.int_max_str_digits]: a longer literal is a
    [ValueError]. *)
Definition int_max_str_digits : nat := 4300.

(** Decimal digits with single underscores between them.  [count] is the
    number of digits read, [after_digit] tells whether the previous
    character was a digit. *)
Fixpoint int_digits (s : string) (acc : Z) (count : nat) (after_digit : bool)
  : option Z :=
  match s with
  | EmptyString =>
      if after_digit && (count <=? int_max_str_digits)%nat
      then Some acc else None
  | String c rest =>
      if is_digit c
      then int_digits rest (10 * acc + digit_value c)%Z (S count) true
      else if Ascii.eqb c "_" && after_digit
           then int_digits rest acc count false
           else None
  end.

(** [int(s)]: [None] stands for [ValueError]. *)
Definition int (s : string) : option Z :=
  match strip_by int_space s with
  | String c rest =>
      if Ascii.eqb c "-" then option_map Z.opp (int_digits rest 0%Z 0 false)
      else if Ascii.eqb c "+" then int_digits rest 0%Z 0 false
      else int_digits (String c rest) 0%Z 0 false
  | EmptyString => None
  end.

(** [str(n)] for a natural number. *)
Definition str_of_nat (n : nat) : string :=
  DecimalString.NilZero.string_of_uint (Nat.to_uint n).


(* ================================================================== *)
(** * [get_largest_title] *)

Record CompletedProcess : Type := {
  returncode : Z;
  stdout : string
}.

(** [largest_title_index] holds the integer [-1] until a title is chosen
    and a string afterwards. *)
Inductive index_value : Type :=
| IntIndex (z : Z)
| StrIndex (s : string).

(** [largest_title_index == -1] *)
Definition is_minus_one (v : index_value) : bool :=
  match v with
  | IntIndex z => (z =? -1)%Z
  | StrIndex _ => false
  end.

(** [[line.strip() for line in out.splitlines()
      if line.strip().startswith("TINFO:")]] *)
Definition tinfo_lines (disc_info_output : string) : list string :=
  filter (fun l => startswith l "TINFO:")
         (map strip (splitlines disc_info_output)).

Definition title_index_str (parts : list string) : string :=
  strip (replace "TINFO:" EmptyString (nth 0 parts EmptyString)).

Definition info_type (parts : list string) : string :=
  strip (nth 1 parts EmptyString).

Definition size_str (parts : list string) : string :=
  strip_char dquote (strip (nth 3 parts EmptyString)).

(** [try: file_size = int(size_str) except ValueError: file_size = 0] *)
Definition file_size (parts : list string) : Z :=
  match int (size_str parts) with
  | Some z => z
  | None => 0%Z
  end.

(** One iteration of [for line in tinfo_lines]. *)
Definition loop_body (st : index_value * Z) (line : string)
  : index_value * Z :=
  let parts := split "," line in
  if (4 <=? List.length parts)%nat then
    if String.eqb (info_type parts) "11" then
      if (file_size parts >? snd st)%Z
      then (StrIndex (title_index_str parts), file_size parts)
      else st
    else st
  else st.

Definition makemkv_info_command (drive_letter : string) : list string :=
  ["./makemkvcon64.exe"; "-r"; "info"; "dev:" ++ drive_letter ++ ":"].

Definition makemkv_error : string :=
  "MakeMKV returned an error. Please ensure MakeMKV is installed and the DVD is readable.".

Definition no_titles_error : string :=
  "Could not find any titles on the DVD.".

Section TitleSelector.

(** [subprocess.run(cmd, capture_output=True, text=True)]: what launching
    the command and waiting for it yields. *)
Variable subprocess_run : list string -> result CompletedProcess.

Definition get_largest_title (drive_letter : string)
  : result (index_value * Z) :=
  match subprocess_run (makemkv_info_command drive_letter) with
  | Raise (Exception e) => Raise (Exception ("Error running MakeMKV: " ++ e))
  | Raise e => Raise e
  | Return res =>
      if negb (returncode res =? 0)%Z || is_empty (stdout res)
      then Raise (Exception makemkv_error)
      else
        let st := fold_left loop_body (tinfo_lines (stdout res))
                            (IntIndex (-1), 0%Z) in
        if is_minus_one (fst st)
        then Raise (Exception no_titles_error)
        else Return st
  end.

End TitleSelector.

(** ** File size records

    A line of [tinfo_lines] is a "file size" record when it has at least
    four comma-separated fields and its second field is the code 11. *)
Definition is_size_record (line : string) : bool :=
  (4 <=? List.length (split "," line))%nat &&
  String.eqb (info_type (split "," line)) "11".

(** Identifier and size the loop reads off a record. *)
Definition record_of (line : string) : string * Z :=
  (title_index_str (split "," line), file_size (split "," line)).

(** The file size records of a disc-info text, in document order. *)
Definition size_records (disc_info_output : string) : list (string * Z) :=
  map record_of (filter is_size_record (tinfo_lines disc_info_output)).

(** The selection the loop performs, on records. *)
Definition select_step (st : index_value * Z) (r : string * Z)
  : index_value * Z :=
  if (snd r >? snd st)%Z then (StrIndex (fst r), snd r) else st.

(** [r] is the first record of maximal size in [recs]. *)
Definition first_max (recs : list (string * Z)) (r : string * Z) : Prop :=
  exists pre post,
    recs = (pre ++ r :: post)%list /\
    (forall p, In p pre -> (snd p < snd r)%Z) /\
    (forall p, In p post -> (snd p <= snd r)%Z).

(** The scenario of the specification. *)
Definition scenario_output : string :=
  "TINFO:0,11,0," ++ quoted "500000000" ++ nl ++
  "TINFO:1,11,0," ++ quoted "1200000000" ++ nl.

(* ================================================================== *)
(** * Effects

    Effectful code is a state transformer that returns a value or raises:
    the state is threaded through in program order, and an exception skips
    the rest of a sequence. *)

Definition M (S A : Type) : Type := S -> result A * S.

Definition ret {S A : Type} (a : A) : M S A := fun s => (Return a, s).

Definition raise {S A : Type} (e : BaseException) : M S A :=
  fun s => (Raise e, s).

Definition bind {S A B : Type} (m : M S A) (k : A -> M S B) : M S B :=
  fun s =>
    match m s with
    | (Return a, s') => k a s'
    | (Raise e, s') => (Raise e, s')
    end.

(** [try: m  except Exception as e: handler(str(e))] *)
Definition try_except {S A : Type} (m : M S A) (handler : string -> M S A)
  : M S A :=
  fun s =>
    match m s with
    | (Raise (Exception msg), s') => handler msg s'
    | other => other
    end.

(** [sys.exit(code)] *)
Definition sys_exit {S A : Type} (code : Z) : M S A := raise (SystemExit code).

Notation "x <- m ;; k" := (bind m (fun x => k))
  (at level 61, m at next level, right associativity).
Notation "m ;; k" := (bind m (fun _ => k))
  (at level 61, right associativity).

(** Exit status of the interpreter for the outcome of the top level. *)
Definition exit_status {A : Type} (r : result A) : Z :=
  match r with
  | Return _ => 0
  | Raise (SystemExit code) => code
  | Raise (Exception _) => 1
  end.

(* ================================================================== *)
(** * [send_message], [error_handler], [run] *)

Definition ATTEMPTS : nat := 3.

(** What an observer sees of the executor: the calls [run] makes to the
    wrapped operation, the lines that [run], [error_handler] and [main]
    print, and the requests posted to the notification service. *)
Inductive event : Type :=
| Invoked (name : string)
| Printed (text : string)
| Posted (title message : string).

Definition is_invoked (name : string) (ev : event) : bool :=
  match ev with
  | Invoked n => String.eqb n name
  | _ => false
  end.

Definition is_posted (ev : event) : bool :=
  match ev with
  | Posted _ _ => true
  | _ => false
  end.

(** Number of calls of the operation [name] recorded in a trace. *)
Definition invocations (name : string) (tr : list event) : nat :=
  List.length (filter (is_invoked name) tr).

(** The notifications recorded in a trace. *)
Definition notifications (tr : list event) : list event :=
  filter is_posted tr.

Section Executor.

(** State of everything outside the program: drive, tools, filesystem,
    network, clock. *)
Variable Env : Type.

Record World : Type := {
  env : Env;
  trace : list event
}.

(** [requests.post(url, data=message, headers={"Title": title})]:
    [None] when a response came back, [Some err] when the transport
    raised an exception with text [err]. *)
Variable requests_post : string -> string -> Env -> option string * Env.

(** A callable with its arguments applied: [function.__name__] and the
    effect of calling it on the environment. *)
Record Operation (A : Type) : Type := {
  name : string;
  call : Env -> result A * Env
}.
Arguments name {A} _.
Arguments call {A} _ _.

Definition emit (ev : event) : M World unit :=
  fun w => (Return tt, {| env := env w; trace := (trace w ++ [ev])%list |}).

Definition print (text : string) : M World unit := emit (Printed text).

Definition send_message (title message : string) : M World unit :=
  emit (Posted title message) ;;
  fun w =>
    match requests_post title message (env w) with
    | (None, e') => (Return tt, {| env := e'; trace := trace w |})
    | (Some err, e') =>
        (Raise (Exception err), {| env := e'; trace := trace w |})
    end.

(** [error_handler] ends in [sys.exit(1)]: it has no normal return, so
    its result fits any type. *)
Definition error_handler {A : Type} (message : string) : M World A :=
  print message ;;
  try_except
    (send_message "Movie ERROR" message)
    (fun e => print ("Failed to send error notification: " ++ e)) ;;
  sys_exit 1.

(** What [error_handler] adds to the trace: the report on the console,
    one posted notification, and a second console line when the post
    failed. *)
Definition escalation (message : string) (e : Env) : list event :=
  ([Printed message; Posted "Movie ERROR" message] ++
   match fst (requests_post "Movie ERROR" message e) with
   | None => []
   | Some err => [Printed ("Failed to send error notification: " ++ err)]
   end)%list.

(** The call of [function] on its arguments, as [run] performs it. *)
Definition invoke {A : Type} (function : Operation A) : M World A :=
  emit (Invoked (name function)) ;;
  fun w =>
    match call function (env w) with
    | (r, e') => (r, {| env := e'; trace := trace w |})
    end.

Definition failure_report (function_name e : string) : string :=
  "Error running: " ++ function_name ++ nl ++
  "Attempts: " ++ str_of_nat ATTEMPTS ++ nl ++
  "Error: " ++ e.

(** [for i in range: try ... except Exception ... return output].  A
    range that runs out leaves the function without a [return]:
    the value is [None]. *)
Fixpoint run_loop {A : Type} (function : Operation A) (range : list nat)
  : M World (option A) :=
  match range with
  | [] => ret None
  | i :: range' =>
      fun w =>
        match invoke function w with
        | (Return output, w') => (Return (Some output), w')
        | (Raise (Exception e), w') =>
            if (i <? ATTEMPTS)%nat
            then run_loop function range' w'
            else error_handler (failure_report (name function) e) w'
        | (Raise e, w') => (Raise e, w')
        end
  end.

Definition run {A : Type} (function : Operation A) : M World (option A) :=
  run_loop function (seq 1 ATTEMPTS).

(** The [if __name__ == "__main__"] block around [main()]. *)
Definition dunder_main {A : Type} (main : M World A) : M World A :=
  try_except main
    (fun _ =>
       try_except
         (send_message "Movie ERROR" "Unexpected error")
         (fun send_err =>
            print ("Failed to send error notification: " ++ send_err)) ;;
       sys_exit 1).

(** ** The stages of [main]

    From "Getting disc info" to the notification that follows the
    encoding.  The three wrapped functions act on the environment; the
    texts of the two floating-point values that [main] prints are
    parameters, [size_gb_text] for a size whose quotient is a float. *)
Variable get_largest_title_call :
  string -> Env -> result (index_value * Z) * Env.
Variable rip_dvd_call :
  index_value -> string -> string -> Z -> string ->
  Env -> result string * Env.
Variable encode_to_mp4_call :
  string -> string -> string -> Env -> result string * Env.
Variable size_gb_text : Z -> string.
Variable duration_text : Env -> string.

Definition str_of_index (v : index_value) : string :=
  match v with
  | IntIndex z => DecimalString.NilZero.string_of_int (Z.to_int z)
  | StrIndex s => s
  end.

(** [largest_title_size / 1073741824]: the quotient of two integers is
    rounded to the nearest float, and a quotient that rounds beyond the
    largest float is an [OverflowError].  With this divisor that is the
    case from [2^1054 - 2^1000] on, in either sign. *)
Definition float_overflow_bound : Z := (2 ^ 1054 - 2 ^ 1000)%Z.

Definition size_gb_overflows (size : Z) : bool :=
  (float_overflow_bound <=? Z.abs size)%Z.

Definition overflow_error : string :=
  "integer division result too large for a float".

(** [round(largest_title_size / 1073741824, 2)], as the text that the
    f-string shows for it. *)
Definition size_gb (largest_title_size : Z) : M World string :=
  if size_gb_overflows largest_title_size
  then raise (Exception overflow_error)
  else ret (size_gb_text largest_title_size).

(** Unpacking or using the [None] of a [run] that returned nothing. *)
Definition unpack {A : Type} (v : option A) : M World A :=
  match v with
  | Some a => ret a
  | None => raise (Exception "cannot unpack non-iterable NoneType object")
  end.

Definition main_stages (output_file_name drive_letter output_directory
                        : string) : M World string :=
  print "Getting disc info from MakeMKV..." ;;
  selected <- run {| name := "get_largest_title";
                     call := get_largest_title_call drive_letter |} ;;
  title <- unpack selected ;;
  let largest_title_index := fst title in
  let largest_title_size := snd title in
  largest_title_size_gb <- size_gb largest_title_size ;;
  print ("Largest title found: Title " ++ str_of_index largest_title_index
         ++ " with size: " ++ largest_title_size_gb ++ " GB") ;;
  print ("Ripping largest title (Title "
         ++ str_of_index largest_title_index
         ++ ") to output directory...") ;;
  ripped <- run {| name := "rip_dvd";
                   call := rip_dvd_call largest_title_index
                             output_file_name output_directory
                             largest_title_size drive_letter |} ;;
  new_file_path <- unpack ripped ;;
  try_except
    (fun w =>
       send_message "Movies"
         ("Movie " ++ output_file_name ++ " has been ripped!" ++ nl ++
          "Duration: " ++ duration_text (env w) ++ " seconds") w)
    (fun e => print ("Warning: Failed to send rip notification: " ++ e)) ;;
  encoded <- run {| name := "encode_to_mp4";
                    call := encode_to_mp4_call new_file_path
                              output_file_name output_directory |} ;;
  mp4_output_file <- unpack encoded ;;
  print ("Conversion completed successfully! MP4 file saved as: "
         ++ mp4_output_file) ;;
  try_except
    (send_message "Movies"
       ("The movie " ++ output_file_name
        ++ " has been ripped and encoded" ++ nl))
    (fun e =>
       print ("Warning: Failed to send encoding notification: " ++ e)) ;;
  ret mp4_output_file.

(** [function] raises an [Exception] on each of [length msgs] calls in a
    row, with texts [msgs], taking the environment from [e] to [e']. *)
Fixpoint raises_each {A : Type} (function : Operation A) (e : Env)
         (msgs : list string) (e' : Env) : Prop :=
  match msgs with
  | [] => e' = e
  | msg :: msgs' =>
      exists e1, call function e = (Raise (Exception msg), e1) /\
                 raises_each function e1 msgs' e'
  end.

End Executor.

Arguments env {Env} _.
Arguments trace {Env} _.
Arguments name {Env A} _.
Arguments call {Env A} _ _.
Arguments emit {Env} ev _.
Arguments print {Env} text _.
Arguments send_message {Env} requests_post title message _.
Arguments error_handler {Env} requests_post {A} message _.
Arguments escalation {Env} requests_post message e.
Arguments invoke {Env A} function _.
Arguments run_loop {Env} requests_post {A} function range _.
Arguments run {Env} requests_post {A} function _.
Arguments dunder_main {Env} requests_post {A} main _.
Arguments unpack {Env A} v _.
Arguments size_gb {Env} size_gb_text largest_title_size _.
Arguments raises_each {Env A} function e msgs e'.

(* ================================================================== *)
(** * Paths (POSIX flavour of [os.path]) *)

Definition path_sep : ascii := "/"%char.

Fixpoint endswith_sep (s : string) : bool :=
  match s with
  | EmptyString => false
  | String c EmptyString => Ascii.eqb c path_sep
  | String _ rest => endswith_sep rest
  end.


(** [os.path.join(a, b)] *)
Definition path_join (a b : string) : string :=
  if startswith b "/" then b
  else if is_empty a || endswith_sep a then a ++ b
  else a ++ "/" ++ b.


(* ================================================================== *)
(** * The filesystem and the ripping process, as the program observes them *)

(** Result of a call into the operating system or the library: an answer,
    or the text of the exception that the call raises. *)
Inductive os_result (A : Type) : Type :=
| Ok (a : A)
| OSError (msg : string).
Arguments Ok {A} a.
Arguments OSError {A} msg.

(** The output directory is written by the ripping tool while the program
    looks at it, so every observation is indexed by the instant at which
    it is made; two observations need not agree.  [glob.glob] answers a
    list for a directory that is missing or unreadable, and raises for a
    pattern that no path can have ([ValueError] for an embedded null
    byte). *)
Record FileSystem : Type := {
  glob_at : nat -> string -> os_result (list string);
  getsize_at : nat -> string -> os_result Z;
  getmtime_at : nat -> string -> os_result Z;
  rename_at : nat -> string -> string -> os_result unit
}.

(** A launched ripping process.  [polls_before_exit] is how many times
    the monitor finds [stop_event] unset before the main thread is done
    with the process: either the process has exited and the event is set,
    or reading its output has raised.  [stdout_failure] is [None] when the
    output of the process decodes to its end, and the text of the
    [UnicodeDecodeError] otherwise; [exit_code] is what [process.wait()]
    leaves in [process.returncode]. *)
Record Process : Type := {
  polls_before_exit : nat;
  stdout_failure : option string;
  exit_code : Z
}.

(** The progress bar: [refreshed] lists the values of [n] shown by
    [refresh()], oldest first. *)
Record tqdm : Type := {
  tqdm_total : Z;
  tqdm_n : Z;
  refreshed : list Z;
  closed : bool
}.

(** [unstopped_monitors] counts the monitor threads that have been
    started and whose stop event has not been set.  What such a thread
    does after the call that started it has ended is not followed. *)
Record RipState : Type := {
  clock : nat;
  progress_bar : tqdm;
  console : list string;
  renamed : list (string * string);
  unstopped_monitors : nat
}.

Definition of_os {A : Type} (r : os_result A) : result A :=
  match r with
  | Ok a => Return a
  | OSError msg => Raise (Exception msg)
  end.

Definition advance (s : RipState) : RipState :=
  {| clock := S (clock s); progress_bar := progress_bar s;
     console := console s; renamed := renamed s;
     unstopped_monitors := unstopped_monitors s |}.

Definition with_bar (f : tqdm -> tqdm) : M RipState unit :=
  fun s => (Return tt,
            {| clock := clock s; progress_bar := f (progress_bar s);
               console := console s; renamed := renamed s;
               unstopped_monitors := unstopped_monitors s |}).

(** [progress_bar.n = v] *)
Definition set_n (v : Z) : M RipState unit :=
  with_bar (fun b => {| tqdm_total := tqdm_total b; tqdm_n := v;
                        refreshed := refreshed b; closed := closed b |}).

(** [progress_bar.refresh()] *)
Definition refresh : M RipState unit :=
  with_bar (fun b => {| tqdm_total := tqdm_total b; tqdm_n := tqdm_n b;
                        refreshed := (refreshed b ++ [tqdm_n b])%list;
                        closed := closed b |}).

(** [progress_bar.close()] *)
Definition close : M RipState unit :=
  with_bar (fun b => {| tqdm_total := tqdm_total b; tqdm_n := tqdm_n b;
                        refreshed := refreshed b; closed := true |}).

(** [tqdm(total=expected_file_size, ...)] *)
Definition tqdm_new (expected_file_size : Z) : M RipState unit :=
  with_bar (fun _ => {| tqdm_total := expected_file_size; tqdm_n := 0;
                        refreshed := []; closed := false |}).

Definition rip_print (text : string) : M RipState unit :=
  fun s => (Return tt,
            {| clock := clock s; progress_bar := progress_bar s;
               console := (console s ++ [text])%list;
               renamed := renamed s;
               unstopped_monitors := unstopped_monitors s |}).

(** [time.sleep(1)] *)
Definition sleep : M RipState unit := fun s => (Return tt, advance s).

(** What a started thread does while the thread that started it goes on:
    the thread dies with the exception its target raises, which the
    starting thread does not see. *)
Definition in_thread (target : M RipState unit) : M RipState unit :=
  fun s => (Return tt, snd (target s)).

Definition with_monitors (f : nat -> nat) : M RipState unit :=
  fun s => (Return tt,
            {| clock := clock s; progress_bar := progress_bar s;
               console := console s; renamed := renamed s;
               unstopped_monitors := f (unstopped_monitors s) |}).

(** [monitor_thread.start()] *)
Definition thread_start : M RipState unit := with_monitors S.

(** [stop_event.set()] followed by [monitor_thread.join()] *)
Definition stop_and_join : M RipState unit := with_monitors Nat.pred.

(** [max(items, key=key)]: the key of every item is computed once, in
    order, and the first item with the largest key wins. *)
Fixpoint max_scan {S : Type} (key : string -> M S Z) (items : list string)
         (best : string) (best_key : Z) : M S string :=
  match items with
  | [] => ret best
  | x :: items' =>
      k <- key x ;;
      if (k >? best_key)%Z then max_scan key items' x k
      else max_scan key items' best best_key
  end.

Definition max_by {S : Type} (key : string -> M S Z) (items : list string)
  : M S string :=
  match items with
  | [] => raise (Exception "max() arg is an empty sequence")
  | x :: items' => k <- key x ;; max_scan key items' x k
  end.

(** Keys of [sorted(items, key=key)], computed in order before sorting. *)
Fixpoint keyed {S : Type} (key : string -> M S Z) (items : list string)
  : M S (list (string * Z)) :=
  match items with
  | [] => ret []
  | x :: items' =>
      k <- key x ;;
      rest <- keyed key items' ;;
      ret ((x, k) :: rest)
  end.

(** Stable sort by decreasing key: an item goes in front of the first
    item whose key does not exceed its own. *)
Fixpoint insert_desc (x : string * Z) (l : list (string * Z))
  : list (string * Z) :=
  match l with
  | [] => [x]
  | y :: l' =>
      if (snd y <=? snd x)%Z then x :: l else y :: insert_desc x l'
  end.

Definition sort_desc (l : list (string * Z)) : list (string * Z) :=
  fold_right insert_desc [] l.

(** [sorted(items, key=key, reverse=True)] *)
Definition sorted_reverse {S : Type} (key : string -> M S Z)
           (items : list string) : M S (list string) :=
  ks <- keyed key items ;;
  ret (map fst (sort_desc ks)).

(** The modification times that [sorted] reads for its keys from the
    instant [t] on, one file per instant; [None] when a read fails. *)
Fixpoint mtimes_from (fs : FileSystem) (t : nat) (files : list string)
  : option (list (string * Z)) :=
  match files with
  | [] => Some []
  | f :: files' =>
      match getmtime_at fs t f, mtimes_from fs (S t) files' with
      | Ok m, Some rest => Some ((f, m) :: rest)
      | _, _ => None
      end
  end.

(** [s'] differs from [s] by the passing of [k] instants only. *)
Definition later (k : nat) (s s' : RipState) : Prop :=
  clock s' = (k + clock s)%nat /\
  progress_bar s' = progress_bar s /\
  console s' = console s /\
  renamed s' = renamed s /\
  unstopped_monitors s' = unstopped_monitors s.

Definition is_nil {A : Type} (l : list A) : bool :=
  match l with [] => true | _ :: _ => false end.

Definition rip_error : string := "MakeMKV returned an error during ripping.".
Definition no_mkv_error : string := "No MKV file found after ripping.".

Section Rip.

Variable fs : FileSystem.

(** [subprocess.Popen(command, ...)] *)
Variable Popen : list string -> os_result Process.

Definition glob (pattern : string) : M RipState (list string) :=
  fun s => (of_os (glob_at fs (clock s) pattern), advance s).

Definition getsize (path : string) : M RipState Z :=
  fun s => (of_os (getsize_at fs (clock s) path), advance s).

Definition getmtime (path : string) : M RipState Z :=
  fun s => (of_os (getmtime_at fs (clock s) path), advance s).

Definition os_rename (src dst : string) : M RipState unit :=
  fun s =>
    match rename_at fs (clock s) src dst with
    | Ok _ =>
        (Return tt,
         {| clock := S (clock s); progress_bar := progress_bar s;
            console := console s;
            renamed := (renamed s ++ [(src, dst)])%list;
            unstopped_monitors := unstopped_monitors s |})
    | OSError msg => (Raise (Exception msg), advance s)
    end.

(** ** [poll_file_size_progress]

    [stop_event] is the number of times [stop_event.is_set()] answers
    [False] before it answers [True]: the event is set once, by the
    thread that waits for the process, and never cleared. *)
Fixpoint poll_loop (stop_event : nat) (output_directory : string)
         (current_progress : Z) : M RipState unit :=
  match stop_event with
  | O => ret tt
  | S stop_event' =>
      mkv_files <- glob (path_join output_directory "*.mkv") ;;
      current_progress' <-
        (if is_nil mkv_files then ret current_progress
         else
           current_file <- max_by getsize mkv_files ;;
           try_except
             (progress <- getsize current_file ;;
              if (progress >? current_progress)%Z
              then set_n progress ;; refresh ;; ret progress
              else ret current_progress)
             (fun e =>
                rip_print ("Error checking file size: " ++ e) ;;
                ret current_progress)) ;;
      sleep ;;
      poll_loop stop_event' output_directory current_progress'
  end.

Definition poll_file_size_progress (expected_file_size : Z)
           (output_directory : string) (stop_event : nat)
  : M RipState unit :=
  poll_loop stop_event output_directory 0%Z.

(** ** [rip_dvd] *)

Definition makemkv_mkv_command (drive_letter title_index output_directory
                                : string) : list string :=
  ["./makemkvcon64.exe"; "-r"; "mkv"; "dev:" ++ drive_letter ++ ":";
   title_index; output_directory].

(** [for line in process.stdout: pass] on a pipe opened with
    [text=True]: the lines are decoded as they are read, and bytes that
    do not decode raise [UnicodeDecodeError]. *)
Definition drain (process : Process) : M RipState unit :=
  match stdout_failure process with
  | None => ret tt
  | Some msg => raise (Exception msg)
  end.

(** From [Popen] to [progress_bar.close()]: launch the process, start the
    monitor, read the output of the process to its end while the monitor
    polls, wait for the process, stop the monitor, then force the bar to
    the expected size and close it.  The value is [process.returncode].
    An exception from the reading leaves before the monitor is stopped. *)
Definition supervise (command : list string) (expected_file_size : Z)
           (output_directory : string) : M RipState Z :=
  process <- (fun s => (of_os (Popen command), s)) ;;
  tqdm_new expected_file_size ;;
  thread_start ;;
  in_thread (poll_file_size_progress expected_file_size output_directory
               (polls_before_exit process)) ;;
  drain process ;;
  stop_and_join ;;
  set_n expected_file_size ;;
  refresh ;;
  close ;;
  ret (exit_code process).

(** From "Locate the final MKV file" to the [return]. *)
Definition locate_and_rename (output_file_name output_directory : string)
  : M RipState string :=
  found <- glob (path_join output_directory "*.mkv") ;;
  mkv_files <- sorted_reverse getmtime found ;;
  match mkv_files with
  | [] => raise (Exception no_mkv_error)
  | ripped_file :: _ =>
      let new_file_name := output_file_name ++ ".mkv" in
      let new_file_path := path_join output_directory new_file_name in
      try_except
        (os_rename ripped_file new_file_path)
        (fun e => raise (Exception ("Error renaming MKV file: " ++ e))) ;;
      ret new_file_path
  end.

Definition rip_dvd (title_index output_file_name output_directory : string)
           (expected_file_size : Z) (drive_letter : string)
  : M RipState string :=
  rc <- supervise
          (makemkv_mkv_command drive_letter title_index output_directory)
          expected_file_size output_directory ;;
  if negb (rc =? 0)%Z then raise (Exception rip_error)
  else locate_and_rename output_file_name output_directory.

End Rip.

From Stdlib Require DecimalNat.


(* ================================================================== *)
(** * Further built-ins *)

(** [c in s] for a character [c]. *)
Fixpoint has_char (c : ascii) (s : string) : bool :=
  match s with
  | EmptyString => false
  | String x rest => Ascii.eqb x c || has_char c rest
  end.

(** The console line that a failed notification leaves in [main]:
    [outcome] is what [requests.post] answered. *)
Definition warning (text : string) (outcome : option string) : list event :=
  match outcome with
  | None => []
  | Some err => [Printed (text ++ err)]
  end.

(** ** The operations and the texts of [main]

    Named so that statements about the stages can refer to them. *)
Definition select_op {Env : Type}
           (get_largest_title_call :
              string -> Env -> result (index_value * Z) * Env)
           (drive_letter : string) : Operation Env (index_value * Z) :=
  {| name := "get_largest_title";
     call := get_largest_title_call drive_letter |}.

Definition rip_op {Env : Type}
           (rip_dvd_call :
              index_value -> string -> string -> Z -> string ->
              Env -> result string * Env)
           (title : index_value * Z)
           (output_file_name output_directory drive_letter : string)
  : Operation Env string :=
  {| name := "rip_dvd";
     call := rip_dvd_call (fst title) output_file_name output_directory
               (snd title) drive_letter |}.

Definition encode_op {Env : Type}
           (encode_to_mp4_call :
              string -> string -> string -> Env -> result string * Env)
           (new_file_path output_file_name output_directory : string)
  : Operation Env string :=
  {| name := "encode_to_mp4";
     call := encode_to_mp4_call new_file_path output_file_name
               output_directory |}.

Definition selecting_lines : list event :=
  [Printed "Getting disc info from MakeMKV..."].

Definition selected_lines (size_gb_text : Z -> string)
           (title : index_value * Z) : list event :=
  [Printed ("Largest title found: Title " ++ str_of_index (fst title)
            ++ " with size: " ++ size_gb_text (snd title) ++ " GB");
   Printed ("Ripping largest title (Title " ++ str_of_index (fst title)
            ++ ") to output directory...")].

Definition ripped_message (output_file_name duration : string) : string :=
  "Movie " ++ output_file_name ++ " has been ripped!" ++ nl ++
  "Duration: " ++ duration ++ " seconds".

Definition encoded_message (output_file_name : string) : string :=
  "The movie " ++ output_file_name ++ " has been ripped and encoded" ++ nl.

Definition rip_warning : string :=
  "Warning: Failed to send rip notification: ".

Definition encode_warning : string :=
  "Warning: Failed to send encoding notification: ".

Definition converted_line (mp4_output_file : string) : event :=
  Printed ("Conversion completed successfully! MP4 file saved as: "
           ++ mp4_output_file).

(** The line that the monitor prints for a failed size read. *)
Definition size_error_line (e : string) : string :=
  "Error checking file size: " ++ e.

(** A list of paths with their sizes, as [max] sees them. *)
Definition with_key (key : string -> Z) (paths : list string)
  : list (string * Z) :=
  map (fun p => (p, key p)) paths.

(** [s.lower()] on code points below 256: the letters A to Z and the
    accented capitals 192 to 222, the multiplication sign 215 apart. *)
Definition lower_char (c : ascii) : ascii :=
  let n := nat_of_ascii c in
  if (((65 <=? n) && (n <=? 90))
      || ((192 <=? n) && (n <=? 222) && negb (n =? 215)))%nat
  then ascii_of_nat (n + 32)
  else c.

Fixpoint lower (s : string) : string :=
  match s with
  | EmptyString => EmptyString
  | String c rest => String (lower_char c) (lower rest)
  end.

(* ================================================================== *)
(** * [encode_to_mp4] *)

Definition handbrake_args (new_file_path mp4_output_file : string)
  : list string :=
  ["./HandBrakeCLI"; "--preset-import-file"; "./Movies.json";
   "--preset"; "Movies"; "-i"; new_file_path; "-o"; mp4_output_file].

Definition converting_line (new_file_path : string) : string :=
  "Converting " ++ new_file_path ++ " to MP4 using HandBrake...".

Definition handbrake_error : string :=
  "HandBrakeCLI returned an error during conversion: ".

Section Encode.

(** [subprocess.run(args)]: what launching the command and waiting for it
    yields, before [check=True] looks at the exit code. *)
Variable subprocess_run : list string -> result CompletedProcess.

(** [str(e)] of the [CalledProcessError] that [check=True] raises for a
    command and its non-zero exit code. *)
Variable called_process_error : list string -> Z -> string.

(** The state is the console. *)
Definition encode_to_mp4 (new_file_path output_file_name output_directory
                          : string) : M (list string) string :=
  let mp4_output_file :=
    path_join output_directory (output_file_name ++ ".mp4") in
  (fun console =>
     (Return tt, (console ++ [converting_line new_file_path])%list)) ;;
  let args := handbrake_args new_file_path mp4_output_file in
  match subprocess_run args with
  | Raise e => raise e
  | Return res =>
      if negb (returncode res =? 0)%Z
      then raise (Exception (handbrake_error
                             ++ called_process_error args (returncode res)))
      else ret mp4_output_file
  end.

End Encode.

(* ================================================================== *)
(** * The beginning and the end of [main]

    [main] asks for the names, makes sure the working directory exists,
    runs the stages, offers to clean up and starts over.  The two blocks
    around the stages are embedded here; the calls they make into the
    operating system act on the environment. *)

Section Session.

Variable Env : Type.
Variable requests_post : string -> string -> Env -> option string * Env.

(** [input(prompt)]: the line typed, or the exception raised when the
    input has ended. *)
Variable input : string -> Env -> result string * Env.
Variable os_path_exists : string -> Env -> bool * Env.
Variable os_makedirs : string -> Env -> os_result unit * Env.
Variable os_remove : string -> Env -> os_result unit * Env.
Variable os_rename_to : string -> string -> Env -> os_result unit * Env.
Variable os_listdir : string -> Env -> os_result (list string) * Env.
Variable os_rmdir : string -> Env -> os_result unit * Env.

Definition in_env {A : Type} (f : Env -> result A * Env)
  : M (World Env) A :=
  fun w =>
    match f (env w) with
    | (r, e') => (r, {| env := e'; trace := trace w |})
    end.

Definition os_call {A : Type} (f : Env -> os_result A * Env)
  : M (World Env) A :=
  in_env (fun e => match f e with (r, e') => (of_os r, e') end).

Definition name_prompt : string :=
  "Enter the output file name (without extension): ".
Definition drive_prompt : string :=
  "Enter the DVD drive letter (without colon): ".
Definition delete_prompt : string :=
  "Do you want to delete the MKV file? (yes/no): ".
Definition makedirs_error : string := "Error creating temp directory: ".

(** From the first prompt to the creation of the working directory.  The
    value is [(output_file_name, drive_letter, output_directory)]. *)
Definition prepare : M (World Env) (string * string * string) :=
  typed_name <- in_env (input name_prompt) ;;
  let output_file_name := strip typed_name in
  typed_drive <- in_env (input drive_prompt) ;;
  let drive_letter := strip typed_drive in
  let output_directory := path_join "temp" drive_letter in
  present <- in_env (fun e =>
                       match os_path_exists output_directory e with
                       | (b, e') => (Return b, e')
                       end) ;;
  (if negb present
   then try_except
          (os_call (os_makedirs output_directory))
          (fun e => error_handler requests_post (makedirs_error ++ e))
   else ret tt) ;;
  ret (output_file_name, drive_letter, output_directory).

(** [for file in files: os.remove(os.path.join(output_directory, file))] *)
Fixpoint remove_each (output_directory : string) (files : list string)
  : M (World Env) unit :=
  match files with
  | [] => ret tt
  | file :: files' =>
      os_call (os_remove (path_join output_directory file)) ;;
      remove_each output_directory files'
  end.

Definition final_path (output_file_name : string) : string :=
  "output/" ++ output_file_name ++ ".mp4".

(** From the question about the MKV file to the removal of the working
    directory. *)
Definition cleanup (new_file_path mp4_output_file output_file_name
                    output_directory : string) : M (World Env) unit :=
  answer <- in_env (input delete_prompt) ;;
  let delete_mkv := lower (strip answer) in
  if String.eqb delete_mkv "yes" then
    try_except
      (os_call (os_remove new_file_path) ;;
       print "MKV file deleted.")
      (fun e => print ("Error deleting MKV file: " ++ e)) ;;
    try_except
      (os_call (os_rename_to mp4_output_file (final_path output_file_name)))
      (fun e => print ("Error moving MP4 file: " ++ e)) ;;
    try_except
      (files <- os_call (os_listdir output_directory) ;;
       remove_each output_directory files ;;
       os_call (os_rmdir output_directory))
      (fun e => print ("Error cleaning up output directory: " ++ e))
  else ret tt.

End Session.

Arguments in_env {Env A} f _.
Arguments os_call {Env A} f _.
Arguments prepare {Env} requests_post input os_path_exists os_makedirs _.
Arguments remove_each {Env} os_remove output_directory files _.
Arguments cleanup {Env} input os_remove os_rename_to os_listdir os_rmdir
  new_file_path mp4_output_file output_file_name output_directory _.

(** ** A disk that records what is asked of it

    An environment for [prepare] and [cleanup]: the lines still to be
    typed, which paths exist, what each directory lists, which calls fail
    and with what message, and the calls made so far. *)
Inductive fs_call : Type :=
| Exists (path : string)
| Makedirs (path : string)
| Remove (path : string)
| Rename (src dst : string)
| Listdir (path : string)
| Rmdir (path : string).

Record Disk : Type := {
  typed : list string;
  present : string -> bool;
  listing : string -> list string;
  fails : fs_call -> option string;
  calls : list fs_call
}.

Definition record_call (c : fs_call) (d : Disk) : Disk :=
  {| typed := typed d; present := present d; listing := listing d;
     fails := fails d; calls := (calls d ++ [c])%list |}.

Definition attempt {A : Type} (c : fs_call) (value : Disk -> A) (d : Disk)
  : os_result A * Disk :=
  (match fails d c with
   | None => Ok (value d)
   | Some msg => OSError msg
   end,
   record_call c d).

Definition disk_input (prompt : string) (d : Disk) : result string * Disk :=
  match typed d with
  | [] => (Raise (Exception "EOF when reading a line"), d)
  | line :: rest =>
      (Return line,
       {| typed := rest; present := present d; listing := listing d;
          fails := fails d; calls := calls d |})
  end.

Definition disk_exists (path : string) (d : Disk) : bool * Disk :=
  (present d path, record_call (Exists path) d).

Definition disk_makedirs (path : string) := attempt (Makedirs path) (fun _ => tt).
Definition disk_remove (path : string) := attempt (Remove path) (fun _ => tt).
Definition disk_rename (src dst : string) :=
  attempt (Rename src dst) (fun _ => tt).
Definition disk_listdir (path : string) :=
  attempt (Listdir path) (fun d => listing d path).
Definition disk_rmdir (path : string) := attempt (Rmdir path) (fun _ => tt).

Definition disk_post : string -> string -> Disk -> option string * Disk :=
  fun _ _ d => (None, d).

Definition disk_prepare : M (World Disk) (string * string * string) :=
  prepare disk_post disk_input disk_exists disk_makedirs.

Definition disk_cleanup (new_file_path mp4_output_file output_file_name
                         output_directory : string) : M (World Disk) unit :=
  cleanup disk_input disk_remove disk_rename disk_listdir disk_rmdir
    new_file_path mp4_output_file output_file_name output_directory.

(** [m] ends in a value or an [Exception], never in [SystemExit], and
    posts no notification. *)
Definition calm {Env A : Type} (m : M (World Env) A) : Prop :=
  forall w,
    notifications (trace (snd (m w))) = notifications (trace w) /\
    forall code, fst (m w) <> Raise (SystemExit code).

(** [m] always returns, and posts no notification. *)
Definition harmless {Env : Type} (m : M (World Env) unit) : Prop :=
  forall w,
    fst (m w) = Return tt /\
    notifications (trace (snd (m w))) = notifications (trace w).

Definition record_calls (cs : list fs_call) (d : Disk) : Disk :=
  {| typed := typed d; present := present d; listing := listing d;
     fails := fails d; calls := (calls d ++ cs)%list |}.

(** The disk once the next line has been typed. *)
Definition answered (d : Disk) : Disk :=
  {| typed := tl (typed d); present := present d; listing := listing d;
     fails := fails d; calls := calls d |}.

(** The removals of the purge. *)
Definition removals (output_directory : string) (files : list string)
  : list fs_call :=
  map (fun file => Remove (path_join output_directory file)) files.

(* ================================================================== *)
(** * The three operations on one machine

    The environment of a session in which [main] runs the functions
    embedded above: the external tools answer by the number of the launch,
    the output directory is one filesystem, and the machine keeps the
    state of the rip and the console of the encoder. *)

Record Tools : Type := {
  info_tool : nat -> list string -> result CompletedProcess;
  rip_tool : nat -> list string -> os_result Process;
  encode_tool : nat -> list string -> result CompletedProcess;
  directory : FileSystem;
  error_text : list string -> Z -> string;
  delivery : string -> string -> option string
}.

Record Machine : Type := {
  launches : nat;
  rip_state : RipState;
  shell : list string
}.

Definition machine_post (tools : Tools)
  : string -> string -> Machine -> option string * Machine :=
  fun title message m => (delivery tools title message, m).

Definition select_on (tools : Tools)
  : string -> Machine -> result (index_value * Z) * Machine :=
  fun drive_letter m =>
    (get_largest_title (info_tool tools (launches m)) drive_letter,
     {| launches := S (launches m); rip_state := rip_state m;
        shell := shell m |}).

Definition rip_on (tools : Tools)
  : index_value -> string -> string -> Z -> string ->
    Machine -> result string * Machine :=
  fun title_index output_file_name output_directory expected_file_size
      drive_letter m =>
    match rip_dvd (directory tools) (rip_tool tools (launches m))
                  (str_of_index title_index) output_file_name
                  output_directory expected_file_size drive_letter
                  (rip_state m) with
    | (r, s') =>
        (r, {| launches := S (launches m); rip_state := s';
               shell := shell m |})
    end.

Definition encode_on (tools : Tools)
  : string -> string -> string -> Machine -> result string * Machine :=
  fun new_file_path output_file_name output_directory m =>
    match encode_to_mp4 (encode_tool tools (launches m)) (error_text tools)
                        new_file_path output_file_name output_directory
                        (shell m) with
    | (r, console) =>
        (r, {| launches := S (launches m); rip_state := rip_state m;
               shell := console |})
    end.

Definition machine_stages (tools : Tools)
           (size_gb_text : Z -> string) (duration_text : Machine -> string)
           (output_file_name drive_letter output_directory : string)
  : M (World Machine) string :=
  main_stages Machine (machine_post tools) (select_on tools) (rip_on tools)
    (encode_on tools) size_gb_text duration_text
    output_file_name drive_letter output_directory.

(* ================================================================== *)
(** * Disc-info texts in the expected format *)

(** Every character of [s] satisfies [q]. *)
Fixpoint all_chars (q : ascii -> bool) (s : string) : bool :=
  match s with
  | EmptyString => true
  | String c rest => q c && all_chars q rest
  end.

(** The "file size" record of title [i] with size [n], as the info query
    prints it. *)
Definition size_line (title : nat * nat) : string :=
  "TINFO:" ++ str_of_nat (fst title) ++ ",11,0,"
  ++ quoted (str_of_nat (snd title)).

(** A disc-info text with one "file size" record per title, one record
    per line. *)
Fixpoint disc_info (titles : list (nat * nat)) : string :=
  match titles with
  | [] => EmptyString
  | title :: titles' => size_line title ++ nl ++ disc_info titles'
  end.

(** What the selector should read off the record of a title. *)
Definition title_record (title : nat * nat) : string * Z :=
  (str_of_nat (fst title), Z.of_nat (snd title)).

(* ================================================================== *)
(** * Concrete inputs *)

(** A [subprocess.run] whose command exits with code 0 and prints [out]. *)
Definition completes_with (out : string)
  : list string -> result CompletedProcess :=
  fun _ => Return {| returncode := 0; stdout := out |}.

(** A disc whose only title reports size 0. *)
Definition zero_disc_output : string := "TINFO:0,11,0," ++ quoted "0" ++ nl.

(** A disc with two titles that both report size 0. *)
Definition all_zero_output : string :=
  "TINFO:0,11,0," ++ quoted "0" ++ nl ++
  "TINFO:1,11,0," ++ quoted "0" ++ nl.

(** A disc whose size field is not a number, next to other records. *)
Definition other_content_output : string :=
  "MSG:1005,0,1," ++ quoted "MakeMKV started" ++ nl ++
  "TINFO:0,2,0," ++ quoted "Title" ++ nl ++
  "TINFO:0,11,0," ++ quoted "n/a" ++ nl.

(** A "file size" record whose size field does not parse. *)
Definition malformed_record : string := "TINFO:2,11,0," ++ quoted "12GB".

(** A notification service that accepts every post. *)
Definition post_delivered : string -> string -> nat -> option string * nat :=
  fun _ _ e => (None, e).

(** An operation named [rip_dvd] that raises on its first [k] calls and
    returns a path afterwards; the environment counts the calls. *)
Definition flaky (k : nat) : Operation nat string :=
  {| name := "rip_dvd";
     call := fun e =>
       (if (e <? k)%nat then Raise (Exception rip_error)
        else Return "temp/D/movie.mkv",
        S e) |}.

Definition fresh_world : World nat := {| env := 0; trace := [] |}.

Definition ripped_path : string := "temp/D/title_t00.mkv".

Definition gone_error : string := "[Errno 2] No such file or directory".

(** A directory in which [ripped_path] is listed at every instant and
    grows with time, but cannot be read at the instant [gone]. *)
Definition vanishing_fs (gone : nat) : FileSystem :=
  {| glob_at := fun _ _ => Ok [ripped_path];
     getsize_at := fun t _ =>
       if (t =? gone)%nat then OSError gone_error
       else Ok (Z.of_nat t * 1000)%Z;
     getmtime_at := fun _ _ => Ok 0%Z;
     rename_at := fun _ _ _ => Ok tt |}.

(** A directory whose only file is read as 100, then 50, then 200 bytes
    long on the three ticks of a run. *)
Definition shrinking_fs : FileSystem :=
  {| glob_at := fun _ _ => Ok [ripped_path];
     getsize_at := fun t _ =>
       Ok (if (t <? 4)%nat then 100 else if (t <? 8)%nat then 50 else 200)%Z;
     getmtime_at := fun _ _ => Ok 0%Z;
     rename_at := fun _ _ _ => Ok tt |}.

Definition idle_state : RipState :=
  {| clock := 0;
     progress_bar := {| tqdm_total := 5000; tqdm_n := 0;
                        refreshed := []; closed := false |};
     console := [];
     renamed := [];
     unstopped_monitors := 0 |}.

(** A rip that leaves two files behind, the second one more recent. *)
Definition older_file : string := "temp/D/A1_t00.mkv".
Definition newer_file : string := "temp/D/B1_t01.mkv".

Definition two_files_fs : FileSystem :=
  {| glob_at := fun _ _ => Ok [older_file; newer_file];
     getsize_at := fun t _ => Ok (Z.of_nat t * 100)%Z;
     getmtime_at := fun _ p =>
       Ok (if String.eqb p newer_file then 200 else 100)%Z;
     rename_at := fun _ _ _ => Ok tt |}.

(** A launch that succeeds; the process exits with [code] after the
    monitor has polled twice. *)
Definition launch (code : Z) : list string -> os_result Process :=
  fun _ => Ok {| polls_before_exit := 2; stdout_failure := None;
                 exit_code := code |}.



Definition null_byte_error : string := "embedded null byte".

(** A directory name that no path can have: every listing raises. *)
Definition unlistable_fs : FileSystem :=
  {| glob_at := fun _ _ => OSError null_byte_error;
     getsize_at := fun t _ => Ok (Z.of_nat t * 100)%Z;
     getmtime_at := fun _ _ => Ok 0%Z;
     rename_at := fun _ _ _ => Ok tt |}.

Definition decode_error : string :=
  "'charmap' codec can't decode byte 0x81 in position 17: "
  ++ "character maps to <undefined>".

(** A launch that succeeds; the tool prints a byte that does not decode
    after the monitor has polled twice. *)
Definition launch_undecodable : list string -> os_result Process :=
  fun _ => Ok {| polls_before_exit := 2; stdout_failure := Some decode_error;
                 exit_code := 0 |}.
(** An operation named [rip_dvd] that raises on its first [k] calls and
    then ends the process with [sys.exit(7)]. *)
Definition flaky_exit (k : nat) : Operation nat string :=
  {| name := "rip_dvd";
     call := fun e =>
       (if (e <? k)%nat then Raise (Exception rip_error)
        else Raise (SystemExit 7),
        S e) |}.

(** Stage functions for a session in which the environment counts the
    calls made so far: each raises while fewer than [k] calls have been
    made and returns afterwards. *)
Definition select_after (k : nat)
  : string -> nat -> result (index_value * Z) * nat :=
  fun _ e =>
    (if (e <? k)%nat then Raise (Exception no_titles_error)
     else Return (StrIndex "1", 1200000000%Z),
     S e).

Definition rip_after (k : nat)
  : index_value -> string -> string -> Z -> string ->
    nat -> result string * nat :=
  fun _ output_file_name output_directory _ _ e =>
    (if (e <? k)%nat then Raise (Exception rip_error)
     else Return (path_join output_directory (output_file_name ++ ".mkv")),
     S e).

Definition encode_after (k : nat)
  : string -> string -> string -> nat -> result string * nat :=
  fun _ output_file_name output_directory e =>
    (if (e <? k)%nat then Raise (Exception "HandBrakeCLI failed")
     else Return (path_join output_directory (output_file_name ++ ".mp4")),
     S e).

(** A selection that returns a title of [2 * 10^317] bytes. *)
Definition huge_size : Z := (2 * 10 ^ 317)%Z.

Definition select_huge : string -> nat -> result (index_value * Z) * nat :=
  fun _ e => (Return (StrIndex "0", huge_size), S e).

Definition huge_session : M (World nat) string :=
  main_stages nat post_delivered select_huge (rip_after 0)
    (encode_after 0) (fun _ => "1.12") (fun _ => "0.5")
    "movie" "D" "temp/D".

Definition session (k1 k2 k3 : nat) : M (World nat) string :=
  main_stages nat post_delivered (select_after k1) (rip_after k2)
    (encode_after k3) (fun _ => "1.12") (fun _ => "0.5")
    "movie" "D" "temp/D".

(** A directory in which nothing matches. *)
Definition empty_fs : FileSystem :=
  {| glob_at := fun _ _ => Ok [];
     getsize_at := fun _ _ => OSError gone_error;
     getmtime_at := fun _ _ => OSError gone_error;
     rename_at := fun _ _ _ => OSError gone_error |}.

(** A directory at rest: three files whose sizes do not change. *)
Definition resting_size (p : string) : Z :=
  if String.eqb p "temp/D/b.mkv" then 700
  else if String.eqb p "temp/D/c.mkv" then 700
  else 300.

Definition resting_fs : FileSystem :=
  {| glob_at := fun _ _ =>
       Ok ["temp/D/a.mkv"; "temp/D/b.mkv"; "temp/D/c.mkv"];
     getsize_at := fun _ p => Ok (resting_size p);
     getmtime_at := fun _ _ => Ok 0%Z;
     rename_at := fun _ _ _ => Ok tt |}.

(** A launch that fails: the tool is not installed. *)
Definition no_tool : list string -> os_result Process :=
  fun _ => OSError "[WinError 2] The system cannot find the file specified".

(** HandBrake runs that exit with a given code. *)
Definition handbrake_exits (code : Z) : list string -> result CompletedProcess :=
  fun _ => Return {| returncode := code; stdout := EmptyString |}.

Definition exit_status_text : list string -> Z -> string :=
  fun _ code =>
    "Command returned non-zero exit status "
    ++ DecimalString.NilZero.string_of_int (Z.to_int code) ++ ".".

(** A working directory after a session named [movie] on drive [D]: the
    question is answered with [answer]; [failing] tells which calls
    fail. *)
Definition used_disk (answer : string) (failing : fs_call -> option string)
  : Disk :=
  {| typed := [answer];
     present := fun _ => true;
     listing := fun _ => ["movie.mp4"; "title_t00.mkv"];
     fails := failing;
     calls := [] |}.

Definition nothing_fails : fs_call -> option string := fun _ => None.

(** The move to [output/] fails, everything else works. *)
Definition move_fails : fs_call -> option string :=
  fun c =>
    match c with
    | Rename _ _ => Some "[Errno 2] No such file or directory"
    | _ => None
    end.

Definition disk_world (d : Disk) : World Disk := {| env := d; trace := [] |}.

(** A disk at the start of a session: the two names are about to be
    typed, and the working directory does not exist yet. *)
Definition fresh_disk (failing : fs_call -> option string) : Disk :=
  {| typed := [" movie "; "D"];
     present := fun _ => false;
     listing := fun _ => [];
     fails := failing;
     calls := [] |}.

Definition read_only : fs_call -> option string :=
  fun c =>
    match c with
    | Makedirs _ => Some "[Errno 30] Read-only file system"
    | _ => None
    end.

(** A machine on which everything works: the disc of the scenario, a rip
    that leaves two files, a HandBrake that exits with 0. *)
Definition two_files_mtime (p : string) : Z :=
  if String.eqb p newer_file then 200%Z else 100%Z.

Definition working_tools : Tools :=
  {| info_tool := fun _ => completes_with scenario_output;
     rip_tool := fun _ => launch 0;
     encode_tool := fun _ => handbrake_exits 0;
     directory := two_files_fs;
     error_text := exit_status_text;
     delivery := fun _ _ => None |}.

(** The same machine with a disc whose only title has size 0. *)
Definition blank_disc_tools : Tools :=
  {| info_tool := fun _ => completes_with zero_disc_output;
     rip_tool := fun _ => launch 0;
     encode_tool := fun _ => handbrake_exits 0;
     directory := two_files_fs;
     error_text := exit_status_text;
     delivery := fun _ _ => None |}.

Definition idle_machine : Machine :=
  {| launches := 0; rip_state := idle_state; shell := [] |}.

Definition machine_world : World Machine :=
  {| env := idle_machine; trace := [] |}.

(* ================================================================== *)
(** * Properties of the title selector *)

Lemma loop_body_select (st : index_value * Z) (line : string) :
  loop_body st line =
  if is_size_record line then select_step st (record_of line) else st.
Proof.
  unfold loop_body, is_size_record, select_step, record_of; cbv zeta.
  destruct (4 <=? List.length (split "," line))%nat; [|reflexivity].
  destruct (String.eqb (info_type (split "," line)) "11"); reflexivity.
Qed.

Lemma fold_loop_body_select (lines : list string) :
  forall st,
    fold_left loop_body lines st =
    fold_left select_step (map record_of (filter is_size_record lines)) st.
Proof.
  induction lines as [|line lines IH]; intros st; simpl; [reflexivity|].
  rewrite loop_body_select.
  destruct (is_size_record line); simpl; apply IH.
Qed.

(** The loop either keeps its state, when no record is larger than the
    size it holds, or ends on the first record of maximal size. *)
Lemma select_spec (recs : list (string * Z)) :
  forall (i0 : index_value) (m0 : Z),
    (fold_left select_step recs (i0, m0) = (i0, m0) /\
     forall r, In r recs -> (snd r <= m0)%Z)
    \/
    (exists id m,
        fold_left select_step recs (i0, m0) = (StrIndex id, m) /\
        (m0 < m)%Z /\ first_max recs (id, m)).
Proof.
  induction recs as [|r recs IH]; intros i0 m0.
  - left; split; [reflexivity | intros r []].
  - change (fold_left select_step (r :: recs) (i0, m0))
      with (fold_left select_step recs
              (if (snd r >? m0)%Z then (StrIndex (fst r), snd r)
               else (i0, m0))).
    destruct (snd r >? m0)%Z eqn:Hgt.
    + apply Z.gtb_lt in Hgt.
      right.
      destruct (IH (StrIndex (fst r)) (snd r)) as [[Heq Hle] | (id & m & Heq & Hlt & Hfm)].
      * exists (fst r), (snd r); rewrite Heq.
        split; [reflexivity|]. split; [assumption|].
        exists [], recs; simpl.
        destruct r; simpl in *.
        split; [reflexivity|]. split; [intros p []| exact Hle].
      * exists id, m; rewrite Heq.
        split; [reflexivity|]. split; [lia|].
        destruct Hfm as (pre & post & Hrecs & Hpre & Hpost).
        exists (r :: pre), post; simpl.
        split; [now rewrite Hrecs|]. split; [|exact Hpost].
        intros p [<- | Hin]; [exact Hlt | now apply Hpre].
    + assert (Hle : (snd r <= m0)%Z).
      { destruct (Z.gtb_spec (snd r) m0); [discriminate | assumption]. }
      destruct (IH i0 m0) as [[Heq Hall] | (id & m & Heq & Hlt & Hfm)].
      * left; split; [exact Heq|].
        intros p [<- | Hin]; [exact Hle | now apply Hall].
      * right; exists id, m.
        split; [exact Heq|]. split; [exact Hlt|].
        destruct Hfm as (pre & post & Hrecs & Hpre & Hpost).
        exists (r :: pre), post; simpl.
        split; [now rewrite Hrecs|]. split; [|exact Hpost].
        intros p [<- | Hin]; [simpl; lia | now apply Hpre].
Qed.

Lemma size_records_nonempty_output (out : string) :
  size_records out <> [] -> is_empty out = false.
Proof.
  destruct out; [intros H; now contradiction H | reflexivity].
Qed.

(** What [get_largest_title] computes once the tool has answered with exit
    code 0 and some output. *)
Lemma get_largest_title_completed
      (subprocess_run : list string -> result CompletedProcess)
      (drive_letter out : string) :
  subprocess_run (makemkv_info_command drive_letter)
    = Return {| returncode := 0; stdout := out |} ->
  is_empty out = false ->
  get_largest_title subprocess_run drive_letter =
  let st := fold_left select_step (size_records out) (IntIndex (-1), 0%Z) in
  if is_minus_one (fst st) then Raise (Exception no_titles_error)
  else Return st.
Proof.
  intros Hrun Hout. unfold get_largest_title. rewrite Hrun. simpl.
  rewrite Hout. simpl. rewrite fold_loop_body_select. reflexivity.
Qed.

Lemma get_largest_title_positive
      (subprocess_run : list string -> result CompletedProcess)
      (drive_letter out : string) :
  subprocess_run (makemkv_info_command drive_letter)
    = Return {| returncode := 0; stdout := out |} ->
  (exists r, In r (size_records out) /\ (0 < snd r)%Z) ->
  exists id size,
    first_max (size_records out) (id, size) /\ (0 < size)%Z /\
    get_largest_title subprocess_run drive_letter
      = Return (StrIndex id, size).
Proof.
  intros Hrun (r & Hin & Hpos).
  assert (Hne : is_empty out = false).
  { apply size_records_nonempty_output. intros E. rewrite E in Hin. exact Hin. }
  rewrite (get_largest_title_completed _ _ _ Hrun Hne).
  destruct (select_spec (size_records out) (IntIndex (-1)) 0%Z)
    as [[_ Hall] | (id & m & Heq & Hlt & Hfm)].
  - specialize (Hall r Hin). lia.
  - exists id, m. rewrite Heq. simpl. auto.
Qed.

Lemma get_largest_title_no_positive
      (subprocess_run : list string -> result CompletedProcess)
      (drive_letter out : string) :
  subprocess_run (makemkv_info_command drive_letter)
    = Return {| returncode := 0; stdout := out |} ->
  (forall r, In r (size_records out) -> (snd r <= 0)%Z) ->
  get_largest_title subprocess_run drive_letter
    = Raise (Exception (if is_empty out then makemkv_error
                        else no_titles_error)).
Proof.
  intros Hrun Hall.
  destruct (is_empty out) eqn:Hout.
  - unfold get_largest_title. rewrite Hrun. simpl. rewrite Hout. reflexivity.
  - rewrite (get_largest_title_completed _ _ _ Hrun Hout).
    destruct (select_spec (size_records out) (IntIndex (-1)) 0%Z)
      as [[Heq _] | (id & m & _ & Hlt & Hfm)].
    + rewrite Heq. reflexivity.
    + destruct Hfm as (pre & post & Hrecs & _ & _).
      assert (Hin : In (id, m) (size_records out)).
      { rewrite Hrecs. apply in_or_app. right. now left. }
      specialize (Hall _ Hin). simpl in Hall. lia.
Qed.

(** C1, as amended: when the tool exits with code 0 and at least one
    "file size" record of its output has a positive size,
    [get_largest_title] returns the identifier and the size of the first
    record, in document order, among those of maximal size; on the output
    with the records [TINFO:0,11,0,"500000000"] and
    [TINFO:1,11,0,"1200000000"] it returns title ["1"] with size
    1200000000. *)
Theorem get_largest_title_first_max
        (subprocess_run : list string -> result CompletedProcess)
        (drive_letter out : string) :
  subprocess_run (makemkv_info_command drive_letter)
    = Return {| returncode := 0; stdout := out |} ->
  (exists r, In r (size_records out) /\ (0 < snd r)%Z) ->
  (exists id size,
      first_max (size_records out) (id, size) /\
      get_largest_title subprocess_run drive_letter
        = Return (StrIndex id, size))
  /\ get_largest_title (completes_with scenario_output) drive_letter
       = Return (StrIndex "1", 1200000000%Z).
Proof.
  intros Hrun Hpos. split.
  - destruct (get_largest_title_positive _ _ _ Hrun Hpos)
      as (id & size & Hfm & _ & Hret).
    exists id, size. now split.
  - vm_compute. reflexivity.
Qed.

Lemma get_largest_title_first_max_witness :
  (exists id size,
      first_max (size_records scenario_output) (id, size) /\
      get_largest_title (completes_with scenario_output) "D"
        = Return (StrIndex id, size))
  /\ get_largest_title (completes_with scenario_output) "D"
       = Return (StrIndex "1", 1200000000%Z).
Proof.
  apply (get_largest_title_first_max (completes_with scenario_output)
                                     "D" scenario_output).
  - reflexivity.
  - exists ("1", 1200000000%Z). split; [vm_compute; auto | reflexivity].
Defined.

(** C1 as stated fails: this output has one "file size" record, of size 0,
    and no title is returned. *)
Lemma get_largest_title_first_max_counterexample :
  size_records zero_disc_output = [("0", 0%Z)] /\
  get_largest_title (completes_with zero_disc_output) "D"
    = Raise (Exception no_titles_error).
Proof. split; vm_compute; reflexivity. Qed.

(** C4, as amended: when the tool exits with code 0 and its output has at
    least one "file size" record but every parsed size equals 0,
    [get_largest_title] selects no title and raises "Could not find any
    titles on the DVD.". *)
Theorem get_largest_title_all_zero
        (subprocess_run : list string -> result CompletedProcess)
        (drive_letter out : string) :
  subprocess_run (makemkv_info_command drive_letter)
    = Return {| returncode := 0; stdout := out |} ->
  size_records out <> [] ->
  (forall r, In r (size_records out) -> snd r = 0%Z) ->
  get_largest_title subprocess_run drive_letter
    = Raise (Exception no_titles_error).
Proof.
  intros Hrun Hne Hzero.
  rewrite (get_largest_title_no_positive _ _ out Hrun).
  - now rewrite (size_records_nonempty_output _ Hne).
  - intros r Hin. rewrite (Hzero r Hin). lia.
Qed.

Lemma get_largest_title_all_zero_witness :
  get_largest_title (completes_with zero_disc_output) "D"
    = Raise (Exception no_titles_error).
Proof.
  apply (get_largest_title_all_zero (completes_with zero_disc_output)
                                    "D" zero_disc_output).
  - reflexivity.
  - vm_compute. discriminate.
  - vm_compute. intros r [<- | []]. reflexivity.
Defined.

(** C4 as stated fails: both "file size" records of this output parse to
    0, and the selection raises instead of returning a title. *)
Lemma get_largest_title_all_zero_counterexample :
  size_records all_zero_output = [("0", 0%Z); ("1", 0%Z)] /\
  ~ (exists title,
        get_largest_title (completes_with all_zero_output) "D"
          = Return title).
Proof.
  split; [vm_compute; reflexivity|].
  intros [title H]. vm_compute in H. discriminate H.
Qed.

(** C8, as amended: [get_largest_title] raises exactly when the tool could
    not be run, or exits with a non-zero code, or prints nothing, or
    prints no "file size" record with a positive size; in every other
    case it returns the identifier and the size of a record. *)
Theorem get_largest_title_fails_iff
        (subprocess_run : list string -> result CompletedProcess)
        (drive_letter : string) :
  ((exists e, get_largest_title subprocess_run drive_letter = Raise e)
   <->
   ((exists e,
        subprocess_run (makemkv_info_command drive_letter) = Raise e)
    \/
    (exists res,
        subprocess_run (makemkv_info_command drive_letter) = Return res /\
        (returncode res <> 0%Z \/ stdout res = EmptyString \/
         forall r, In r (size_records (stdout res)) -> (snd r <= 0)%Z))))
  /\
  ((exists e, get_largest_title subprocess_run drive_letter = Raise e) \/
   (exists res id size,
       subprocess_run (makemkv_info_command drive_letter) = Return res /\
       In (id, size) (size_records (stdout res)) /\
       get_largest_title subprocess_run drive_letter
         = Return (StrIndex id, size))).
Proof.
  destruct (subprocess_run (makemkv_info_command drive_letter))
    as [[rc out] | e] eqn:Hrun.
  - destruct (Z.eqb_spec rc 0) as [-> | Hrc].
    + destruct (select_spec (size_records out) (IntIndex (-1)) 0%Z)
        as [[_ Hall] | (id & m & _ & Hlt & Hfm)].
      * pose proof (get_largest_title_no_positive _ _ _ Hrun Hall) as Hget.
        split; [|left; eauto].
        split; [intros _ | intros _; eauto].
        right. exists {| returncode := 0; stdout := out |}.
        split; [reflexivity|]. right. right. exact Hall.
      * assert (Hin : In (id, m) (size_records out)).
        { destruct Hfm as (pre & post & Hrecs & _ & _).
          rewrite Hrecs. apply in_or_app. right. now left. }
        destruct (get_largest_title_positive subprocess_run drive_letter out
                    Hrun) as (id' & size & Hfm' & Hpos & Hget).
        { exists (id, m). split; [exact Hin | exact Hlt]. }
        assert (Hin' : In (id', size) (size_records out)).
        { destruct Hfm' as (pre & post & Hrecs & _ & _).
          rewrite Hrecs. apply in_or_app. right. now left. }
        split.
        -- split.
           ++ intros [e He]. rewrite Hget in He. discriminate He.
           ++ intros [[e He] | (res & Hres & Hcond)]; [discriminate He|].
              injection Hres as <-. simpl in Hcond.
              destruct Hcond as [Hrc | [Hout | Hall]].
              ** now contradiction Hrc.
              ** subst out. destruct Hin.
              ** specialize (Hall _ Hin'). simpl in Hall. lia.
        -- right. exists {| returncode := 0; stdout := out |}, id', size.
           auto.
    + assert (Hget : get_largest_title subprocess_run drive_letter
                     = Raise (Exception makemkv_error)).
      { unfold get_largest_title. rewrite Hrun. simpl.
        destruct (Z.eqb_spec rc 0); [contradiction | reflexivity]. }
      split; [|left; eauto].
      split; [intros _ | intros _; eauto].
      right. exists {| returncode := rc; stdout := out |}.
      split; [reflexivity|]. left. exact Hrc.
  - assert (Hget : exists e', get_largest_title subprocess_run drive_letter
                              = Raise e').
    { unfold get_largest_title. rewrite Hrun. destruct e; eauto. }
    split; [|left; exact Hget].
    split; [intros _; left; eauto | intros _; exact Hget].
Qed.

(** C8 as stated fails: the tool exits with code 0 and prints output with
    a "file size" record, and the selection still raises. *)
Lemma get_largest_title_fails_iff_counterexample :
  is_empty other_content_output = false /\
  size_records other_content_output = [("0", 0%Z)] /\
  get_largest_title (completes_with other_content_output) "D"
    = Raise (Exception no_titles_error).
Proof. repeat split; vm_compute; reflexivity. Qed.

Lemma fold_select_held (recs : list (string * Z)) :
  forall st, (snd st <= snd (fold_left select_step recs st))%Z.
Proof.
  induction recs as [|r recs IH]; intros st; simpl; [lia|].
  eapply Z.le_trans; [|apply IH].
  unfold select_step.
  destruct (Z.gtb_spec (snd r) (snd st)); simpl; lia.
Qed.

Lemma loop_size_nonneg (lines : list string) :
  (0 <= snd (fold_left loop_body lines (IntIndex (-1), 0%Z)))%Z.
Proof.
  rewrite fold_loop_body_select.
  apply (fold_select_held _ (IntIndex (-1), 0%Z)).
Qed.

(** C9: a "file size" record whose size field [int] rejects is read as
    size 0, no error is raised, and the record replaces no candidate: the
    loop state is unchanged by it whenever the size held is 0 or more, so
    the whole loop gives the same result with the record as without. *)
Theorem unparseable_size_is_zero (line : string) :
  is_size_record line = true ->
  int (size_str (split "," line)) = None ->
  record_of line = (title_index_str (split "," line), 0%Z) /\
  (forall st, (0 <= snd st)%Z -> loop_body st line = st) /\
  (forall before after,
      fold_left loop_body (before ++ line :: after)%list (IntIndex (-1), 0%Z)
      = fold_left loop_body (before ++ after)%list (IntIndex (-1), 0%Z)).
Proof.
  intros Hrec Hint.
  assert (Hsize : file_size (split "," line) = 0%Z).
  { unfold file_size. now rewrite Hint. }
  assert (Hbody : forall st, (0 <= snd st)%Z -> loop_body st line = st).
  { intros st Hst. rewrite loop_body_select, Hrec.
    unfold select_step, record_of. simpl. rewrite Hsize.
    destruct (Z.gtb_spec 0 (snd st)); [lia | reflexivity]. }
  split; [unfold record_of; now rewrite Hsize|].
  split; [exact Hbody|].
  intros before after. rewrite !fold_left_app. simpl.
  rewrite Hbody; [reflexivity | apply loop_size_nonneg].
Qed.

Lemma unparseable_size_is_zero_witness :
  record_of malformed_record = ("2", 0%Z) /\
  (forall st, (0 <= snd st)%Z -> loop_body st malformed_record = st) /\
  (forall before after,
      fold_left loop_body (before ++ malformed_record :: after)%list
                (IntIndex (-1), 0%Z)
      = fold_left loop_body (before ++ after)%list (IntIndex (-1), 0%Z)).
Proof.
  apply (unparseable_size_is_zero malformed_record); vm_compute; reflexivity.
Defined.

(* ================================================================== *)
(** * Properties of the retrying executor *)

Lemma append_assoc (a b c : string) : (a ++ b) ++ c = a ++ b ++ c.
Proof. induction a as [|x a IH]; simpl; [reflexivity | now rewrite IH]. Qed.



Lemma invocations_app (n : string) (t1 t2 : list event) :
  invocations n (t1 ++ t2)%list = (invocations n t1 + invocations n t2)%nat.
Proof. unfold invocations. now rewrite filter_app, length_app. Qed.

Lemma notifications_app (t1 t2 : list event) :
  notifications (t1 ++ t2)%list = (notifications t1 ++ notifications t2)%list.
Proof. apply filter_app. Qed.

Lemma invocations_repeat (n : string) (k : nat) :
  invocations n (repeat (Invoked n) k) = k.
Proof.
  unfold invocations.
  induction k as [|k IH]; simpl; [reflexivity|].
  rewrite String.eqb_refl. simpl. now rewrite IH.
Qed.

Lemma notifications_repeat_invoked (n : string) (k : nat) :
  notifications (repeat (Invoked n) k) = [].
Proof. induction k as [|k IH]; simpl; [reflexivity | exact IH]. Qed.

Section ExecutorFacts.

Context {Env : Type}.
Variable requests_post : string -> string -> Env -> option string * Env.

Lemma error_handler_exits {A : Type} (message : string) (w : World Env) :
  error_handler requests_post (A := A) message w =
  (Raise (SystemExit 1),
   {| env := snd (requests_post "Movie ERROR" message (env w));
      trace := (trace w ++ escalation requests_post message (env w))%list |}).
Proof.
  unfold error_handler, escalation, bind, try_except, send_message, print,
    emit, sys_exit, raise, bind. simpl.
  destruct (requests_post "Movie ERROR" message (env w)) as [[err|] e'];
    simpl; rewrite <- ?app_assoc; reflexivity.
Qed.

Lemma escalation_counts (message : string) (e : Env) :
  notifications (escalation requests_post message e)
    = [Posted "Movie ERROR" message] /\
  forall n, invocations n (escalation requests_post message e) = 0.
Proof.
  unfold escalation.
  destruct (fst (requests_post "Movie ERROR" message e)); split;
    intros; reflexivity.
Qed.

Context {A : Type}.
Variable function : Operation Env A.

Lemma run_loop_return (i : nat) (range : list nat) (w : World Env)
      (v : A) (e1 : Env) :
  call function (env w) = (Return v, e1) ->
  run_loop requests_post function (i :: range) w =
  (Return (Some v),
   {| env := e1; trace := (trace w ++ [Invoked (name function)])%list |}).
Proof.
  intros Hcall. simpl. unfold invoke, bind, emit. simpl.
  now rewrite Hcall.
Qed.

Lemma run_loop_raise (i : nat) (range : list nat) (w : World Env)
      (msg : string) (e1 : Env) :
  call function (env w) = (Raise (Exception msg), e1) ->
  run_loop requests_post function (i :: range) w =
  let w' := {| env := e1;
               trace := (trace w ++ [Invoked (name function)])%list |} in
  if (i <? ATTEMPTS)%nat
  then run_loop requests_post function range w'
  else error_handler requests_post
         (failure_report (name function) msg) w'.
Proof.
  intros Hcall. simpl. unfold invoke, bind, emit. simpl.
  now rewrite Hcall.
Qed.

(** Failed attempts below the limit are retried: the loop moves on by
    one index for each, recording one call each. *)
Lemma run_loop_retries (msgs : list string) :
  forall (i n : nat) (w : World Env) (e1 : Env),
    raises_each function (env w) msgs e1 ->
    (i + List.length msgs <= ATTEMPTS)%nat ->
    (List.length msgs <= n)%nat ->
    run_loop requests_post function (seq i n) w =
    run_loop requests_post function
      (seq (i + List.length msgs) (n - List.length msgs))
      {| env := e1;
         trace := (trace w ++ repeat (Invoked (name function))
                                     (List.length msgs))%list |}.
Proof.
  induction msgs as [|msg msgs IH]; intros i n w e1 Hraises Hi Hn.
  - simpl in *. subst e1. rewrite Nat.add_0_r, Nat.sub_0_r, app_nil_r.
    now destruct w.
  - destruct Hraises as (e0 & Hcall & Hrest).
    destruct n as [|n]; [simpl in Hn; lia|].
    cbn [seq]. rewrite (run_loop_raise _ _ _ _ _ Hcall). cbv zeta.
    assert (Hlt : (i <? ATTEMPTS)%nat = true).
    { apply Nat.ltb_lt. simpl in Hi. lia. }
    rewrite Hlt.
    rewrite (IH (S i) n _ e1); simpl in *; try assumption; try lia.
    rewrite <- app_assoc. simpl.
    now replace (i + S (List.length msgs))%nat
      with (S (i + List.length msgs)) by lia.
Qed.


End ExecutorFacts.

Section RunFacts.

Context {Env : Type}.
Variable requests_post : string -> string -> Env -> option string * Env.
Context {A : Type}.
Variable function : Operation Env A.

Lemma run_after_failures
      (w : World Env) (msgs : list string) (e1 e2 : Env) (v : A) :
  (List.length msgs < ATTEMPTS)%nat ->
  raises_each function (env w) msgs e1 ->
  call function e1 = (Return v, e2) ->
  run requests_post function w =
    (Return (Some v),
     {| env := e2;
        trace := (trace w ++ repeat (Invoked (name function))
                                    (S (List.length msgs)))%list |}).
Proof.
  intros Hk Hraises Hret. unfold run.
  rewrite (run_loop_retries requests_post function msgs 1 ATTEMPTS w e1
             Hraises); [|lia|lia].
  destruct (ATTEMPTS - List.length msgs)%nat as [|m] eqn:Hm; [lia|].
  cbn [seq].
  rewrite (run_loop_return requests_post function _ _ _ v e2);
    [|exact Hret].
  simpl. rewrite <- app_assoc.
  now rewrite <- (repeat_cons (List.length msgs)).
Qed.

Lemma run_first_success (w : World Env) (v : A) (e' : Env) :
  call function (env w) = (Return v, e') ->
  run requests_post function w =
    (Return (Some v),
     {| env := e';
        trace := (trace w ++ [Invoked (name function)])%list |}).
Proof.
  intros Hcall. unfold run. simpl seq. now apply run_loop_return.
Qed.

Lemma run_exhausted
      (w : World Env) (msgs : list string) (e1 e2 : Env)
      (last_error : string) :
  S (List.length msgs) = ATTEMPTS ->
  raises_each function (env w) msgs e1 ->
  call function e1 = (Raise (Exception last_error), e2) ->
  run requests_post function w =
    (Raise (SystemExit 1),
     {| env := snd (requests_post "Movie ERROR"
                      (failure_report (name function) last_error) e2);
        trace := (trace w ++ repeat (Invoked (name function)) ATTEMPTS
                          ++ escalation requests_post
                               (failure_report (name function) last_error)
                               e2)%list |}).
Proof.
  intros Hk Hraises Hlast. unfold run.
  rewrite (run_loop_retries requests_post function msgs 1 ATTEMPTS w e1
             Hraises); [|lia|lia].
  replace (ATTEMPTS - List.length msgs)%nat with 1%nat by lia.
  replace (1 + List.length msgs)%nat with ATTEMPTS by lia.
  cbn [seq].
  rewrite (run_loop_raise requests_post function _ _ _ last_error e2);
    [|exact Hlast].
  cbv zeta. rewrite Nat.ltb_irrefl.
  rewrite error_handler_exits. simpl env. simpl trace.
  f_equal. f_equal.
  rewrite <- !app_assoc. f_equal.
  rewrite <- Hk, app_assoc, <- repeat_cons. reflexivity.
Qed.

(** C2: an operation that raises on [k < ATTEMPTS] calls in a row and
    returns [v] on the next one makes [run] return [v] after exactly
    [k + 1] calls of the operation, with nothing printed or posted; an
    operation that returns on its first call is called once. *)
Theorem run_retries_then_returns
        (w : World Env) (msgs : list string) (e1 e2 : Env) (v : A) :
  (List.length msgs < ATTEMPTS)%nat ->
  raises_each function (env w) msgs e1 ->
  call function e1 = (Return v, e2) ->
  run requests_post function w =
    (Return (Some v),
     {| env := e2;
        trace := (trace w ++ repeat (Invoked (name function))
                                    (S (List.length msgs)))%list |})
  /\ invocations (name function)
       (trace (snd (run requests_post function w)))
     = (invocations (name function) (trace w) + S (List.length msgs))%nat
  /\ (forall v' e',
         call function (env w) = (Return v', e') ->
         run requests_post function w =
           (Return (Some v'),
            {| env := e';
               trace := (trace w ++ [Invoked (name function)])%list |})).
Proof.
  intros Hk Hraises Hret.
  pose proof (run_after_failures w msgs e1 e2 v Hk Hraises Hret) as Hrun.
  split; [exact Hrun|]. split.
  - rewrite Hrun. cbn [snd trace]. rewrite invocations_app.
    now rewrite (invocations_repeat _ (S (List.length msgs))).
  - intros v' e'. apply run_first_success.
Qed.


End RunFacts.

Lemma run_retries_then_returns_witness :
  run post_delivered (flaky 2) fresh_world =
    (Return (Some "temp/D/movie.mkv"),
     {| env := 3; trace := [Invoked "rip_dvd"; Invoked "rip_dvd";
                            Invoked "rip_dvd"] |})
  /\ invocations "rip_dvd"
       (trace (snd (run post_delivered (flaky 2) fresh_world))) = 3
  /\ (forall v' e',
         call (flaky 2) 0 = (Return v', e') ->
         run post_delivered (flaky 2) fresh_world =
           (Return (Some v'),
            {| env := e'; trace := [Invoked "rip_dvd"] |})).
Proof.
  apply (run_retries_then_returns post_delivered (flaky 2) fresh_world
           [rip_error; rip_error] 2 3 "temp/D/movie.mkv").
  - simpl. unfold ATTEMPTS. lia.
  - simpl. exists 1. split; [reflexivity|].
    exists 2. split; reflexivity.
  - reflexivity.
Defined.


Lemma bind_return {S A B : Type} (m : M S A) (k : A -> M S B)
      (s s' : S) (a : A) :
  m s = (Return a, s') -> (x <- m ;; k x) s = k a s'.
Proof. intros H. unfold bind. now rewrite H. Qed.

Lemma bind_raise {S A B : Type} (m : M S A) (k : A -> M S B)
      (s s' : S) (e : BaseException) :
  m s = (Raise e, s') -> (x <- m ;; k x) s = (Raise e, s').
Proof. intros H. unfold bind. now rewrite H. Qed.

(** The scenario of the specification: title selection succeeds, then
    [rip_dvd] raises on three calls in a row.  The program ends with exit
    status 1 after one "Movie ERROR" notification naming [rip_dvd];
    [encode_to_mp4] is never called. *)
Lemma main_stages_rip_exhausted
      {Env : Type}
      (requests_post : string -> string -> Env -> option string * Env)
      (get_largest_title_call :
         string -> Env -> result (index_value * Z) * Env)
      (rip_dvd_call :
         index_value -> string -> string -> Z -> string ->
         Env -> result string * Env)
      (encode_to_mp4_call :
         string -> string -> string -> Env -> result string * Env)
      (size_gb_text : Z -> string) (duration_text : Env -> string)
      (output_file_name drive_letter output_directory : string)
      (w : World Env) (title : index_value * Z) (e1 e2 e3 : Env)
      (msgs : list string) (last_error : string) :
  let rip := {| name := "rip_dvd";
                call := rip_dvd_call (fst title) output_file_name
                          output_directory (snd title) drive_letter |} in
  get_largest_title_call drive_letter (env w) = (Return title, e1) ->
  size_gb_overflows (snd title) = false ->
  S (List.length msgs) = ATTEMPTS ->
  raises_each rip e1 msgs e2 ->
  call rip e2 = (Raise (Exception last_error), e3) ->
  let outcome :=
    dunder_main requests_post
      (main_stages Env requests_post get_largest_title_call rip_dvd_call
         encode_to_mp4_call size_gb_text duration_text
         output_file_name drive_letter output_directory) w in
  fst outcome = Raise (SystemExit 1) /\
  exit_status (fst outcome) = 1%Z /\
  invocations "encode_to_mp4" (trace (snd outcome))
    = invocations "encode_to_mp4" (trace w) /\
  notifications (trace (snd outcome))
    = (notifications (trace w)
       ++ [Posted "Movie ERROR" (failure_report "rip_dvd" last_error)])%list.
Proof.
  intros rip Hget Hsize Hk Hraises Hlast outcome.
  set (w1 := {| env := env w;
                trace := (trace w
                          ++ [Printed "Getting disc info from MakeMKV..."])%list |}).
  set (w2 := {| env := e1;
                trace := (trace w1 ++ [Invoked "get_largest_title"])%list |}).
  set (w3 := {| env := e1;
                trace := (trace w2 ++
                  [Printed ("Largest title found: Title "
                            ++ str_of_index (fst title) ++ " with size: "
                            ++ size_gb_text (snd title) ++ " GB");
                   Printed ("Ripping largest title (Title "
                            ++ str_of_index (fst title)
                            ++ ") to output directory...")])%list |}).
  pose proof (run_exhausted requests_post rip w3 msgs e2 e3
                last_error Hk Hraises Hlast) as Hrun.
  set (w4 := {| env := snd (requests_post "Movie ERROR"
                              (failure_report (name rip) last_error) e3);
                trace := (trace w3 ++ repeat (Invoked (name rip)) ATTEMPTS
                          ++ escalation requests_post
                               (failure_report (name rip) last_error) e3)%list
             |}) in *.
  assert (Hmain :
    main_stages Env requests_post get_largest_title_call rip_dvd_call
      encode_to_mp4_call size_gb_text duration_text
      output_file_name drive_letter output_directory w
    = (Raise (SystemExit 1), w4)).
  { unfold main_stages.
    rewrite (bind_return _ _ w w1 tt) by reflexivity.
    rewrite (bind_return _ _ w1 w2 (Some title)).
    2:{ apply (run_first_success requests_post
                 {| name := "get_largest_title";
                    call := get_largest_title_call drive_letter |}).
        exact Hget. }
    rewrite (bind_return _ _ w2 w2 title) by reflexivity.
    cbv zeta.
    rewrite (bind_return _ _ w2 w2 (size_gb_text (snd title)))
      by (unfold size_gb; now rewrite Hsize).
    rewrite (bind_return _ _ w2 _ tt) by reflexivity.
    rewrite (bind_return _ _ _ w3 tt).
    2:{ unfold print, emit, w3. simpl. now rewrite <- app_assoc. }
    apply bind_raise. exact Hrun. }
  assert (Hout : outcome = (Raise (SystemExit 1), w4)).
  { unfold outcome, dunder_main, try_except. now rewrite Hmain. }
  rewrite Hout. simpl fst. simpl snd.
  split; [reflexivity|]. split; [reflexivity|].
  split.
  - unfold w4. cbn [trace].
    rewrite !invocations_app.
    rewrite (proj2 (escalation_counts requests_post _ _)).
    unfold w3, w2, w1. cbn [trace]. rewrite !invocations_app.
    unfold invocations at 2 3 4 5. simpl. lia.
  - unfold w4. cbn [trace].
    rewrite !notifications_app, notifications_repeat_invoked.
    rewrite (proj1 (escalation_counts requests_post _ _)).
    unfold w3, w2, w1. cbn [trace].
    rewrite !notifications_app. simpl. now rewrite !app_nil_r.
Qed.

(* ================================================================== *)
(** * Properties of the progress monitor *)

Section MonitorFacts.

Variable fs : FileSystem.

Lemma max_scan_getsize_bar (items : list string) :
  forall best best_key s,
    progress_bar (snd (max_scan (getsize fs) items best best_key s))
    = progress_bar s /\
    console (snd (max_scan (getsize fs) items best best_key s))
    = console s /\
    renamed (snd (max_scan (getsize fs) items best best_key s))
    = renamed s.
Proof.
  induction items as [|x items IH]; intros best best_key s; simpl.
  - auto.
  - unfold bind, getsize.
    destruct (getsize_at fs (clock s) x) as [k | msg]; simpl; [|auto].
    destruct (k >? best_key)%Z; exact (IH _ _ (advance s)).
Qed.

Lemma max_by_getsize_bar (items : list string) (s : RipState) :
  progress_bar (snd (max_by (getsize fs) items s)) = progress_bar s /\
  console (snd (max_by (getsize fs) items s)) = console s /\
  renamed (snd (max_by (getsize fs) items s)) = renamed s.
Proof.
  destruct items as [|x items]; simpl; [auto|].
  unfold bind, getsize.
  destruct (getsize_at fs (clock s) x) as [k | msg]; simpl; [|auto].
  exact (max_scan_getsize_bar items x k (advance s)).
Qed.

(** The values shown by one run of the loop, from a high-water mark
    [current_progress]: each exceeds the mark and the values before it,
    and the monitor touches nothing else of the bar and renames
    nothing. *)
Lemma poll_loop_reports (stop_event : nat) (output_directory : string) :
  forall (current_progress : Z) (s s' : RipState) (r : result unit),
    poll_loop fs stop_event output_directory current_progress s = (r, s') ->
    exists reported,
      refreshed (progress_bar s')
        = (refreshed (progress_bar s) ++ reported)%list /\
      StronglySorted Z.lt (current_progress :: reported) /\
      tqdm_total (progress_bar s') = tqdm_total (progress_bar s) /\
      closed (progress_bar s') = closed (progress_bar s) /\
      renamed s' = renamed s.
Proof.
  induction stop_event as [|n IH]; intros cp s s' r Hrun.
  - injection Hrun as _ <-. exists []. rewrite app_nil_r.
    repeat split; auto. constructor; constructor.
  - cbn [poll_loop] in Hrun. unfold bind at 1 in Hrun.
    unfold glob at 1 in Hrun.
    destruct (glob_at fs (clock s) (path_join output_directory "*.mkv"))
      as [[|f files] | msg] eqn:Hglob; cbn [of_os] in Hrun;
      [| | injection Hrun as _ <-; exists []; rewrite app_nil_r;
           repeat split; auto; constructor; constructor].
    + cbn [is_nil] in Hrun. unfold bind, ret, sleep in Hrun.
      apply IH in Hrun. exact Hrun.
    + cbn [is_nil] in Hrun. unfold bind at 1 in Hrun.
      unfold bind at 1 in Hrun.
      pose proof (max_by_getsize_bar (f :: files) (advance s))
        as (Hbar & Hcon & Hren).
      destruct (max_by (getsize fs) (f :: files) (advance s))
        as [[current_file | e] s2]; cbn [snd] in Hbar, Hcon, Hren.
      * unfold try_except, bind at 1 in Hrun. unfold getsize at 1 in Hrun.
        destruct (getsize_at fs (clock s2) current_file)
          as [progress | msg]; cbn [of_os] in Hrun.
        -- destruct (progress >? cp)%Z eqn:Hgt.
           ++ unfold bind, set_n, refresh, with_bar, ret, sleep in Hrun.
              apply IH in Hrun.
              destruct Hrun
                as (reported & Href & Hsorted & Htot & Hclo & Hren').
              cbn in Href, Htot, Hclo, Hren'.
              exists (progress :: reported).
              rewrite Href, Htot, Hclo, Hren', Hbar, Hren.
              rewrite <- app_assoc. simpl.
              repeat split; auto.
              apply Z.gtb_lt in Hgt.
              constructor; [exact Hsorted|].
              constructor; [lia|].
              inversion Hsorted as [|? ? _ Hall]; subst.
              eapply Forall_impl; [|exact Hall].
              intros z Hz. simpl in Hz. lia.
           ++ unfold bind, ret, sleep in Hrun.
              apply IH in Hrun.
              destruct Hrun
                as (reported & Href & Hsorted & Htot & Hclo & Hren').
              cbn in Href, Htot, Hclo, Hren'.
              exists reported.
              rewrite Href, Htot, Hclo, Hren', Hbar, Hren.
              repeat split; auto.
        -- unfold bind, rip_print, ret, sleep in Hrun.
           apply IH in Hrun.
           destruct Hrun
             as (reported & Href & Hsorted & Htot & Hclo & Hren').
           cbn in Href, Htot, Hclo, Hren'.
           exists reported.
           rewrite Href, Htot, Hclo, Hren', Hbar, Hren.
           repeat split; auto.
      * injection Hrun as _ <-.
        exists []. rewrite app_nil_r, Hbar, Hren.
        repeat split; auto. constructor; constructor.
Qed.

Lemma max_scan_getsize_monitors (items : list string) :
  forall best best_key s,
    unstopped_monitors (snd (max_scan (getsize fs) items best best_key s))
    = unstopped_monitors s.
Proof.
  induction items as [|x items IH]; intros best best_key s; simpl.
  - reflexivity.
  - unfold bind, getsize.
    destruct (getsize_at fs (clock s) x) as [k | msg]; simpl;
      [|reflexivity].
    destruct (k >? best_key)%Z; exact (IH _ _ (advance s)).
Qed.

Lemma max_by_getsize_monitors (items : list string) (s : RipState) :
  unstopped_monitors (snd (max_by (getsize fs) items s))
  = unstopped_monitors s.
Proof.
  destruct items as [|x items]; simpl; [reflexivity|].
  unfold bind, getsize.
  destruct (getsize_at fs (clock s) x) as [k | msg]; simpl; [|reflexivity].
  exact (max_scan_getsize_monitors items x k (advance s)).
Qed.

(** The monitor neither starts nor stops a thread. *)
Lemma poll_loop_monitors (stop_event : nat) (output_directory : string) :
  forall (current_progress : Z) (s : RipState),
    unstopped_monitors
      (snd (poll_loop fs stop_event output_directory current_progress s))
    = unstopped_monitors s.
Proof.
  induction stop_event as [|n IH]; intros cp s; [reflexivity|].
  cbn [poll_loop]. unfold bind at 1. unfold glob at 1.
  destruct (glob_at fs (clock s) (path_join output_directory "*.mkv"))
    as [[|f files] | msg]; cbn [of_os]; [| | reflexivity].
  - cbn [is_nil]. unfold bind, ret, sleep. rewrite IH. reflexivity.
  - cbn [is_nil]. unfold bind at 1. unfold bind at 1.
    pose proof (max_by_getsize_monitors (f :: files) (advance s)) as Hmon.
    destruct (max_by (getsize fs) (f :: files) (advance s))
      as [[current_file | e] s2]; cbn [snd] in Hmon; [|exact Hmon].
    unfold try_except, bind at 1. unfold getsize at 1.
    destruct (getsize_at fs (clock s2) current_file)
      as [progress | msg]; cbn [of_os].
    + destruct (progress >? cp)%Z.
      * unfold bind, set_n, refresh, with_bar, ret, sleep.
        rewrite IH. exact Hmon.
      * unfold bind, ret, sleep. rewrite IH. exact Hmon.
    + unfold bind, rip_print, ret, sleep. rewrite IH. exact Hmon.
Qed.

End MonitorFacts.

Lemma StronglySorted_lt_le (l : list Z) :
  StronglySorted Z.lt l -> StronglySorted Z.le l.
Proof.
  induction 1 as [|x l Hl IH Hall]; constructor; [exact IH|].
  eapply Forall_impl; [|exact Hall]. intros z Hz. lia.
Qed.

(** C6: whatever the directory shows and however long the monitor runs,
    the values that [poll_file_size_progress] hands to the progress bar
    form a non-decreasing sequence; in fact each value is larger than
    every value reported before it, and all are positive. *)
Theorem poll_reports_monotone
        (fs : FileSystem) (expected_file_size : Z)
        (output_directory : string) (stop_event : nat) (s : RipState) :
  exists reported,
    refreshed (progress_bar
                 (snd (poll_file_size_progress fs expected_file_size
                         output_directory stop_event s)))
      = (refreshed (progress_bar s) ++ reported)%list /\
    StronglySorted Z.le reported /\
    StronglySorted Z.lt reported /\
    Forall (fun v => (0 < v)%Z) reported.
Proof.
  destruct (poll_file_size_progress fs expected_file_size output_directory
              stop_event s) as [r s'] eqn:Hrun.
  unfold poll_file_size_progress in Hrun.
  destruct (poll_loop_reports fs _ _ _ _ _ _ Hrun)
    as (reported & Href & Hsorted & _).
  exists reported. cbn [snd].
  inversion Hsorted as [|? ? Hrest Hall]; subst.
  repeat split; auto using StronglySorted_lt_le.
Qed.

(** The file is read as 100, 50 and 200 bytes long: 100 and 200 are
    reported, 50 is not. *)
Lemma poll_shrinking_example :
  refreshed (progress_bar
               (snd (poll_file_size_progress shrinking_fs 5000 "temp/D" 3
                       idle_state)))
  = [100%Z; 200%Z].
Proof. vm_compute. reflexivity. Qed.

(** The defect behind C5: the file is listed at instant 0 and gone at
    instant 1, when [max] asks for its size outside the [try]; the error
    leaves the loop in its first tick, unlogged, and ends the monitor. *)
Lemma poll_key_error_is_fatal :
  poll_file_size_progress (vanishing_fs 1) 5000 "temp/D" 3 idle_state
  = (Raise (Exception gone_error),
     {| clock := 2; progress_bar := progress_bar idle_state;
        console := []; renamed := []; unstopped_monitors := 0 |}).
Proof. vm_compute. reflexivity. Qed.

(** The same error one instant later, at the read inside the [try], is
    logged; the tick is skipped and the next two ticks report. *)
Lemma poll_read_error_is_skipped :
  poll_file_size_progress (vanishing_fs 2) 5000 "temp/D" 3 idle_state
  = (Return tt,
     {| clock := 12;
        progress_bar := {| tqdm_total := 5000; tqdm_n := 10000;
                           refreshed := [6000%Z; 10000%Z];
                           closed := false |};
        console := ["Error checking file size: " ++ gone_error];
        renamed := []; unstopped_monitors := 0 |}).
Proof. vm_compute. reflexivity. Qed.

(* ================================================================== *)
(** * Properties of the rip pipeline *)

Lemma sort_desc_head (l : list (string * Z)) :
  l <> [] ->
  exists r rest, sort_desc l = r :: rest /\ first_max l r.
Proof.
  induction l as [|x l IH]; intros Hne; [now contradiction Hne|].
  destruct l as [|y l].
  - exists x, []. split; [reflexivity|].
    exists [], []. repeat split; intros p [].
  - destruct IH as (r & rest & Hsort & pre & post & Hl & Hpre & Hpost);
      [discriminate|].
    change (sort_desc (x :: y :: l))
      with (insert_desc x (sort_desc (y :: l))).
    rewrite Hsort. simpl.
    destruct (Z.leb_spec (snd r) (snd x)) as [Hle | Hlt].
    + exists x, (r :: rest). split; [reflexivity|].
      exists [], (y :: l). split; [reflexivity|].
      split; [intros p []|].
      intros p Hin. rewrite Hl in Hin.
      apply in_app_or in Hin. destruct Hin as [Hin | [<- | Hin]].
      * specialize (Hpre p Hin). lia.
      * exact Hle.
      * specialize (Hpost p Hin). lia.
    + exists r, (insert_desc x rest). split; [reflexivity|].
      exists (x :: pre), post. split; [simpl; now rewrite Hl|].
      split; [|exact Hpost].
      intros p [<- | Hin]; [exact Hlt | now apply Hpre].
Qed.






Section RipFacts.

Variable fs : FileSystem.
Variable Popen : list string -> os_result Process.

Lemma keyed_getmtime_later (files : list string) :
  forall s,
    exists k,
      later k s (snd (keyed (getmtime fs) files s)).
Proof.
  induction files as [|f files IH]; intros s; simpl.
  - exists 0. repeat split.
  - unfold bind at 1. unfold getmtime at 1.
    destruct (getmtime_at fs (clock s) f) as [m | msg]; simpl.
    + unfold bind at 1.
      destruct (IH (advance s)) as (k & Hc & Hb & Hcon & Hren & Hmon).
      destruct (keyed (getmtime fs) files (advance s)) as [[l | e] s'];
        simpl in *; exists (S k); repeat split; auto; lia.
    + exists 1. repeat split.
Qed.

Lemma keyed_getmtime_ok (files : list string) :
  forall s stats,
    mtimes_from fs (clock s) files = Some stats ->
    exists s',
      keyed (getmtime fs) files s = (Return stats, s') /\
      later (List.length files) s s'.
Proof.
  induction files as [|f files IH]; intros s stats Hstats; simpl in *.
  - injection Hstats as <-. exists s. split; [reflexivity|].
    repeat split.
  - unfold bind at 1. unfold getmtime at 1.
    destruct (getmtime_at fs (clock s) f) as [m | msg]; [|discriminate].
    destruct (mtimes_from fs (S (clock s)) files) as [rest|] eqn:Hrest;
      [|discriminate].
    injection Hstats as <-.
    destruct (IH (advance s) rest Hrest)
      as (s' & Hkeyed & Hc & Hb & Hcon & Hren & Hmon).
    simpl. unfold bind. rewrite Hkeyed. simpl.
    exists s'. split; [reflexivity|].
    simpl in *. repeat split; auto; lia.
Qed.


Lemma mtimes_from_names (files : list string) :
  forall t stats,
    mtimes_from fs t files = Some stats -> map fst stats = files.
Proof.
  induction files as [|f files IH]; intros t stats H; simpl in H.
  - now injection H as <-.
  - destruct (getmtime_at fs t f); [|discriminate].
    destruct (mtimes_from fs (S t) files) eqn:Hrest; [|discriminate].
    injection H as <-. simpl. f_equal. eauto.
Qed.

(** From the launch to the reading of the output: the bar is new, the
    monitor has been started and has reported an increasing sequence, and
    nothing has been renamed. *)
Lemma supervise_monitored (command : list string) (expected_file_size : Z)
      (output_directory : string) (s : RipState) (process : Process) :
  Popen command = Ok process ->
  exists s0 reported,
    supervise fs Popen command expected_file_size output_directory s
    = (drain process ;;
       stop_and_join ;;
       set_n expected_file_size ;;
       refresh ;;
       close ;;
       ret (exit_code process)) s0 /\
    tqdm_total (progress_bar s0) = expected_file_size /\
    refreshed (progress_bar s0) = reported /\
    closed (progress_bar s0) = false /\
    StronglySorted Z.lt reported /\
    renamed s0 = renamed s /\
    unstopped_monitors s0 = S (unstopped_monitors s).
Proof.
  intros Hopen.
  unfold supervise. unfold bind at 1. rewrite Hopen. cbn [of_os].
  unfold bind at 1. unfold tqdm_new at 1, with_bar at 1.
  unfold bind at 1. unfold thread_start at 1, with_monitors at 1.
  unfold bind at 1. unfold in_thread at 1.
  match goal with
  | |- context [poll_file_size_progress fs ?x ?d ?n ?st] =>
      pose proof (poll_loop_monitors fs n d 0%Z st) as Hmon;
      destruct (poll_file_size_progress fs x d n st) as [r s0] eqn:Hpoll
  end.
  unfold poll_file_size_progress in Hpoll. rewrite Hpoll in Hmon.
  destruct (poll_loop_reports fs _ _ _ _ _ _ Hpoll)
    as (reported & Href & Hsorted & Htot & Hclo & Hren).
  cbn in Href, Htot, Hclo, Hren, Hmon. cbn [snd].
  exists s0, reported. split; [reflexivity|].
  repeat split; auto.
  inversion Hsorted; assumption.
Qed.

(** After a launch that succeeded and an output that was read to its
    end, [supervise] returns the exit code with the bar forced to the
    expected size and closed, whatever the monitor did and whatever the
    exit code is. *)
Lemma supervise_completes (command : list string) (expected_file_size : Z)
      (output_directory : string) (s : RipState) (process : Process) :
  Popen command = Ok process ->
  stdout_failure process = None ->
  exists s1 reported,
    supervise fs Popen command expected_file_size output_directory s
      = (Return (exit_code process), s1) /\
    progress_bar s1
      = {| tqdm_total := expected_file_size;
           tqdm_n := expected_file_size;
           refreshed := (reported ++ [expected_file_size])%list;
           closed := true |} /\
    StronglySorted Z.lt reported /\
    renamed s1 = renamed s /\
    unstopped_monitors s1 = unstopped_monitors s.
Proof.
  intros Hopen Hread.
  destruct (supervise_monitored command expected_file_size output_directory
              s process Hopen)
    as (s0 & reported & Hsup & Htot & Href & _ & Hsorted & Hren & Hmon).
  rewrite Hsup. unfold drain. rewrite Hread.
  unfold bind, stop_and_join, with_monitors, set_n, refresh, close,
    with_bar, ret. cbn.
  eexists _, reported. split; [reflexivity|]. cbn.
  rewrite Href, Htot, Hmon. repeat split; auto.
Qed.

(** When the output cannot be read to its end, the error leaves
    [supervise] with the bar as the monitor left it, still open, and the
    monitor not stopped. *)
Lemma supervise_undecodable (command : list string) (expected_file_size : Z)
      (output_directory : string) (s : RipState) (process : Process)
      (msg : string) :
  Popen command = Ok process ->
  stdout_failure process = Some msg ->
  exists s1 reported,
    supervise fs Popen command expected_file_size output_directory s
      = (Raise (Exception msg), s1) /\
    tqdm_total (progress_bar s1) = expected_file_size /\
    refreshed (progress_bar s1) = reported /\
    closed (progress_bar s1) = false /\
    StronglySorted Z.lt reported /\
    renamed s1 = renamed s /\
    unstopped_monitors s1 = S (unstopped_monitors s).
Proof.
  intros Hopen Hread.
  destruct (supervise_monitored command expected_file_size output_directory
              s process Hopen)
    as (s0 & reported & Hsup & Htot & Href & Hclo & Hsorted & Hren & Hmon).
  exists s0, reported. rewrite Hsup. unfold drain. rewrite Hread.
  repeat split; auto.
Qed.

End RipFacts.

Section RipDvdFacts.

Variable fs : FileSystem.
Variable Popen : list string -> os_result Process.

Lemma locate_and_rename_keeps_bar (output_file_name output_directory
                                   : string) (s : RipState) :
  progress_bar (snd (locate_and_rename fs output_file_name
                       output_directory s))
  = progress_bar s.
Proof.
  unfold locate_and_rename, bind at 1, glob at 1.
  destruct (glob_at fs (clock s) (path_join output_directory "*.mkv"))
    as [found | msg]; cbn [of_os]; [|reflexivity].
  unfold sorted_reverse, bind at 1, bind at 1.
  match goal with
  | |- context [keyed (getmtime fs) ?l ?st] =>
      destruct (keyed_getmtime_later fs l st) as (k & _ & Hbar & _);
      destruct (keyed (getmtime fs) l st) as [[stats | e] s2]
  end; cbn [snd] in Hbar; [|exact Hbar].
  unfold ret. destruct (map fst (sort_desc stats)) as [|src rest].
  - exact Hbar.
  - unfold bind, try_except, os_rename.
    destruct (rename_at fs (clock s2) src _); exact Hbar.
Qed.


Lemma locate_and_rename_unlisted (output_file_name output_directory : string)
      (s : RipState) (msg : string) :
  glob_at fs (clock s) (path_join output_directory "*.mkv") = OSError msg ->
  locate_and_rename fs output_file_name output_directory s
  = (Raise (Exception msg), advance s).
Proof.
  intros Hglob. unfold locate_and_rename, bind at 1, glob at 1.
  rewrite Hglob. reflexivity.
Qed.


Lemma locate_and_rename_found (output_file_name output_directory : string)
      (s : RipState) (found : list string) (stats : list (string * Z)) :
  let new_file_path :=
    path_join output_directory (output_file_name ++ ".mkv") in
  let outcome :=
    locate_and_rename fs output_file_name output_directory s in
  glob_at fs (clock s) (path_join output_directory "*.mkv") = Ok found ->
  found <> [] ->
  mtimes_from fs (S (clock s)) found = Some stats ->
  exists ripped_file mtime,
    first_max stats (ripped_file, mtime) /\
    (forall u,
        rename_at fs (List.length found + S (clock s))
                  ripped_file new_file_path = Ok u ->
        fst outcome = Return new_file_path /\
        renamed (snd outcome)
          = (renamed s ++ [(ripped_file, new_file_path)])%list) /\
    (forall msg,
        rename_at fs (List.length found + S (clock s))
                  ripped_file new_file_path = OSError msg ->
        fst outcome
          = Raise (Exception ("Error renaming MKV file: " ++ msg)) /\
        renamed (snd outcome) = renamed s).
Proof.
  intros new_file_path outcome Hglob Hne Hstats.
  destruct (keyed_getmtime_ok fs found (advance s) stats Hstats)
    as (s2 & Hkeyed & Hclock & _ & _ & Hren & _).
  assert (Hstats_ne : stats <> []).
  { intros ->. apply Hne. now rewrite <- (mtimes_from_names fs _ _ _ Hstats). }
  destruct (sort_desc_head stats Hstats_ne)
    as ([ripped_file mtime] & rest & Hsort & Hfm).
  exists ripped_file, mtime. split; [exact Hfm|].
  assert (Hout : outcome =
    (x <- try_except (os_rename fs ripped_file new_file_path)
            (fun e => raise (Exception ("Error renaming MKV file: " ++ e))) ;;
     ret new_file_path) s2).
  { unfold outcome, locate_and_rename, bind at 1, glob at 1.
    rewrite Hglob. cbn [of_os].
    unfold sorted_reverse, bind at 1, bind at 1.
    rewrite Hkeyed. unfold ret at 1. rewrite Hsort. reflexivity. }
  simpl in Hclock, Hren.
  split.
  - intros u Hrename. rewrite Hout.
    unfold bind, try_except, os_rename. rewrite Hclock, Hrename. simpl.
    now rewrite Hren.
  - intros msg Hrename. rewrite Hout.
    unfold bind, try_except, os_rename. rewrite Hclock, Hrename. simpl.
    now rewrite Hren.
Qed.


(** C10: [rip_dvd] sets the progress bar to the expected file size,
    refreshes and closes it before it looks at the exit code.  Whenever
    [supervise] hands over an exit code the bar is in that state, and it
    stays so; it does hand over the exit code of the process once the
    process has been launched and its output read to the end, and a
    non-zero exit code then makes [rip_dvd] raise "MakeMKV returned an
    error during ripping." in exactly that state. *)
Theorem rip_dvd_forces_bar_before_exit_check
        (title_index output_file_name output_directory : string)
        (expected_file_size : Z) (drive_letter : string) (s : RipState)
        (process : Process) :
  let command :=
    makemkv_mkv_command drive_letter title_index output_directory in
  let supervised := supervise fs Popen command expected_file_size
                      output_directory s in
  let outcome := rip_dvd fs Popen title_index output_file_name
                   output_directory expected_file_size drive_letter s in
  Popen command = Ok process ->
  (forall returncode,
      fst supervised = Return returncode ->
      returncode = exit_code process /\
      exists reported,
        progress_bar (snd supervised)
        = {| tqdm_total := expected_file_size;
             tqdm_n := expected_file_size;
             refreshed := (reported ++ [expected_file_size])%list;
             closed := true |})
  /\ (stdout_failure process = None ->
      fst supervised = Return (exit_code process))
  /\ progress_bar (snd outcome) = progress_bar (snd supervised)
  /\ (stdout_failure process = None ->
      exit_code process <> 0%Z ->
      outcome = (Raise (Exception rip_error), snd supervised) /\
      exists reported,
        progress_bar (snd outcome)
        = {| tqdm_total := expected_file_size;
             tqdm_n := expected_file_size;
             refreshed := (reported ++ [expected_file_size])%list;
             closed := true |}).
Proof.
  intros command supervised outcome Hopen.
  destruct (stdout_failure process) as [msg|] eqn:Hread.
  - destruct (supervise_undecodable fs Popen command expected_file_size
                output_directory s process msg Hopen Hread)
      as (s1 & reported & Hsup & _).
    assert (Hout : outcome = (Raise (Exception msg), s1)).
    { unfold outcome, rip_dvd. fold command. unfold bind at 1.
      now rewrite Hsup. }
    subst supervised. rewrite Hsup, Hout. cbn [fst snd].
    split; [intros returncode H; discriminate H|].
    split; [intros H; discriminate H|].
    split; [reflexivity|].
    intros H; discriminate H.
  - destruct (supervise_completes fs Popen command expected_file_size
                output_directory s process Hopen Hread)
      as (s1 & reported & Hsup & Hbar & _).
    assert (Hout : outcome =
      if negb (exit_code process =? 0)%Z
      then (Raise (Exception rip_error), s1)
      else locate_and_rename fs output_file_name output_directory s1).
    { unfold outcome, rip_dvd. fold command. unfold bind at 1. rewrite Hsup.
      destruct (negb (exit_code process =? 0)%Z); reflexivity. }
    subst supervised. rewrite Hsup. cbn [fst snd].
    split.
    { intros returncode H. injection H as <-.
      split; [reflexivity | exists reported; exact Hbar]. }
    split; [reflexivity|].
    split.
    + rewrite Hout. destruct (negb (exit_code process =? 0)%Z);
        [reflexivity | apply locate_and_rename_keeps_bar].
    + intros _ Hcode. rewrite Hout.
      destruct (Z.eqb_spec (exit_code process) 0); [contradiction|].
      cbn [negb snd]. split; [reflexivity | exists reported; exact Hbar].
Qed.

End RipDvdFacts.


(** The file renamed in that run is the newer one. *)
Lemma rip_dvd_two_files_example :
  renamed (snd (rip_dvd two_files_fs (launch 0) "1" "movie" "temp/D"
                  5000 "D" idle_state))
  = [(newer_file, "temp/D/movie.mkv")].
Proof. vm_compute. reflexivity. Qed.


Lemma rip_dvd_forces_bar_before_exit_check_witness :
  rip_dvd two_files_fs (launch 1) "1" "movie" "temp/D" 5000 "D" idle_state
  = (Raise (Exception rip_error),
     snd (supervise two_files_fs (launch 1)
            (makemkv_mkv_command "D" "1" "temp/D") 5000 "temp/D"
            idle_state)).
Proof.
  apply (proj2 (proj2 (proj2
    (rip_dvd_forces_bar_before_exit_check two_files_fs (launch 1)
       "1" "movie" "temp/D" 5000 "D" idle_state
       {| polls_before_exit := 2; stdout_failure := None; exit_code := 1 |}
       eq_refl)))).
  - reflexivity.
  - discriminate.
Defined.

(** In that failed run the bar ends closed at the expected size. *)
Lemma rip_dvd_failed_bar_example :
  progress_bar
    (snd (rip_dvd two_files_fs (launch 1) "1" "movie" "temp/D" 5000 "D"
            idle_state))
  = {| tqdm_total := 5000; tqdm_n := 5000;
       refreshed := [300%Z; 800%Z; 5000%Z]; closed := true |}.
Proof. vm_compute. reflexivity. Qed.

(* ================================================================== *)
(** * Further properties of the title selector *)

Lemma first_max_In (l : list (string * Z)) (r : string * Z) :
  first_max l r -> In r l.
Proof.
  intros (pre & post & -> & _). apply in_or_app. right. now left.
Qed.

(** A title is returned only for a query that exited with code 0 and
    printed something. *)
Lemma get_largest_title_returned
      (subprocess_run : list string -> result CompletedProcess)
      (drive_letter : string) (index : index_value) (size : Z) :
  get_largest_title subprocess_run drive_letter = Return (index, size) ->
  exists out,
    subprocess_run (makemkv_info_command drive_letter)
      = Return {| returncode := 0; stdout := out |} /\
    is_empty out = false.
Proof.
  intros Hget. unfold get_largest_title in Hget.
  destruct (subprocess_run (makemkv_info_command drive_letter))
    as [[rc out] | e]; [| destruct e; discriminate Hget].
  cbn [returncode stdout] in Hget.
  destruct (Z.eqb_spec rc 0) as [-> | _]; [| discriminate Hget].
  destruct (is_empty out) eqn:Hout; [discriminate Hget|].
  exists out. split; [reflexivity | exact Hout].
Qed.

(** X1: a title that [get_largest_title] returns comes from a query that
    exited with code 0; it is the identifier and size of the first
    "file size" record of maximal size in the output, and its size is
    positive. *)
Theorem get_largest_title_sound
        (subprocess_run : list string -> result CompletedProcess)
        (drive_letter : string) (index : index_value) (size : Z) :
  get_largest_title subprocess_run drive_letter = Return (index, size) ->
  exists out id,
    subprocess_run (makemkv_info_command drive_letter)
      = Return {| returncode := 0; stdout := out |} /\
    index = StrIndex id /\
    first_max (size_records out) (id, size) /\
    (0 < size)%Z.
Proof.
  intros Hget.
  destruct (get_largest_title_returned _ _ _ _ Hget) as (out & Hrun & Hout).
  rewrite (get_largest_title_completed _ _ _ Hrun Hout) in Hget.
  cbv zeta in Hget.
  destruct (select_spec (size_records out) (IntIndex (-1)) 0%Z)
    as [[Heq _] | (id & m & Heq & Hlt & Hfm)];
    rewrite Heq in Hget; simpl in Hget; [discriminate Hget|].
  injection Hget as <- <-.
  exists out, id. auto.
Qed.

Lemma get_largest_title_sound_witness :
  exists out id,
    completes_with scenario_output (makemkv_info_command "D")
      = Return {| returncode := 0; stdout := out |} /\
    StrIndex "1" = StrIndex id /\
    first_max (size_records out) (id, 1200000000%Z) /\
    (0 < 1200000000)%Z.
Proof.
  apply (get_largest_title_sound (completes_with scenario_output) "D").
  vm_compute. reflexivity.
Defined.

Lemma split_parts_no_sep (sep : ascii) (s : string) :
  forall p, In p (split sep s) -> has_char sep p = false.
Proof.
  induction s as [|c s IH]; intros p Hin; simpl in Hin.
  - destruct Hin as [<- | []]. reflexivity.
  - destruct (Ascii.eqb c sep) eqn:Hc.
    + destruct Hin as [<- | Hin]; [reflexivity | now apply IH].
    + destruct (split sep s) as [|l ls].
      * destruct Hin as [<- | []]. simpl. now rewrite Hc.
      * destruct Hin as [<- | Hin].
        -- simpl. rewrite Hc. simpl. apply IH. now left.
        -- apply IH. now right.
Qed.

Lemma replace_from_no_char (c : ascii) (old : string) (s : string) :
  forall skip,
    has_char c s = false ->
    has_char c (replace_from skip old EmptyString s) = false.
Proof.
  induction s as [|x s IH]; intros skip Hs; [destruct skip; reflexivity|].
  simpl in Hs. apply orb_false_iff in Hs. destruct Hs as [Hx Hs].
  destruct skip as [|k]; cbn [replace_from]; [|now apply IH].
  destruct (String.prefix old (String x s)).
  - cbn [append]. now apply IH.
  - cbn [has_char]. rewrite Hx. simpl. now apply IH.
Qed.

Lemma lstrip_by_no_char (c : ascii) (p : ascii -> bool) (s : string) :
  has_char c s = false -> has_char c (lstrip_by p s) = false.
Proof.
  induction s as [|x s IH]; intros Hs; simpl; [reflexivity|].
  destruct (p x); [|exact Hs].
  simpl in Hs. apply orb_false_iff in Hs. now apply IH.
Qed.

Lemma rstrip_by_no_char (c : ascii) (p : ascii -> bool) (s : string) :
  has_char c s = false -> has_char c (rstrip_by p s) = false.
Proof.
  induction s as [|x s IH]; intros Hs; simpl; [reflexivity|].
  simpl in Hs. apply orb_false_iff in Hs. destruct Hs as [Hx Hs].
  destruct (p x && is_empty (rstrip_by p s)); simpl; [reflexivity|].
  rewrite Hx. simpl. now apply IH.
Qed.

Lemma rstrip_by_idem (p : ascii -> bool) (s : string) :
  rstrip_by p (rstrip_by p s) = rstrip_by p s.
Proof.
  induction s as [|x s IH]; simpl; [reflexivity|].
  destruct (p x && is_empty (rstrip_by p s)) eqn:Hc; simpl; [reflexivity|].
  rewrite IH, Hc. reflexivity.
Qed.

Lemma lstrip_by_head (p : ascii -> bool) (s : string) :
  lstrip_by p s = EmptyString \/
  exists x t, lstrip_by p s = String x t /\ p x = false.
Proof.
  induction s as [|x s IH]; simpl; [now left|].
  destruct (p x) eqn:Hx; [exact IH|]. right. now exists x, s.
Qed.

(** Stripping a stripped string changes nothing. *)
Lemma strip_by_idem (p : ascii -> bool) (s : string) :
  strip_by p (strip_by p s) = strip_by p s.
Proof.
  unfold strip_by.
  destruct (lstrip_by_head p s) as [-> | (x & t & -> & Hx)];
    [reflexivity|].
  cbn [rstrip_by]. rewrite Hx. cbn [andb lstrip_by]. rewrite Hx.
  cbn [rstrip_by]. rewrite Hx. cbn [andb]. now rewrite rstrip_by_idem.
Qed.

(** X2: the identifier that [get_largest_title] returns holds no comma and
    has no white space at either end. *)
Theorem get_largest_title_identifier_clean
        (subprocess_run : list string -> result CompletedProcess)
        (drive_letter : string) (id : string) (size : Z) :
  get_largest_title subprocess_run drive_letter
    = Return (StrIndex id, size) ->
  has_char "," id = false /\ strip id = id.
Proof.
  intros Hget.
  destruct (get_largest_title_returned _ _ _ _ Hget) as (out & Hrun & Hout).
  rewrite (get_largest_title_completed _ _ _ Hrun Hout) in Hget.
  cbv zeta in Hget.
  destruct (select_spec (size_records out) (IntIndex (-1)) 0%Z)
    as [[Heq _] | (id' & m & Heq & _ & Hfm)];
    rewrite Heq in Hget; simpl in Hget; [discriminate Hget|].
  injection Hget as -> ->.
  apply first_max_In in Hfm. unfold size_records in Hfm.
  apply in_map_iff in Hfm. destruct Hfm as (line & Hrec & _).
  unfold record_of in Hrec. injection Hrec as <- _.
  unfold title_index_str, strip. split.
  - unfold strip_by.
    apply rstrip_by_no_char, lstrip_by_no_char, replace_from_no_char.
    destruct (split "," line) as [|p ps] eqn:Hsplit; [reflexivity|].
    simpl. apply (split_parts_no_sep "," line). rewrite Hsplit. now left.
  - apply strip_by_idem.
Qed.

Lemma get_largest_title_identifier_clean_witness :
  has_char "," "1" = false /\ strip "1" = "1".
Proof.
  apply (get_largest_title_identifier_clean
           (completes_with scenario_output) "D" "1" 1200000000%Z).
  vm_compute. reflexivity.
Defined.

(* ================================================================== *)
(** * Further properties of the retrying executor *)

Section ExecutorMore.

Context {Env : Type}.
Variable requests_post : string -> string -> Env -> option string * Env.

(** X3: [error_handler] never returns and raises nothing but
    [SystemExit(1)], whether or not the notification can be delivered: it
    prints the message, posts it once under the title "Movie ERROR", and a
    failed post only adds one line to the console. *)
Theorem error_handler_always_exits {A : Type} (message : string)
        (w : World Env) :
  let outcome := error_handler requests_post (A := A) message w in
  fst outcome = Raise (SystemExit 1) /\
  notifications (trace (snd outcome))
    = (notifications (trace w) ++ [Posted "Movie ERROR" message])%list /\
  exists tail,
    trace (snd outcome)
      = (trace w ++ Printed message :: Posted "Movie ERROR" message
                 :: tail)%list /\
    match fst (requests_post "Movie ERROR" message (env w)) with
    | None => tail = []
    | Some err =>
        tail = [Printed ("Failed to send error notification: " ++ err)]
    end.
Proof.
  cbv zeta. rewrite error_handler_exits. cbn [fst snd trace].
  split; [reflexivity|]. split.
  - rewrite notifications_app.
    now rewrite (proj1 (escalation_counts requests_post _ _)).
  - unfold escalation.
    destruct (fst (requests_post "Movie ERROR" message (env w)));
      eexists; split; reflexivity.
Qed.

Context {A : Type}.
Variable function : Operation Env A.

Lemma run_loop_exit (i : nat) (range : list nat) (w : World Env)
      (code : Z) (e1 : Env) :
  call function (env w) = (Raise (SystemExit code), e1) ->
  run_loop requests_post function (i :: range) w =
  (Raise (SystemExit code),
   {| env := e1; trace := (trace w ++ [Invoked (name function)])%list |}).
Proof.
  intros Hcall. simpl. unfold invoke, bind, emit. simpl.
  now rewrite Hcall.
Qed.

(** X4: every call of [run] ends in one of three ways: it returns the
    value of the operation after 1 to [ATTEMPTS] calls; or it passes on a
    [SystemExit] that the operation raised, after 1 to [ATTEMPTS] calls;
    or it escalates after exactly [ATTEMPTS] calls and raises
    [SystemExit(1)].  It never returns [None], never lets an [Exception]
    out, and prints or posts nothing unless it escalates. *)
Theorem run_outcome (w : World Env) :
  let outcome := run requests_post function w in
  (exists v k,
      fst outcome = Return (Some v) /\
      (1 <= k <= ATTEMPTS)%nat /\
      trace (snd outcome)
        = (trace w ++ repeat (Invoked (name function)) k)%list)
  \/
  (exists code k,
      fst outcome = Raise (SystemExit code) /\
      (1 <= k <= ATTEMPTS)%nat /\
      trace (snd outcome)
        = (trace w ++ repeat (Invoked (name function)) k)%list)
  \/
  (exists last_error e,
      fst outcome = Raise (SystemExit 1) /\
      trace (snd outcome)
        = (trace w ++ repeat (Invoked (name function)) ATTEMPTS
                   ++ escalation requests_post
                        (failure_report (name function) last_error)
                        e)%list).
Proof.
  cbv zeta. unfold run. change (seq 1 ATTEMPTS) with [1; 2; 3].
  destruct (call function (env w)) as [[v | [m1 | c]] e1] eqn:H1.
  - left. exists v, 1. rewrite (run_loop_return _ _ _ _ _ _ _ H1).
    unfold ATTEMPTS. repeat split; lia.
  - rewrite (run_loop_raise _ _ _ _ _ _ _ H1). cbv zeta.
    change (1 <? ATTEMPTS)%nat with true. cbv iota.
    set (w1 := {| env := e1;
                  trace := (trace w ++ [Invoked (name function)])%list |}).
    destruct (call function (env w1)) as [[v | [m2 | c]] e2] eqn:H2.
    + left. exists v, 2. rewrite (run_loop_return _ _ _ _ _ _ _ H2).
      unfold ATTEMPTS, w1. cbn [fst snd trace]. rewrite <- app_assoc.
      repeat split; lia.
    + rewrite (run_loop_raise _ _ _ _ _ _ _ H2). cbv zeta.
      change (2 <? ATTEMPTS)%nat with true. cbv iota.
      set (w2 := {| env := e2;
                    trace := (trace w1 ++ [Invoked (name function)])%list |}).
      destruct (call function (env w2)) as [[v | [m3 | c]] e3] eqn:H3.
      * left. exists v, 3. rewrite (run_loop_return _ _ _ _ _ _ _ H3).
        unfold ATTEMPTS, w2, w1. cbn [fst snd trace].
        rewrite <- !app_assoc. repeat split; lia.
      * right. right. exists m3, e3.
        rewrite (run_loop_raise _ _ _ _ _ _ _ H3). cbv zeta.
        change (3 <? ATTEMPTS)%nat with false. cbv iota.
        rewrite error_handler_exits. unfold w2, w1.
        cbn [fst snd trace env]. rewrite <- !app_assoc.
        split; reflexivity.
      * right. left. exists c, 3.
        rewrite (run_loop_exit _ _ _ _ _ H3).
        unfold ATTEMPTS, w2, w1. cbn [fst snd trace].
        rewrite <- !app_assoc. repeat split; lia.
    + right. left. exists c, 2. rewrite (run_loop_exit _ _ _ _ _ H2).
      unfold ATTEMPTS, w1. cbn [fst snd trace]. rewrite <- app_assoc.
      repeat split; lia.
  - right. left. exists c, 1. rewrite (run_loop_exit _ _ _ _ _ H1).
    unfold ATTEMPTS. repeat split; lia.
Qed.

(** X5: a [SystemExit] raised by the operation is not retried and not
    reported: after [k < ATTEMPTS] failed calls and one call that raises
    [SystemExit(code)], [run] raises that [SystemExit] after [k + 1]
    calls, with nothing printed or posted. *)
Theorem run_passes_system_exit
        (w : World Env) (msgs : list string) (e1 e2 : Env) (code : Z) :
  (List.length msgs < ATTEMPTS)%nat ->
  raises_each function (env w) msgs e1 ->
  call function e1 = (Raise (SystemExit code), e2) ->
  run requests_post function w =
    (Raise (SystemExit code),
     {| env := e2;
        trace := (trace w ++ repeat (Invoked (name function))
                                    (S (List.length msgs)))%list |}).
Proof.
  intros Hk Hraises Hexit. unfold run.
  rewrite (run_loop_retries requests_post function msgs 1 ATTEMPTS w e1
             Hraises); [|lia|lia].
  destruct (ATTEMPTS - List.length msgs)%nat as [|m] eqn:Hm; [lia|].
  cbn [seq].
  rewrite (run_loop_exit _ _ _ code e2); [|exact Hexit].
  simpl. rewrite <- app_assoc.
  now rewrite <- (repeat_cons (List.length msgs)).
Qed.

(** X6: the top-level block passes on a normal return and a [SystemExit]
    of [main] unchanged; an [Exception] that escapes [main] is answered
    with one "Movie ERROR" notification saying "Unexpected error" and
    [SystemExit(1)].  So no [Exception] leaves the program, and the exit
    status is 0 only when [main] returned or exited with 0. *)
Theorem dunder_main_outcome (main : M (World Env) A) (w : World Env) :
  let outcome := dunder_main requests_post main w in
  (forall a w1, main w = (Return a, w1) -> outcome = (Return a, w1)) /\
  (forall code w1,
      main w = (Raise (SystemExit code), w1) ->
      outcome = (Raise (SystemExit code), w1)) /\
  (forall msg w1,
      main w = (Raise (Exception msg), w1) ->
      fst outcome = Raise (SystemExit 1) /\
      notifications (trace (snd outcome))
        = (notifications (trace w1)
           ++ [Posted "Movie ERROR" "Unexpected error"])%list) /\
  (forall msg, fst outcome <> Raise (Exception msg)) /\
  (exit_status (fst outcome) = 0%Z ->
   (exists a, fst (main w) = Return a) \/
   fst (main w) = Raise (SystemExit 0)).
Proof.
  intros outcome.
  destruct (main w) as [[a | [msg | code]] w1] eqn:Hmain.
  - assert (Hout : outcome = (Return a, w1)).
    { unfold outcome, dunder_main, try_except at 1. now rewrite Hmain. }
    rewrite Hout. cbn [fst snd].
    repeat split; try discriminate.
    + intros a' w1' H. exact H.
    + intros _. left. now exists a.
  - assert (Hout : outcome =
      (Raise (SystemExit 1),
       {| env := snd (requests_post "Movie ERROR" "Unexpected error" (env w1));
          trace := (trace w1 ++ Posted "Movie ERROR" "Unexpected error"
                    :: match fst (requests_post "Movie ERROR"
                                    "Unexpected error" (env w1)) with
                       | None => []
                       | Some err =>
                           [Printed ("Failed to send error notification: "
                                     ++ err)]
                       end)%list |})).
    { unfold outcome, dunder_main, try_except at 1. rewrite Hmain.
      unfold bind, try_except, send_message, print, emit, sys_exit, raise,
        bind. simpl.
      destruct (requests_post "Movie ERROR" "Unexpected error" (env w1))
        as [[err|] e']; simpl; rewrite <- ?app_assoc; reflexivity. }
    rewrite Hout. cbn [fst snd trace].
    repeat split; try discriminate.
    match goal with
    | H : (Raise _, w1) = (Raise _, _) |- _ => injection H as _ <-
    end.
    rewrite notifications_app.
    destruct (fst (requests_post "Movie ERROR" "Unexpected error" (env w1)));
      reflexivity.
  - assert (Hout : outcome = (Raise (SystemExit code), w1)).
    { unfold outcome, dunder_main, try_except at 1. now rewrite Hmain. }
    rewrite Hout. cbn [fst snd].
    repeat split; try discriminate.
    + intros c' w1' H. exact H.
    + simpl. intros ->. now right.
Qed.

End ExecutorMore.

Lemma run_passes_system_exit_witness :
  run post_delivered (flaky_exit 1) fresh_world =
    (Raise (SystemExit 7),
     {| env := 2; trace := [Invoked "rip_dvd"; Invoked "rip_dvd"] |}).
Proof.
  apply (run_passes_system_exit post_delivered (flaky_exit 1) fresh_world
           [rip_error] 1 2 7).
  - simpl. unfold ATTEMPTS. lia.
  - simpl. exists 1. split; reflexivity.
  - reflexivity.
Defined.

(* ================================================================== *)
(** * Properties of the stages of [main] *)

Lemma invocations_repeat_other (n m : string) (k : nat) :
  n <> m -> invocations n (repeat (Invoked m) k) = 0.
Proof.
  intros Hne. unfold invocations.
  induction k as [|k IH]; simpl; [reflexivity|].
  destruct (String.eqb_spec m n) as [-> | _]; [now contradiction Hne|].
  exact IH.
Qed.

Lemma invocations_warning (n text : string) (outcome : option string) :
  invocations n (warning text outcome) = 0.
Proof. destruct outcome; reflexivity. Qed.

Lemma notifications_warning (text : string) (outcome : option string) :
  notifications (warning text outcome) = [].
Proof. destruct outcome; reflexivity. Qed.

Lemma invocations_posted (n a b : string) (l : list event) :
  invocations n (Posted a b :: l) = invocations n l.
Proof. reflexivity. Qed.

Lemma invocations_printed (n a : string) (l : list event) :
  invocations n (Printed a :: l) = invocations n l.
Proof. reflexivity. Qed.

Lemma invocations_invoked (n m : string) (l : list event) :
  invocations n (Invoked m :: l)
  = ((if String.eqb m n then 1 else 0) + invocations n l)%nat.
Proof. unfold invocations. simpl. destruct (String.eqb m n); reflexivity. Qed.

Lemma notifications_posted (a b : string) (l : list event) :
  notifications (Posted a b :: l) = Posted a b :: notifications l.
Proof. reflexivity. Qed.

Lemma notifications_printed (a : string) (l : list event) :
  notifications (Printed a :: l) = notifications l.
Proof. reflexivity. Qed.

Lemma send_message_guarded {Env : Type}
      (requests_post : string -> string -> Env -> option string * Env)
      (title message text : string) (w : World Env) :
  try_except (send_message requests_post title message)
             (fun e => print (text ++ e)) w
  = (Return tt,
     {| env := snd (requests_post title message (env w));
        trace := (trace w ++ Posted title message
                  :: warning text
                       (fst (requests_post title message (env w))))%list |}).
Proof.
  unfold try_except, send_message, bind, emit, print, emit. simpl.
  destruct (requests_post title message (env w)) as [[err|] e']; simpl;
    rewrite <- ?app_assoc; reflexivity.
Qed.

(** An [Exception] that escapes [main] is answered by the top level with
    one "Unexpected error" notification and [SystemExit(1)]. *)
Lemma dunder_main_unexpected {Env A : Type}
      (requests_post : string -> string -> Env -> option string * Env)
      (main : M (World Env) A) (w w1 : World Env) (msg : string) :
  main w = (Raise (Exception msg), w1) ->
  dunder_main requests_post main w
  = (Raise (SystemExit 1),
     {| env := snd (requests_post "Movie ERROR" "Unexpected error" (env w1));
        trace := (trace w1 ++ Posted "Movie ERROR" "Unexpected error"
                  :: warning "Failed to send error notification: "
                       (fst (requests_post "Movie ERROR" "Unexpected error"
                               (env w1))))%list |}).
Proof.
  intros Hmain. unfold dunder_main, try_except at 1. rewrite Hmain.
  unfold bind.
  rewrite (send_message_guarded requests_post "Movie ERROR"
             "Unexpected error" "Failed to send error notification: " w1).
  reflexivity.
Qed.

Section MainStagesFacts.

Context {Env : Type}.
Variable requests_post : string -> string -> Env -> option string * Env.
Variable get_largest_title_call :
  string -> Env -> result (index_value * Z) * Env.
Variable rip_dvd_call :
  index_value -> string -> string -> Z -> string ->
  Env -> result string * Env.
Variable encode_to_mp4_call :
  string -> string -> string -> Env -> result string * Env.
Variable size_gb_text : Z -> string.
Variable duration_text : Env -> string.
Variables output_file_name drive_letter output_directory : string.

(** The stages from the call of [rip_dvd] on. *)
Lemma main_stages_selected
      (w : World Env) (msgs1 : list string) (e1 e2 : Env)
      (title : index_value * Z) :
  (List.length msgs1 < ATTEMPTS)%nat ->
  raises_each (select_op get_largest_title_call drive_letter)
              (env w) msgs1 e1 ->
  get_largest_title_call drive_letter e1 = (Return title, e2) ->
  size_gb_overflows (snd title) = false ->
  main_stages Env requests_post get_largest_title_call rip_dvd_call
    encode_to_mp4_call size_gb_text duration_text
    output_file_name drive_letter output_directory w =
  (ripped <- run requests_post
               (rip_op rip_dvd_call title output_file_name output_directory
                       drive_letter) ;;
   new_file_path <- unpack ripped ;;
   try_except
     (fun w =>
        send_message requests_post "Movies"
          (ripped_message output_file_name (duration_text (env w))) w)
     (fun e => print (rip_warning ++ e)) ;;
   encoded <- run requests_post
                (encode_op encode_to_mp4_call new_file_path output_file_name
                           output_directory) ;;
   mp4_output_file <- unpack encoded ;;
   emit (converted_line mp4_output_file) ;;
   try_except
     (send_message requests_post "Movies" (encoded_message output_file_name))
     (fun e => print (encode_warning ++ e)) ;;
   ret mp4_output_file)
    {| env := e2;
       trace := (trace w ++ selecting_lines
                 ++ repeat (Invoked "get_largest_title")
                           (S (List.length msgs1))
                 ++ selected_lines size_gb_text title)%list |}.
Proof.
  intros Hk Hraises Hret Hsize. unfold main_stages.
  set (w1 := {| env := env w;
                trace := (trace w ++ selecting_lines)%list |}).
  rewrite (bind_return _ _ w w1 tt) by reflexivity.
  rewrite (bind_return _ _ w1 _ (Some title)
             (run_after_failures requests_post
                (select_op get_largest_title_call drive_letter)
                w1 msgs1 e1 e2 title Hk Hraises Hret)).
  rewrite (bind_return _ _ _ _ title) by reflexivity.
  cbv zeta.
  rewrite (bind_return _ _ _ _ (size_gb_text (snd title)))
    by (unfold size_gb; now rewrite Hsize).
  rewrite (bind_return _ _ _ _ tt) by reflexivity.
  rewrite (bind_return _ _ _
             {| env := e2;
                trace := (trace w ++ selecting_lines
                          ++ repeat (Invoked "get_largest_title")
                                    (S (List.length msgs1))
                          ++ selected_lines size_gb_text title)%list |} tt).
  - reflexivity.
  - unfold print, emit, w1, selected_lines. cbn [env trace name select_op].
    rewrite <- !app_assoc. reflexivity.
Qed.

(** The stages when the size of the selected title, in bytes, divided by
    [1073741824] is beyond the floats. *)
Lemma selection_overflows
      (w : World Env) (msgs1 : list string) (e1 e2 : Env)
      (title : index_value * Z) :
  (List.length msgs1 < ATTEMPTS)%nat ->
  raises_each (select_op get_largest_title_call drive_letter)
              (env w) msgs1 e1 ->
  get_largest_title_call drive_letter e1 = (Return title, e2) ->
  size_gb_overflows (snd title) = true ->
  main_stages Env requests_post get_largest_title_call rip_dvd_call
    encode_to_mp4_call size_gb_text duration_text
    output_file_name drive_letter output_directory w =
  (Raise (Exception overflow_error),
   {| env := e2;
      trace := (trace w ++ selecting_lines
                ++ repeat (Invoked "get_largest_title")
                          (S (List.length msgs1)))%list |}).
Proof.
  intros Hk Hraises Hret Hsize. unfold main_stages.
  set (w1 := {| env := env w;
                trace := (trace w ++ selecting_lines)%list |}).
  rewrite (bind_return _ _ w w1 tt) by reflexivity.
  rewrite (bind_return _ _ w1 _ (Some title)
             (run_after_failures requests_post
                (select_op get_largest_title_call drive_letter)
                w1 msgs1 e1 e2 title Hk Hraises Hret)).
  rewrite (bind_return _ _ _ _ title) by reflexivity.
  cbv zeta.
  erewrite bind_raise; [| unfold size_gb; rewrite Hsize; reflexivity].
  unfold w1. cbn [env trace name select_op].
  rewrite <- !app_assoc. reflexivity.
Qed.

(** X26: a selected title whose size is [2^1054 - 2^1000] bytes or more
    ends the program before anything is ripped: the division of the size
    by [1073741824] raises [OverflowError] in [main], outside [run], so
    nothing is retried; the top level answers with one "Unexpected error"
    notification and exit status 1, and neither [rip_dvd] nor
    [encode_to_mp4] is called. *)
Theorem main_stages_size_overflow
        (w : World Env) (msgs1 : list string) (e1 e2 : Env)
        (title : index_value * Z) :
  (List.length msgs1 < ATTEMPTS)%nat ->
  raises_each (select_op get_largest_title_call drive_letter)
              (env w) msgs1 e1 ->
  get_largest_title_call drive_letter e1 = (Return title, e2) ->
  (float_overflow_bound <= Z.abs (snd title))%Z ->
  let stages :=
    main_stages Env requests_post get_largest_title_call rip_dvd_call
      encode_to_mp4_call size_gb_text duration_text
      output_file_name drive_letter output_directory in
  let outcome := dunder_main requests_post stages w in
  fst (stages w) = Raise (Exception overflow_error) /\
  invocations "get_largest_title" (trace (snd (stages w)))
    = (invocations "get_largest_title" (trace w)
       + S (List.length msgs1))%nat /\
  fst outcome = Raise (SystemExit 1) /\
  exit_status (fst outcome) = 1%Z /\
  notifications (trace (snd outcome))
    = (notifications (trace w)
       ++ [Posted "Movie ERROR" "Unexpected error"])%list /\
  invocations "rip_dvd" (trace (snd outcome))
    = invocations "rip_dvd" (trace w) /\
  invocations "encode_to_mp4" (trace (snd outcome))
    = invocations "encode_to_mp4" (trace w).
Proof.
  intros Hk Hraises Hret Hbound stages outcome.
  assert (Hsize : size_gb_overflows (snd title) = true)
    by (unfold size_gb_overflows; now apply Z.leb_le).
  pose proof (selection_overflows w msgs1 e1 e2 title Hk Hraises Hret Hsize)
    as Hstages.
  fold stages in Hstages.
  unfold outcome.
  rewrite (dunder_main_unexpected requests_post stages w _ _ Hstages).
  rewrite Hstages. cbn [fst snd env trace exit_status].
  unfold selecting_lines.
  split; [reflexivity|]. split.
  { repeat (rewrite ?invocations_app, ?invocations_printed).
    rewrite invocations_repeat. change (invocations _ []) with 0%nat. lia. }
  split; [reflexivity|]. split; [reflexivity|].
  repeat split.
  - repeat (rewrite ?notifications_app, ?notifications_posted,
              ?notifications_printed, ?notifications_repeat_invoked,
              ?notifications_warning).
    change (notifications []) with (@nil event).
    now rewrite !app_nil_r.
  - repeat (rewrite ?invocations_app, ?invocations_posted,
              ?invocations_printed, ?invocations_warning).
    rewrite !invocations_repeat_other by discriminate.
    change (invocations _ []) with 0%nat. lia.
  - repeat (rewrite ?invocations_app, ?invocations_posted,
              ?invocations_printed, ?invocations_warning).
    rewrite !invocations_repeat_other by discriminate.
    change (invocations _ []) with 0%nat. lia.
Qed.

(** The stages when the selection uses up its attempts. *)
Lemma selection_exhausted
        (w : World Env) (msgs1 : list string) (e1 e2 : Env)
        (last_error : string) :
  S (List.length msgs1) = ATTEMPTS ->
  raises_each (select_op get_largest_title_call drive_letter)
              (env w) msgs1 e1 ->
  get_largest_title_call drive_letter e1
    = (Raise (Exception last_error), e2) ->
  main_stages Env requests_post get_largest_title_call rip_dvd_call
    encode_to_mp4_call size_gb_text duration_text
    output_file_name drive_letter output_directory w =
  (Raise (SystemExit 1),
   {| env := snd (requests_post "Movie ERROR"
                    (failure_report "get_largest_title" last_error) e2);
      trace := (trace w ++ selecting_lines
                ++ repeat (Invoked "get_largest_title") ATTEMPTS
                ++ escalation requests_post
                     (failure_report "get_largest_title" last_error)
                     e2)%list |}).
Proof.
  intros Hk Hraises Hlast. unfold main_stages.
  set (w1 := {| env := env w;
                trace := (trace w ++ selecting_lines)%list |}).
  rewrite (bind_return _ _ w w1 tt) by reflexivity.
  erewrite bind_raise;
    [| exact (run_exhausted requests_post
                (select_op get_largest_title_call drive_letter)
                w1 msgs1 e1 e2 last_error Hk Hraises Hlast)].
  unfold w1. cbn [env trace name select_op].
  rewrite <- !app_assoc. reflexivity.
Qed.

(** X7: when the title selection raises on all [ATTEMPTS] calls, the
    stages end in [SystemExit(1)] after one "Movie ERROR" notification
    naming [get_largest_title]; neither [rip_dvd] nor [encode_to_mp4] is
    called. *)
Theorem main_stages_selection_exhausted
        (w : World Env) (msgs1 : list string) (e1 e2 : Env)
        (last_error : string) :
  S (List.length msgs1) = ATTEMPTS ->
  raises_each (select_op get_largest_title_call drive_letter)
              (env w) msgs1 e1 ->
  get_largest_title_call drive_letter e1
    = (Raise (Exception last_error), e2) ->
  let report := failure_report "get_largest_title" last_error in
  let outcome :=
    main_stages Env requests_post get_largest_title_call rip_dvd_call
      encode_to_mp4_call size_gb_text duration_text
      output_file_name drive_letter output_directory w in
  outcome =
    (Raise (SystemExit 1),
     {| env := snd (requests_post "Movie ERROR" report e2);
        trace := (trace w ++ selecting_lines
                  ++ repeat (Invoked "get_largest_title") ATTEMPTS
                  ++ escalation requests_post report e2)%list |}) /\
  invocations "rip_dvd" (trace (snd outcome))
    = invocations "rip_dvd" (trace w) /\
  invocations "encode_to_mp4" (trace (snd outcome))
    = invocations "encode_to_mp4" (trace w) /\
  notifications (trace (snd outcome))
    = (notifications (trace w) ++ [Posted "Movie ERROR" report])%list.
Proof.
  intros Hk Hraises Hlast report outcome.
  assert (Hout : outcome =
    (Raise (SystemExit 1),
     {| env := snd (requests_post "Movie ERROR" report e2);
        trace := (trace w ++ selecting_lines
                  ++ repeat (Invoked "get_largest_title") ATTEMPTS
                  ++ escalation requests_post report e2)%list |}))
    by exact (selection_exhausted w msgs1 e1 e2 last_error Hk Hraises Hlast).
  rewrite Hout. cbn [snd trace]. split; [reflexivity|].
  destruct (escalation_counts requests_post report e2) as [Hnote Hinv].
  repeat split.
  - rewrite !invocations_app, Hinv.
    rewrite invocations_repeat_other by discriminate.
    unfold invocations at 2. simpl. lia.
  - rewrite !invocations_app, Hinv.
    rewrite invocations_repeat_other by discriminate.
    unfold invocations at 2. simpl. lia.
  - rewrite !notifications_app, Hnote, notifications_repeat_invoked.
    reflexivity.
Qed.

(** X8: when the selection has returned a title whose size in GB is a
    float (a size below [2^1054 - 2^1000] bytes) and [rip_dvd] then raises
    on all [ATTEMPTS] calls, the stages end in [SystemExit(1)] after one
    "Movie ERROR" notification naming [rip_dvd]; the selection is not
    repeated and [encode_to_mp4] is never called. *)
Theorem main_stages_rip_exhausted_after_retries
        (w : World Env) (msgs1 msgs2 : list string) (e1 e2 e3 e4 : Env)
        (title : index_value * Z) (last_error : string) :
  (List.length msgs1 < ATTEMPTS)%nat ->
  raises_each (select_op get_largest_title_call drive_letter)
              (env w) msgs1 e1 ->
  get_largest_title_call drive_letter e1 = (Return title, e2) ->
  size_gb_overflows (snd title) = false ->
  S (List.length msgs2) = ATTEMPTS ->
  raises_each (rip_op rip_dvd_call title output_file_name output_directory
                      drive_letter) e2 msgs2 e3 ->
  rip_dvd_call (fst title) output_file_name output_directory (snd title)
               drive_letter e3
    = (Raise (Exception last_error), e4) ->
  let report := failure_report "rip_dvd" last_error in
  let outcome :=
    main_stages Env requests_post get_largest_title_call rip_dvd_call
      encode_to_mp4_call size_gb_text duration_text
      output_file_name drive_letter output_directory w in
  outcome =
    (Raise (SystemExit 1),
     {| env := snd (requests_post "Movie ERROR" report e4);
        trace := (trace w ++ selecting_lines
                  ++ repeat (Invoked "get_largest_title")
                            (S (List.length msgs1))
                  ++ selected_lines size_gb_text title
                  ++ repeat (Invoked "rip_dvd") ATTEMPTS
                  ++ escalation requests_post report e4)%list |}) /\
  invocations "encode_to_mp4" (trace (snd outcome))
    = invocations "encode_to_mp4" (trace w) /\
  notifications (trace (snd outcome))
    = (notifications (trace w) ++ [Posted "Movie ERROR" report])%list.
Proof.
  intros Hk1 Hsel Htitle Hsize Hk2 Hraises Hlast report outcome.
  assert (Hout : outcome =
    (Raise (SystemExit 1),
     {| env := snd (requests_post "Movie ERROR" report e4);
        trace := (trace w ++ selecting_lines
                  ++ repeat (Invoked "get_largest_title")
                            (S (List.length msgs1))
                  ++ selected_lines size_gb_text title
                  ++ repeat (Invoked "rip_dvd") ATTEMPTS
                  ++ escalation requests_post report e4)%list |})).
  { unfold outcome.
    rewrite (main_stages_selected w msgs1 e1 e2 title Hk1 Hsel Htitle Hsize).
    set (w3 := {| env := e2;
                  trace := (trace w ++ selecting_lines
                            ++ repeat (Invoked "get_largest_title")
                                      (S (List.length msgs1))
                            ++ selected_lines size_gb_text title)%list |}).
    erewrite bind_raise;
      [| exact (run_exhausted requests_post
                  (rip_op rip_dvd_call title output_file_name
                          output_directory drive_letter)
                  w3 msgs2 e3 e4 last_error Hk2 Hraises Hlast)].
    unfold report, w3. cbn [env trace name rip_op].
    rewrite <- !app_assoc. reflexivity. }
  rewrite Hout. cbn [snd trace]. split; [reflexivity|].
  destruct (escalation_counts requests_post report e4) as [Hnote Hinv].
  split.
  - rewrite !invocations_app, Hinv.
    rewrite !invocations_repeat_other by discriminate.
    unfold invocations at 2 3. simpl. lia.
  - rewrite !notifications_app, Hnote, !notifications_repeat_invoked.
    simpl. reflexivity.
Qed.

(** The stages from the call of [encode_to_mp4] on: the "ripped"
    notification has been posted, delivered or not. *)
Lemma main_stages_ripped
      (w : World Env) (msgs1 msgs2 : list string) (e1 e2 e3 e4 : Env)
      (title : index_value * Z) (new_file_path : string) :
  (List.length msgs1 < ATTEMPTS)%nat ->
  raises_each (select_op get_largest_title_call drive_letter)
              (env w) msgs1 e1 ->
  get_largest_title_call drive_letter e1 = (Return title, e2) ->
  size_gb_overflows (snd title) = false ->
  (List.length msgs2 < ATTEMPTS)%nat ->
  raises_each (rip_op rip_dvd_call title output_file_name output_directory
                      drive_letter) e2 msgs2 e3 ->
  rip_dvd_call (fst title) output_file_name output_directory (snd title)
               drive_letter e3
    = (Return new_file_path, e4) ->
  let ripped := ripped_message output_file_name (duration_text e4) in
  main_stages Env requests_post get_largest_title_call rip_dvd_call
    encode_to_mp4_call size_gb_text duration_text
    output_file_name drive_letter output_directory w =
  (encoded <- run requests_post
                (encode_op encode_to_mp4_call new_file_path output_file_name
                           output_directory) ;;
   mp4_output_file <- unpack encoded ;;
   emit (converted_line mp4_output_file) ;;
   try_except
     (send_message requests_post "Movies" (encoded_message output_file_name))
     (fun e => print (encode_warning ++ e)) ;;
   ret mp4_output_file)
    {| env := snd (requests_post "Movies" ripped e4);
       trace := (trace w ++ selecting_lines
                 ++ repeat (Invoked "get_largest_title")
                           (S (List.length msgs1))
                 ++ selected_lines size_gb_text title
                 ++ repeat (Invoked "rip_dvd") (S (List.length msgs2))
                 ++ Posted "Movies" ripped
                 :: warning rip_warning
                      (fst (requests_post "Movies" ripped e4)))%list |}.
Proof.
  intros Hk1 Hsel Htitle Hsize Hk2 Hraises Hrip ripped.
  rewrite (main_stages_selected w msgs1 e1 e2 title Hk1 Hsel Htitle Hsize).
  set (w3 := {| env := e2;
                trace := (trace w ++ selecting_lines
                          ++ repeat (Invoked "get_largest_title")
                                    (S (List.length msgs1))
                          ++ selected_lines size_gb_text title)%list |}).
  erewrite bind_return;
    [| exact (run_after_failures requests_post
                (rip_op rip_dvd_call title output_file_name
                        output_directory drive_letter)
                w3 msgs2 e3 e4 new_file_path Hk2 Hraises Hrip)].
  erewrite bind_return by reflexivity.
  erewrite bind_return;
    [| exact (send_message_guarded requests_post "Movies" ripped
                rip_warning _)].
  unfold w3. cbn [env trace name rip_op].
  rewrite <- !app_assoc. reflexivity.
Qed.

(** X9: when the rip of a title whose size in GB is a float has succeeded
    and [encode_to_mp4] then raises on all [ATTEMPTS] calls, the "ripped"
    notification has already been posted;
    the stages end in [SystemExit(1)] after one further notification,
    "Movie ERROR", naming [encode_to_mp4], and [rip_dvd] is not called
    again. *)
Theorem main_stages_encode_exhausted
        (w : World Env) (msgs1 msgs2 msgs3 : list string)
        (e1 e2 e3 e4 e5 e6 : Env)
        (title : index_value * Z) (new_file_path last_error : string) :
  (List.length msgs1 < ATTEMPTS)%nat ->
  raises_each (select_op get_largest_title_call drive_letter)
              (env w) msgs1 e1 ->
  get_largest_title_call drive_letter e1 = (Return title, e2) ->
  size_gb_overflows (snd title) = false ->
  (List.length msgs2 < ATTEMPTS)%nat ->
  raises_each (rip_op rip_dvd_call title output_file_name output_directory
                      drive_letter) e2 msgs2 e3 ->
  rip_dvd_call (fst title) output_file_name output_directory (snd title)
               drive_letter e3
    = (Return new_file_path, e4) ->
  let ripped := ripped_message output_file_name (duration_text e4) in
  S (List.length msgs3) = ATTEMPTS ->
  raises_each (encode_op encode_to_mp4_call new_file_path output_file_name
                         output_directory)
              (snd (requests_post "Movies" ripped e4)) msgs3 e5 ->
  encode_to_mp4_call new_file_path output_file_name output_directory e5
    = (Raise (Exception last_error), e6) ->
  let report := failure_report "encode_to_mp4" last_error in
  let outcome :=
    main_stages Env requests_post get_largest_title_call rip_dvd_call
      encode_to_mp4_call size_gb_text duration_text
      output_file_name drive_letter output_directory w in
  fst outcome = Raise (SystemExit 1) /\
  notifications (trace (snd outcome))
    = (notifications (trace w)
       ++ [Posted "Movies" ripped; Posted "Movie ERROR" report])%list /\
  invocations "rip_dvd" (trace (snd outcome))
    = (invocations "rip_dvd" (trace w) + S (List.length msgs2))%nat /\
  invocations "encode_to_mp4" (trace (snd outcome))
    = (invocations "encode_to_mp4" (trace w) + ATTEMPTS)%nat.
Proof.
  intros Hk1 Hsel Htitle Hsize Hk2 Hraises Hrip ripped Hk3 Hraises3 Hlast
         report outcome.
  unfold outcome.
  rewrite (main_stages_ripped w msgs1 msgs2 e1 e2 e3 e4 title new_file_path
             Hk1 Hsel Htitle Hsize Hk2 Hraises Hrip).
  fold ripped.
  match goal with
  | |- context [bind _ _ ?x] => set (w5 := x)
  end.
  erewrite bind_raise;
    [| exact (run_exhausted requests_post
                (encode_op encode_to_mp4_call new_file_path output_file_name
                           output_directory)
                w5 msgs3 e5 e6 last_error Hk3 Hraises3 Hlast)].
  cbn [fst snd trace name encode_op]. fold report.
  destruct (escalation_counts requests_post report e6) as [Hnote Hinv].
  split; [reflexivity|].
  unfold w5. cbn [trace].
  repeat split.
  - rewrite !notifications_app, Hnote, !notifications_repeat_invoked.
    change (Posted "Movies" ripped
            :: warning rip_warning (fst (requests_post "Movies" ripped e4)))
      with ([Posted "Movies" ripped]
            ++ warning rip_warning
                 (fst (requests_post "Movies" ripped e4)))%list.
    rewrite notifications_app, notifications_warning. simpl.
    rewrite <- !app_assoc. reflexivity.
  - rewrite !invocations_app, Hinv.
    rewrite (invocations_repeat "rip_dvd").
    rewrite !invocations_repeat_other by discriminate.
    change (Posted "Movies" ripped
            :: warning rip_warning (fst (requests_post "Movies" ripped e4)))
      with ([Posted "Movies" ripped]
            ++ warning rip_warning
                 (fst (requests_post "Movies" ripped e4)))%list.
    rewrite invocations_app, invocations_warning.
    unfold invocations at 2 3 4. simpl. lia.
  - rewrite !invocations_app, Hinv.
    rewrite (invocations_repeat "encode_to_mp4").
    rewrite !invocations_repeat_other by discriminate.
    change (Posted "Movies" ripped
            :: warning rip_warning (fst (requests_post "Movies" ripped e4)))
      with ([Posted "Movies" ripped]
            ++ warning rip_warning
                 (fst (requests_post "Movies" ripped e4)))%list.
    rewrite invocations_app, invocations_warning.
    unfold invocations at 2 3 4. simpl. unfold ATTEMPTS. lia.
Qed.

(** The stages when every operation returns within its attempts. *)
Lemma stages_complete
        (w : World Env) (msgs1 msgs2 msgs3 : list string)
        (e1 e2 e3 e4 e5 e6 : Env)
        (title : index_value * Z) (new_file_path mp4_output_file : string) :
  (List.length msgs1 < ATTEMPTS)%nat ->
  raises_each (select_op get_largest_title_call drive_letter)
              (env w) msgs1 e1 ->
  get_largest_title_call drive_letter e1 = (Return title, e2) ->
  size_gb_overflows (snd title) = false ->
  (List.length msgs2 < ATTEMPTS)%nat ->
  raises_each (rip_op rip_dvd_call title output_file_name output_directory
                      drive_letter) e2 msgs2 e3 ->
  rip_dvd_call (fst title) output_file_name output_directory (snd title)
               drive_letter e3
    = (Return new_file_path, e4) ->
  let ripped := ripped_message output_file_name (duration_text e4) in
  (List.length msgs3 < ATTEMPTS)%nat ->
  raises_each (encode_op encode_to_mp4_call new_file_path output_file_name
                         output_directory)
              (snd (requests_post "Movies" ripped e4)) msgs3 e5 ->
  encode_to_mp4_call new_file_path output_file_name output_directory e5
    = (Return mp4_output_file, e6) ->
  let encoded := encoded_message output_file_name in
  main_stages Env requests_post get_largest_title_call rip_dvd_call
    encode_to_mp4_call size_gb_text duration_text
    output_file_name drive_letter output_directory w =
  (Return mp4_output_file,
   {| env := snd (requests_post "Movies" encoded e6);
      trace := (trace w ++ selecting_lines
                ++ repeat (Invoked "get_largest_title")
                          (S (List.length msgs1))
                ++ selected_lines size_gb_text title
                ++ repeat (Invoked "rip_dvd") (S (List.length msgs2))
                ++ Posted "Movies" ripped
                :: warning rip_warning
                     (fst (requests_post "Movies" ripped e4))
                ++ repeat (Invoked "encode_to_mp4") (S (List.length msgs3))
                ++ converted_line mp4_output_file
                :: Posted "Movies" encoded
                :: warning encode_warning
                     (fst (requests_post "Movies" encoded e6)))%list |}).
Proof.
  intros Hk1 Hsel Htitle Hsize Hk2 Hraises Hrip ripped Hk3 Hraises3 Henc encoded.
  rewrite (main_stages_ripped w msgs1 msgs2 e1 e2 e3 e4 title new_file_path
             Hk1 Hsel Htitle Hsize Hk2 Hraises Hrip).
  fold ripped.
  match goal with
  | |- context [bind _ _ ?x] => set (w5 := x)
  end.
  erewrite bind_return;
    [| exact (run_after_failures requests_post
                (encode_op encode_to_mp4_call new_file_path output_file_name
                           output_directory)
                w5 msgs3 e5 e6 mp4_output_file Hk3 Hraises3 Henc)].
  erewrite bind_return by reflexivity.
  erewrite bind_return by reflexivity.
  erewrite bind_return;
    [| exact (send_message_guarded requests_post "Movies" encoded
                encode_warning _)].
  unfold ret, w5, emit. cbn [env trace name encode_op].
  rewrite <- !app_assoc. cbn [app]. rewrite <- ?app_assoc. reflexivity.
Qed.

(** X10: when each of the three operations returns after fewer than
    [ATTEMPTS] failed calls and the size of the selected title in GB is a
    float (a size below [2^1054 - 2^1000] bytes), the stages return the
    path that [encode_to_mp4] returned.  [rip_dvd] is called with the index and the
    size that the selection returned, [encode_to_mp4] with the path that
    [rip_dvd] returned; exactly two notifications are posted, "ripped"
    before the encoding and "encoded" after it, whether or not they can be
    delivered, and each operation is called once more than it failed. *)
Theorem main_stages_complete
        (w : World Env) (msgs1 msgs2 msgs3 : list string)
        (e1 e2 e3 e4 e5 e6 : Env)
        (title : index_value * Z) (new_file_path mp4_output_file : string) :
  (List.length msgs1 < ATTEMPTS)%nat ->
  raises_each (select_op get_largest_title_call drive_letter)
              (env w) msgs1 e1 ->
  get_largest_title_call drive_letter e1 = (Return title, e2) ->
  size_gb_overflows (snd title) = false ->
  (List.length msgs2 < ATTEMPTS)%nat ->
  raises_each (rip_op rip_dvd_call title output_file_name output_directory
                      drive_letter) e2 msgs2 e3 ->
  rip_dvd_call (fst title) output_file_name output_directory (snd title)
               drive_letter e3
    = (Return new_file_path, e4) ->
  let ripped := ripped_message output_file_name (duration_text e4) in
  (List.length msgs3 < ATTEMPTS)%nat ->
  raises_each (encode_op encode_to_mp4_call new_file_path output_file_name
                         output_directory)
              (snd (requests_post "Movies" ripped e4)) msgs3 e5 ->
  encode_to_mp4_call new_file_path output_file_name output_directory e5
    = (Return mp4_output_file, e6) ->
  let encoded := encoded_message output_file_name in
  let outcome :=
    main_stages Env requests_post get_largest_title_call rip_dvd_call
      encode_to_mp4_call size_gb_text duration_text
      output_file_name drive_letter output_directory w in
  fst outcome = Return mp4_output_file /\
  env (snd outcome) = snd (requests_post "Movies" encoded e6) /\
  notifications (trace (snd outcome))
    = (notifications (trace w)
       ++ [Posted "Movies" ripped; Posted "Movies" encoded])%list /\
  invocations "get_largest_title" (trace (snd outcome))
    = (invocations "get_largest_title" (trace w)
       + S (List.length msgs1))%nat /\
  invocations "rip_dvd" (trace (snd outcome))
    = (invocations "rip_dvd" (trace w) + S (List.length msgs2))%nat /\
  invocations "encode_to_mp4" (trace (snd outcome))
    = (invocations "encode_to_mp4" (trace w) + S (List.length msgs3))%nat.
Proof.
  intros Hk1 Hsel Htitle Hsize Hk2 Hraises Hrip ripped Hk3 Hraises3 Henc encoded
         outcome.
  unfold outcome.
  rewrite (stages_complete w msgs1 msgs2 msgs3 e1 e2 e3 e4 e5 e6 title
             new_file_path mp4_output_file
             Hk1 Hsel Htitle Hsize Hk2 Hraises Hrip Hk3 Hraises3 Henc).
  fold ripped. fold encoded. cbn [fst snd env trace].
  split; [reflexivity|]. split; [reflexivity|].
  unfold selecting_lines, selected_lines, converted_line.
  repeat split.
  - repeat (rewrite ?notifications_app, ?notifications_posted,
              ?notifications_printed, ?notifications_repeat_invoked,
              ?notifications_warning).
    reflexivity.
  - repeat (rewrite ?invocations_app, ?invocations_posted,
              ?invocations_printed, ?invocations_warning).
    rewrite invocations_repeat.
    rewrite !invocations_repeat_other by discriminate.
    change (invocations _ []) with 0%nat. lia.
  - repeat (rewrite ?invocations_app, ?invocations_posted,
              ?invocations_printed, ?invocations_warning).
    rewrite invocations_repeat.
    rewrite !invocations_repeat_other by discriminate.
    change (invocations _ []) with 0%nat. lia.
  - repeat (rewrite ?invocations_app, ?invocations_posted,
              ?invocations_printed, ?invocations_warning).
    rewrite invocations_repeat.
    rewrite !invocations_repeat_other by discriminate.
    change (invocations _ []) with 0%nat. lia.
Qed.

End MainStagesFacts.

Lemma main_stages_selection_exhausted_witness :
  invocations "rip_dvd" (trace (snd (session 9 0 0 fresh_world))) = 0 /\
  invocations "encode_to_mp4" (trace (snd (session 9 0 0 fresh_world))) = 0 /\
  notifications (trace (snd (session 9 0 0 fresh_world)))
    = [Posted "Movie ERROR"
              (failure_report "get_largest_title" no_titles_error)].
Proof.
  apply (proj2 (main_stages_selection_exhausted post_delivered
                  (select_after 9) (rip_after 0) (encode_after 0)
                  (fun _ => "1.12") (fun _ => "0.5") "movie" "D" "temp/D"
                  fresh_world [no_titles_error; no_titles_error] 2 3
                  no_titles_error eq_refl
                  (ex_intro _ 1 (conj eq_refl
                     (ex_intro _ 2 (conj eq_refl eq_refl))))
                  eq_refl)).
Defined.

Lemma main_stages_size_overflow_witness :
  fst (huge_session fresh_world) = Raise (Exception overflow_error) /\
  invocations "get_largest_title" (trace (snd (huge_session fresh_world)))
    = 1 /\
  fst (dunder_main post_delivered huge_session fresh_world)
    = Raise (SystemExit 1) /\
  exit_status (fst (dunder_main post_delivered huge_session fresh_world))
    = 1%Z /\
  notifications
    (trace (snd (dunder_main post_delivered huge_session fresh_world)))
    = [Posted "Movie ERROR" "Unexpected error"] /\
  invocations "rip_dvd"
    (trace (snd (dunder_main post_delivered huge_session fresh_world))) = 0 /\
  invocations "encode_to_mp4"
    (trace (snd (dunder_main post_delivered huge_session fresh_world))) = 0.
Proof.
  apply (main_stages_size_overflow post_delivered
           select_huge (rip_after 0) (encode_after 0)
           (fun _ => "1.12") (fun _ => "0.5") "movie" "D" "temp/D"
           fresh_world [] 0 1 (StrIndex "0", huge_size)
           ltac:(unfold ATTEMPTS; simpl; lia) eq_refl eq_refl).
  vm_compute. discriminate.
Defined.

Lemma main_stages_rip_exhausted_after_retries_witness :
  invocations "encode_to_mp4" (trace (snd (session 1 9 0 fresh_world))) = 0 /\
  notifications (trace (snd (session 1 9 0 fresh_world)))
    = [Posted "Movie ERROR" (failure_report "rip_dvd" rip_error)].
Proof.
  apply (proj2 (main_stages_rip_exhausted_after_retries post_delivered
                  (select_after 1) (rip_after 9) (encode_after 0)
                  (fun _ => "1.12") (fun _ => "0.5") "movie" "D" "temp/D"
                  fresh_world [no_titles_error] [rip_error; rip_error]
                  1 2 4 5 (StrIndex "1", 1200000000%Z) rip_error
                  ltac:(unfold ATTEMPTS; simpl; lia)
                  (ex_intro _ 1 (conj eq_refl eq_refl))
                  eq_refl ltac:(vm_compute; reflexivity) eq_refl
                  (ex_intro _ 3 (conj eq_refl
                     (ex_intro _ 4 (conj eq_refl eq_refl))))
                  eq_refl)).
Defined.

Lemma main_stages_encode_exhausted_witness :
  fst (session 0 0 9 fresh_world) = Raise (SystemExit 1) /\
  notifications (trace (snd (session 0 0 9 fresh_world)))
    = [Posted "Movies" (ripped_message "movie" "0.5");
       Posted "Movie ERROR"
              (failure_report "encode_to_mp4" "HandBrakeCLI failed")] /\
  invocations "rip_dvd" (trace (snd (session 0 0 9 fresh_world))) = 1 /\
  invocations "encode_to_mp4" (trace (snd (session 0 0 9 fresh_world))) = 3.
Proof.
  apply (main_stages_encode_exhausted post_delivered
           (select_after 0) (rip_after 0) (encode_after 9)
           (fun _ => "1.12") (fun _ => "0.5") "movie" "D" "temp/D"
           fresh_world [] []
           ["HandBrakeCLI failed"; "HandBrakeCLI failed"]
           0 1 1 2 4 5 (StrIndex "1", 1200000000%Z)
           "temp/D/movie.mkv" "HandBrakeCLI failed"
           ltac:(unfold ATTEMPTS; simpl; lia) eq_refl eq_refl
           ltac:(vm_compute; reflexivity)
           ltac:(unfold ATTEMPTS; simpl; lia) eq_refl eq_refl
           eq_refl
           (ex_intro _ 3 (conj eq_refl
              (ex_intro _ 4 (conj eq_refl eq_refl))))
           eq_refl).
Defined.

Lemma main_stages_complete_witness :
  fst (session 1 2 3 fresh_world) = Return "temp/D/movie.mp4" /\
  env (snd (session 1 2 3 fresh_world)) = 4 /\
  notifications (trace (snd (session 1 2 3 fresh_world)))
    = [Posted "Movies" (ripped_message "movie" "0.5");
       Posted "Movies" (encoded_message "movie")] /\
  invocations "get_largest_title" (trace (snd (session 1 2 3 fresh_world)))
    = 2 /\
  invocations "rip_dvd" (trace (snd (session 1 2 3 fresh_world))) = 1 /\
  invocations "encode_to_mp4" (trace (snd (session 1 2 3 fresh_world))) = 1.
Proof.
  apply (main_stages_complete post_delivered
           (select_after 1) (rip_after 2) (encode_after 3)
           (fun _ => "1.12") (fun _ => "0.5") "movie" "D" "temp/D"
           fresh_world [no_titles_error] [] []
           1 2 2 3 3 4 (StrIndex "1", 1200000000%Z)
           "temp/D/movie.mkv" "temp/D/movie.mp4"
           ltac:(unfold ATTEMPTS; simpl; lia)
           (ex_intro _ 1 (conj eq_refl eq_refl)) eq_refl
           ltac:(vm_compute; reflexivity)
           ltac:(unfold ATTEMPTS; simpl; lia) eq_refl eq_refl
           ltac:(unfold ATTEMPTS; simpl; lia) eq_refl eq_refl).
Defined.

(* ================================================================== *)
(** * Further properties of the progress monitor *)

Lemma first_max_unique (l : list (string * Z)) (r1 r2 : string * Z) :
  first_max l r1 -> first_max l r2 -> r1 = r2.
Proof.
  intros (pre1 & post1 & H1 & Hpre1 & Hpost1)
         (pre2 & post2 & H2 & Hpre2 & Hpost2).
  rewrite H1 in H2. apply app_eq_app in H2.
  destruct H2 as (m & [[Ha Hb] | [Ha Hb]]).
  - destruct m as [|x m].
    + simpl in Hb. now injection Hb as ->.
    + simpl in Hb. injection Hb as <- Hb.
      assert (Hin : In r1 post2).
      { rewrite Ha in Hpre1.
        exfalso.
        assert (In r2 (pre2 ++ r2 :: m)%list)
          by (apply in_or_app; right; now left).
        pose proof (Hpre1 _ H) as Hlt.
        assert (In r1 post2) by (rewrite Hb; apply in_or_app; right; now left).
        pose proof (Hpost2 _ H0). lia. }
      specialize (Hpost2 _ Hin).
      assert (In r2 pre1) by (rewrite Ha; apply in_or_app; right; now left).
      specialize (Hpre1 _ H). lia.
  - destruct m as [|x m].
    + simpl in Hb. now injection Hb as ->.
    + simpl in Hb. injection Hb as <- Hb.
      assert (In r1 pre2) by (rewrite Ha; apply in_or_app; right; now left).
      specialize (Hpre2 _ H).
      assert (In r2 post1) by (rewrite Hb; apply in_or_app; right; now left).
      specialize (Hpost1 _ H0). lia.
Qed.

Lemma last_default {A : Type} (l : list A) (d1 d2 : A) :
  l <> [] -> last l d1 = last l d2.
Proof.
  induction l as [|x l IH]; intros Hne; [now contradiction Hne|].
  destruct l as [|y l]; [reflexivity|].
  change (last (y :: l) d1 = last (y :: l) d2). apply IH. discriminate.
Qed.

Section MonitorMore.

Variable fs : FileSystem.

Lemma max_scan_getsize_clock (items : list string) :
  forall best best_key s,
    (clock s <= clock (snd (max_scan (getsize fs) items best best_key s)))%nat.
Proof.
  induction items as [|x items IH]; intros best best_key s; simpl; [lia|].
  unfold bind, getsize.
  destruct (getsize_at fs (clock s) x) as [k | msg]; simpl; [|lia].
  destruct (k >? best_key)%Z;
    (eapply Nat.le_trans; [|apply IH]); simpl; lia.
Qed.

Lemma max_by_getsize_clock (items : list string) (s : RipState) :
  (clock s <= clock (snd (max_by (getsize fs) items s)))%nat.
Proof.
  destruct items as [|x items]; simpl; [lia|].
  unfold bind, getsize.
  destruct (getsize_at fs (clock s) x) as [k | msg]; simpl; [|lia].
  eapply Nat.le_trans; [|apply max_scan_getsize_clock]. simpl. lia.
Qed.

(** When [max] raises, a size read failed. *)
Lemma max_scan_getsize_raises (items : list string) :
  forall best best_key s e s',
    max_scan (getsize fs) items best best_key s = (Raise e, s') ->
    exists t p msg,
      (clock s <= t < clock s')%nat /\
      getsize_at fs t p = OSError msg /\ e = Exception msg.
Proof.
  induction items as [|x items IH]; intros best best_key s e s' H;
    simpl in H; [discriminate H|].
  unfold bind, getsize in H.
  destruct (getsize_at fs (clock s) x) as [k | msg] eqn:Hsize; simpl in H.
  - assert (Hrec : exists b bk,
               max_scan (getsize fs) items b bk (advance s) = (Raise e, s')).
    { destruct (k >? best_key)%Z; eauto. }
    destruct Hrec as (b & bk & Hrec).
    destruct (IH _ _ _ _ _ Hrec) as (t & p & msg & Ht & Hget & He).
    exists t, p, msg. simpl in Ht. repeat split; auto; lia.
  - injection H as <- <-. exists (clock s), x, msg. simpl.
    repeat split; auto.
Qed.

Lemma max_by_getsize_raises (items : list string) (s s' : RipState)
      (e : BaseException) :
  items <> [] ->
  max_by (getsize fs) items s = (Raise e, s') ->
  exists t p msg,
    (clock s <= t < clock s')%nat /\
    getsize_at fs t p = OSError msg /\ e = Exception msg.
Proof.
  intros Hne H. destruct items as [|x items]; [now contradiction Hne|].
  simpl in H. unfold bind, getsize in H.
  destruct (getsize_at fs (clock s) x) as [k | msg] eqn:Hsize; simpl in H.
  - destruct (max_scan_getsize_raises _ _ _ _ _ _ H)
      as (t & p & msg & Ht & Hget & He).
    exists t, p, msg. simpl in Ht. repeat split; auto; lia.
  - injection H as <- <-. exists (clock s), x, msg. simpl.
    repeat split; auto.
Qed.

(** What a run of the loop does besides reporting. *)
Lemma poll_loop_effects (stop_event : nat) (output_directory : string) :
  forall (current_progress : Z) (s s' : RipState) (r : result unit),
    poll_loop fs stop_event output_directory current_progress s = (r, s') ->
    (clock s <= clock s')%nat /\
    (exists reported,
        refreshed (progress_bar s')
          = (refreshed (progress_bar s) ++ reported)%list /\
        tqdm_n (progress_bar s') = last reported (tqdm_n (progress_bar s))) /\
    (exists lines,
        console s' = (console s ++ lines)%list /\
        (List.length lines <= stop_event)%nat /\
        Forall (fun l => exists e, l = size_error_line e) lines) /\
    (forall e, r = Raise e ->
       exists t msg,
         (clock s <= t < clock s')%nat /\
         (glob_at fs t (path_join output_directory "*.mkv") = OSError msg \/
          exists p, getsize_at fs t p = OSError msg) /\
         e = Exception msg).
Proof.
  induction stop_event as [|n IH]; intros cp s s' r Hrun.
  - injection Hrun as <- <-.
    split; [lia|]. split; [exists []; now rewrite app_nil_r|].
    split; [exists []; rewrite app_nil_r; auto|].
    intros e He. discriminate He.
  - cbn [poll_loop] in Hrun. unfold bind at 1 in Hrun.
    unfold glob at 1 in Hrun.
    destruct (glob_at fs (clock s) (path_join output_directory "*.mkv"))
      as [[|f files] | gmsg] eqn:Hglob; cbn [of_os] in Hrun.
    3:{ injection Hrun as <- <-. cbn [advance clock progress_bar console].
        split; [lia|]. split; [exists []; now rewrite app_nil_r|].
        split.
        { exists []. rewrite app_nil_r.
          repeat split; [simpl; lia | constructor]. }
        intros e He. injection He as <-.
        exists (clock s), gmsg. split; [lia|]. split; [now left | reflexivity]. }
    + cbn [is_nil] in Hrun. unfold bind, ret, sleep in Hrun.
      apply IH in Hrun. simpl in Hrun.
      destruct Hrun as (Hc & Hrep & (lines & Hcon & Hlen & Hall) & Hraise).
      split; [lia|]. split; [exact Hrep|].
      split; [exists lines; auto|].
      intros e He. destruct (Hraise e He) as (t & msg & Ht & Hrest).
      exists t, msg. split; [lia | exact Hrest].
    + cbn [is_nil] in Hrun. unfold bind at 1 in Hrun.
      unfold bind at 1 in Hrun.
      pose proof (max_by_getsize_bar fs (f :: files) (advance s))
        as (Hbar & Hcon0 & _).
      pose proof (max_by_getsize_clock (f :: files) (advance s)) as Hclk.
      pose proof (max_by_getsize_raises (f :: files) (advance s)) as Hmax.
      destruct (max_by (getsize fs) (f :: files) (advance s))
        as [[current_file | e0] s2]; cbn [snd] in Hbar, Hcon0, Hclk.
      * clear Hmax. simpl in Hclk.
        unfold try_except, bind at 1 in Hrun. unfold getsize at 1 in Hrun.
        destruct (getsize_at fs (clock s2) current_file)
          as [progress | msg]; cbn [of_os] in Hrun.
        -- destruct (progress >? cp)%Z eqn:Hgt.
           ++ unfold bind, set_n, refresh, with_bar, ret, sleep in Hrun.
              apply IH in Hrun.
              cbn [clock advance progress_bar console renamed refreshed
                   tqdm_n tqdm_total closed] in Hrun.
              destruct Hrun
                as (Hc & (reported & Href & Hn)
                    & (lines & Hcon & Hlen & Hall) & Hraise).
              split; [lia|]. split.
              { exists (progress :: reported). rewrite Href, Hn, Hbar.
                rewrite <- app_assoc. split; [reflexivity|].
                destruct reported as [|z reported]; [reflexivity|].
                apply (last_default (z :: reported)). discriminate. }
              split; [exists lines; rewrite Hcon, Hcon0; auto|].
              intros e He. destruct (Hraise e He) as (t & m & Ht & Hrest).
              exists t, m. split; [lia | exact Hrest].
           ++ unfold bind, ret, sleep in Hrun.
              apply IH in Hrun.
              cbn [clock advance progress_bar console renamed refreshed
                   tqdm_n tqdm_total closed] in Hrun.
              destruct Hrun
                as (Hc & (reported & Href & Hn)
                    & (lines & Hcon & Hlen & Hall) & Hraise).
              split; [lia|]. split.
              { exists reported. now rewrite Href, Hn, Hbar. }
              split; [exists lines; rewrite Hcon, Hcon0; auto|].
              intros e He. destruct (Hraise e He) as (t & m & Ht & Hrest).
              exists t, m. split; [lia | exact Hrest].
        -- unfold bind, rip_print, ret, sleep in Hrun.
           apply IH in Hrun.
              cbn [clock advance progress_bar console renamed refreshed
                   tqdm_n tqdm_total closed] in Hrun.
           destruct Hrun
             as (Hc & (reported & Href & Hn)
                 & (lines & Hcon & Hlen & Hall) & Hraise).
           split; [lia|]. split.
           { exists reported. now rewrite Href, Hn, Hbar. }
           split.
           { exists (size_error_line msg :: lines).
             rewrite Hcon, Hcon0, <- app_assoc.
             split; [reflexivity|]. split; [simpl; lia|].
             constructor; [now exists msg | exact Hall]. }
           intros e He. destruct (Hraise e He) as (t & m & Ht & Hrest).
           exists t, m. split; [lia | exact Hrest].
      * injection Hrun as <- <-.
        split; [simpl in Hclk; lia|].
        split; [exists []; now rewrite app_nil_r, Hbar|].
        split.
        { exists []. rewrite app_nil_r, Hcon0.
          repeat split; [simpl; lia | constructor]. }
        intros e He. injection He as <-.
        destruct (Hmax s2 e0 ltac:(discriminate) eq_refl)
          as (t & p & msg & Ht & Hget & He).
        exists t, msg. simpl in Ht. split; [lia|].
        split; [right; now exists p | exact He].
Qed.

End MonitorMore.

(** X11: the monitor only reports.  Whatever the directory shows, a run of
    [poll_file_size_progress] renames nothing, leaves the total of the bar
    and its open or closed state alone, sets [n] only to values it
    refreshes the bar with, and prints at most one line per tick, each an
    "Error checking file size:" line. *)
Theorem poll_only_reports
        (fs : FileSystem) (expected_file_size : Z)
        (output_directory : string) (stop_event : nat) (s : RipState) :
  let s' := snd (poll_file_size_progress fs expected_file_size
                   output_directory stop_event s) in
  renamed s' = renamed s /\
  closed (progress_bar s') = closed (progress_bar s) /\
  tqdm_total (progress_bar s') = tqdm_total (progress_bar s) /\
  (exists reported,
      refreshed (progress_bar s')
        = (refreshed (progress_bar s) ++ reported)%list /\
      tqdm_n (progress_bar s') = last reported (tqdm_n (progress_bar s))) /\
  (exists lines,
      console s' = (console s ++ lines)%list /\
      (List.length lines <= stop_event)%nat /\
      Forall (fun l => exists e, l = size_error_line e) lines).
Proof.
  cbv zeta.
  destruct (poll_file_size_progress fs expected_file_size output_directory
              stop_event s) as [r s'] eqn:Hrun.
  unfold poll_file_size_progress in Hrun. cbn [snd].
  destruct (poll_loop_reports fs _ _ _ _ _ _ Hrun)
    as (_ & _ & _ & Htot & Hclo & Hren).
  destruct (poll_loop_effects fs _ _ _ _ _ _ Hrun)
    as (_ & Hrep & Hlines & _).
  auto.
Qed.

(** X12: the monitor can fail in two ways only: when it raises, the
    exception is that of a listing that failed during the run or the
    error of a size read that failed during the run. *)
Theorem poll_fails_only_on_listing_or_size_read
        (fs : FileSystem) (expected_file_size : Z)
        (output_directory : string) (stop_event : nat) (s s' : RipState)
        (e : BaseException) :
  poll_file_size_progress fs expected_file_size output_directory
    stop_event s = (Raise e, s') ->
  exists t msg,
    (clock s <= t < clock s')%nat /\
    (glob_at fs t (path_join output_directory "*.mkv") = OSError msg \/
     exists path, getsize_at fs t path = OSError msg) /\
    e = Exception msg.
Proof.
  intros Hrun. unfold poll_file_size_progress in Hrun.
  destruct (poll_loop_effects fs _ _ _ _ _ _ Hrun) as (_ & _ & _ & Hraise).
  now apply Hraise.
Qed.

Lemma poll_fails_only_on_listing_or_size_read_witness :
  (exists t msg,
      (0 <= t < 2)%nat /\
      (glob_at (vanishing_fs 1) t (path_join "temp/D" "*.mkv") = OSError msg \/
       exists path, getsize_at (vanishing_fs 1) t path = OSError msg) /\
      Exception gone_error = Exception msg) /\
  (exists t msg,
      (0 <= t < 1)%nat /\
      (glob_at unlistable_fs t (path_join "temp/D" "*.mkv") = OSError msg \/
       exists path, getsize_at unlistable_fs t path = OSError msg) /\
      Exception null_byte_error = Exception msg).
Proof.
  split.
  - apply (poll_fails_only_on_listing_or_size_read (vanishing_fs 1) 5000 "temp/D" 3
             idle_state
             {| clock := 2; progress_bar := progress_bar idle_state;
                console := []; renamed := []; unstopped_monitors := 0 |}
             (Exception gone_error)).
    vm_compute. reflexivity.
  - apply (poll_fails_only_on_listing_or_size_read unlistable_fs 5000 "temp/D" 3
             idle_state
             {| clock := 1; progress_bar := progress_bar idle_state;
                console := []; renamed := []; unstopped_monitors := 0 |}
             (Exception null_byte_error)).
    vm_compute. reflexivity.
Defined.

(** X13: while every listing answers and every size read succeeds the
    monitor runs to its end: it returns normally after the last tick. *)
Theorem poll_returns_when_reads_succeed
        (fs : FileSystem) (expected_file_size : Z)
        (output_directory : string) (stop_event : nat) (s : RipState) :
  (forall t, exists files,
      glob_at fs t (path_join output_directory "*.mkv") = Ok files) ->
  (forall t path, exists size, getsize_at fs t path = Ok size) ->
  fst (poll_file_size_progress fs expected_file_size output_directory
         stop_event s) = Return tt.
Proof.
  intros Hlist Hok.
  destruct (poll_file_size_progress fs expected_file_size output_directory
              stop_event s) as [[[] | e] s'] eqn:Hrun; [reflexivity|].
  unfold poll_file_size_progress in Hrun.
  destruct (poll_loop_effects fs _ _ _ _ _ _ Hrun) as (_ & _ & _ & Hraise).
  destruct (Hraise e eq_refl) as (t & msg & _ & [Hglob | [p Hget]] & _).
  - destruct (Hlist t) as [files Hfiles]. rewrite Hfiles in Hglob.
    discriminate Hglob.
  - destruct (Hok t p) as [size Hsize]. rewrite Hsize in Hget.
    discriminate Hget.
Qed.

Lemma poll_returns_when_reads_succeed_witness :
  fst (poll_file_size_progress shrinking_fs 5000 "temp/D" 3 idle_state)
    = Return tt.
Proof.
  apply (poll_returns_when_reads_succeed shrinking_fs 5000 "temp/D" 3
           idle_state).
  - intros t. eexists. reflexivity.
  - intros t path. eexists. reflexivity.
Defined.

(** A listing that raises ends the monitor on its first tick, although no
    size read has failed. *)
Lemma poll_unlistable_example :
  poll_file_size_progress unlistable_fs 5000 "temp/D" 3 idle_state
  = (Raise (Exception null_byte_error),
     {| clock := 1; progress_bar := progress_bar idle_state;
        console := []; renamed := []; unstopped_monitors := 0 |}).
Proof. vm_compute. reflexivity. Qed.

(** X14: while no file matches, for instance because the output directory
    does not exist yet, the monitor reads no size, reports and prints
    nothing, and ends after two instants per tick. *)
Theorem poll_empty_directory
        (fs : FileSystem) (expected_file_size : Z)
        (output_directory : string) (stop_event : nat) (s : RipState) :
  (forall t, glob_at fs t (path_join output_directory "*.mkv") = Ok []) ->
  poll_file_size_progress fs expected_file_size output_directory
    stop_event s
  = (Return tt,
     {| clock := 2 * stop_event + clock s;
        progress_bar := progress_bar s;
        console := console s;
        renamed := renamed s;
        unstopped_monitors := unstopped_monitors s |}).
Proof.
  intros Hempty. unfold poll_file_size_progress.
  generalize 0%Z as cp. revert s.
  induction stop_event as [|n IH]; intros s cp.
  - simpl. now destruct s.
  - cbn [poll_loop]. unfold bind at 1, glob at 1. rewrite Hempty.
    cbn [of_os is_nil]. unfold bind, ret, sleep. rewrite IH. simpl.
    f_equal. f_equal. lia.
Qed.

Lemma poll_empty_directory_witness :
  poll_file_size_progress empty_fs 5000 "temp/D" 3 idle_state
  = (Return tt,
     {| clock := 6; progress_bar := progress_bar idle_state;
        console := []; renamed := []; unstopped_monitors := 0 |}).
Proof.
  apply (poll_empty_directory empty_fs 5000 "temp/D" 3 idle_state).
  reflexivity.
Defined.

Lemma first_max_all_le (l : list (string * Z)) (r : string * Z) :
  first_max l r -> forall p, In p l -> (snd p <= snd r)%Z.
Proof.
  intros (pre & post & -> & Hpre & Hpost) p Hin.
  apply in_app_or in Hin. destruct Hin as [Hin | [<- | Hin]].
  - specialize (Hpre p Hin). lia.
  - lia.
  - now apply Hpost.
Qed.

Lemma first_max_snoc_le (l : list (string * Z)) (r x : string * Z) :
  first_max l r -> (snd x <= snd r)%Z -> first_max (l ++ [x]) r.
Proof.
  intros (pre & post & -> & Hpre & Hpost) Hle.
  exists pre, (post ++ [x])%list.
  split; [now rewrite <- app_assoc|]. split; [exact Hpre|].
  intros p Hin. apply in_app_or in Hin.
  destruct Hin as [Hin | [<- | []]]; [now apply Hpost | exact Hle].
Qed.

Lemma first_max_snoc_gt (l : list (string * Z)) (r x : string * Z) :
  first_max l r -> (snd r < snd x)%Z -> first_max (l ++ [x]) x.
Proof.
  intros Hfm Hlt. exists l, []. split; [reflexivity|].
  split; [|intros p []].
  intros p Hin. pose proof (first_max_all_le l r Hfm p Hin). lia.
Qed.

Lemma first_max_exists (l : list (string * Z)) :
  l <> [] -> exists r, first_max l r.
Proof.
  intros Hne. destruct (sort_desc_head l Hne) as (r & _ & _ & Hfm).
  now exists r.
Qed.

Section QuiescentDirectory.

Variable fs : FileSystem.
Variable size : string -> Z.
Hypothesis sizes_at_rest : forall t path, getsize_at fs t path = Ok (size path).

Lemma max_scan_at_rest (items : list string) :
  forall done best s,
    first_max (with_key size done) (best, size best) ->
    exists f s',
      max_scan (getsize fs) items best (size best) s = (Return f, s') /\
      later (List.length items) s s' /\
      first_max (with_key size (done ++ items)) (f, size f).
Proof.
  induction items as [|x items IH]; intros done best s Hfm.
  - exists best, s. rewrite app_nil_r.
    split; [reflexivity|]. split; [repeat split | exact Hfm].
  - cbn [max_scan]. unfold bind at 1, getsize at 1.
    rewrite sizes_at_rest. cbn [of_os].
    assert (Hnext : exists best',
      first_max (with_key size (done ++ [x])) (best', size best') /\
      (if (size x >? size best)%Z
       then max_scan (getsize fs) items x (size x)
       else max_scan (getsize fs) items best (size best)) (advance s)
      = max_scan (getsize fs) items best' (size best') (advance s)).
    { destruct (Z.gtb_spec (size x) (size best)) as [Hgt | Hle].
      - exists x. split; [|reflexivity].
        unfold with_key. rewrite map_app. simpl.
        apply (first_max_snoc_gt _ (best, size best)); [exact Hfm | exact Hgt].
      - exists best. split; [|reflexivity].
        unfold with_key. rewrite map_app. simpl.
        apply first_max_snoc_le; [exact Hfm | exact Hle]. }
    destruct Hnext as (best' & Hfm' & ->).
    destruct (IH (done ++ [x])%list best' (advance s) Hfm')
      as (f & s' & Hrun & (Hc & Hb & Hcon & Hren & Hmon) & Hres).
    exists f, s'. split; [exact Hrun|].
    rewrite <- app_assoc in Hres. simpl in *.
    split; [repeat split; auto; lia | exact Hres].
Qed.

Lemma max_by_at_rest (items : list string) (s : RipState) :
  items <> [] ->
  exists f s',
    max_by (getsize fs) items s = (Return f, s') /\
    later (List.length items) s s' /\
    first_max (with_key size items) (f, size f).
Proof.
  intros Hne. destruct items as [|x items]; [now contradiction Hne|].
  cbn [max_by]. unfold bind at 1, getsize at 1.
  rewrite sizes_at_rest. cbn [of_os].
  destruct (max_scan_at_rest items [x] x (advance s))
    as (f & s' & Hrun & (Hc & Hb & Hcon & Hren & Hmon) & Hres).
  { exists [], []. repeat split; intros p []. }
  exists f, s'. split; [exact Hrun|]. simpl in *.
  split; [repeat split; auto; lia | exact Hres].
Qed.

Variable output_directory : string.
Variable files : list string.
Hypothesis listing_at_rest :
  forall t, glob_at fs t (path_join output_directory "*.mkv") = Ok files.
Hypothesis some_file : files <> [].

Lemma poll_loop_at_rest (largest : string) :
  first_max (with_key size files) (largest, size largest) ->
  forall stop_event current_progress s,
    exists s',
      poll_loop fs stop_event output_directory current_progress s
        = (Return tt, s') /\
      refreshed (progress_bar s')
        = (refreshed (progress_bar s)
           ++ if (0 <? stop_event)%nat && (size largest >? current_progress)%Z
              then [size largest] else [])%list /\
      console s' = console s.
Proof.
  intros Hlargest.
  induction stop_event as [|n IH]; intros cp s.
  - exists s. simpl. rewrite app_nil_r. auto.
  - cbn [poll_loop]. unfold bind at 1, glob at 1. rewrite listing_at_rest.
    cbn [of_os].
    destruct files as [|f0 files0] eqn:Hfiles; [now contradiction some_file|].
    cbn [is_nil]. unfold bind at 1, bind at 1.
    destruct (max_by_at_rest (f0 :: files0) (advance s) ltac:(discriminate))
      as (f & s2 & Hmax & (_ & Hbar & Hcon & _) & Hfm).
    rewrite Hmax.
    assert (Hf : f = largest).
    { pose proof (first_max_unique _ _ _ Hfm Hlargest) as Heq.
      now injection Heq. }
    subst f.
    unfold try_except, bind at 1, getsize at 1.
    rewrite sizes_at_rest. cbn [of_os].
    change (0 <? S n)%nat with true. cbn [andb].
    destruct (size largest >? cp)%Z eqn:Hgt.
    + unfold bind, set_n, refresh, with_bar, ret, sleep.
      match goal with
      | |- context [poll_loop fs n output_directory (size largest) ?st] =>
          destruct (IH (size largest) st) as (s' & Hrun & Href & Hc)
      end.
      exists s'. split; [exact Hrun|].
      assert (Hno : (size largest >? size largest)%Z = false).
      { destruct (Z.gtb_spec (size largest) (size largest)); [lia|reflexivity]. }
      rewrite Hno, andb_false_r, app_nil_r in Href.
      rewrite Href, Hc. cbn. now rewrite Hbar, Hcon.
    + unfold bind, ret, sleep.
      match goal with
      | |- context [poll_loop fs n output_directory cp ?st] =>
          destruct (IH cp st) as (s' & Hrun & Href & Hc)
      end.
      exists s'. split; [exact Hrun|].
      rewrite Hgt, andb_false_r, app_nil_r in Href.
      rewrite Href, Hc, app_nil_r. cbn. now rewrite Hbar, Hcon.
Qed.

(** X15: in a directory at rest, where the listing is the same non-empty
    list at every instant and every file keeps its size, a monitor that
    runs for at least one tick reports exactly one value, the size of the
    largest file (the first such in the listing), provided it is
    positive, and returns normally without printing. *)
Theorem poll_directory_at_rest
        (expected_file_size : Z) (ticks : nat) (s : RipState) :
  exists largest s',
    first_max (with_key size files) (largest, size largest) /\
    poll_file_size_progress fs expected_file_size output_directory
      (S ticks) s = (Return tt, s') /\
    refreshed (progress_bar s')
      = (refreshed (progress_bar s)
         ++ if (size largest >? 0)%Z then [size largest] else [])%list /\
    console s' = console s.
Proof.
  destruct (first_max_exists (with_key size files)) as [[largest k] Hfm].
  { unfold with_key. destruct files; [now contradiction some_file|].
    discriminate. }
  assert (Hk : k = size largest).
  { apply first_max_In in Hfm. unfold with_key in Hfm.
    apply in_map_iff in Hfm. destruct Hfm as (p & Hp & _).
    now injection Hp as -> ->. }
  subst k.
  destruct (poll_loop_at_rest largest Hfm (S ticks) 0%Z s)
    as (s' & Hrun & Href & Hcon).
  exists largest, s'. auto.
Qed.

End QuiescentDirectory.

Lemma poll_directory_at_rest_witness :
  exists largest s',
    first_max (with_key resting_size
                 ["temp/D/a.mkv"; "temp/D/b.mkv"; "temp/D/c.mkv"])
              (largest, resting_size largest) /\
    poll_file_size_progress resting_fs 5000 "temp/D" 3 idle_state
      = (Return tt, s') /\
    refreshed (progress_bar s')
      = (refreshed (progress_bar idle_state)
         ++ if (resting_size largest >? 0)%Z
            then [resting_size largest] else [])%list /\
    console s' = console idle_state.
Proof.
  apply (poll_directory_at_rest resting_fs resting_size
           (fun _ _ => eq_refl) "temp/D"
           ["temp/D/a.mkv"; "temp/D/b.mkv"; "temp/D/c.mkv"]
           (fun _ => eq_refl) ltac:(discriminate) 5000 2 idle_state).
Defined.

(** In that directory the value reported is 700, the size of [b.mkv]. *)
Lemma poll_directory_at_rest_example :
  refreshed (progress_bar
               (snd (poll_file_size_progress resting_fs 5000 "temp/D" 3
                       idle_state)))
  = [700%Z].
Proof. vm_compute. reflexivity. Qed.

(* ================================================================== *)
(** * Further properties of the rip pipeline *)

Section RipMore.

Variable fs : FileSystem.
Variable Popen : list string -> os_result Process.

Lemma keyed_getmtime_raises (files : list string) :
  forall s e s',
    keyed (getmtime fs) files s = (Raise e, s') ->
    exists msg, e = Exception msg.
Proof.
  induction files as [|f files IH]; intros s e s' H; simpl in H;
    [discriminate H|].
  unfold bind at 1, getmtime at 1 in H.
  destruct (getmtime_at fs (clock s) f) as [m | msg]; simpl in H.
  - unfold bind in H.
    destruct (keyed (getmtime fs) files (advance s)) as [[l | e0] s0] eqn:Hk.
    + discriminate H.
    + injection H as <- <-. eapply IH. exact Hk.
  - injection H as <- _. now exists msg.
Qed.

(** The rename step either renames one file to the new path and returns
    that path, or raises an [Exception] and renames nothing. *)
Lemma locate_and_rename_accounts
      (output_file_name output_directory : string) (s : RipState) :
  let outcome := locate_and_rename fs output_file_name output_directory s in
  let new_file_path :=
    path_join output_directory (output_file_name ++ ".mkv") in
  (exists ripped_file,
      fst outcome = Return new_file_path /\
      renamed (snd outcome)
        = (renamed s ++ [(ripped_file, new_file_path)])%list)
  \/
  (exists msg,
      fst outcome = Raise (Exception msg) /\
      renamed (snd outcome) = renamed s).
Proof.
  cbv zeta.
  destruct (locate_and_rename fs output_file_name output_directory s)
    as [r s'] eqn:Hrun.
  unfold locate_and_rename, bind at 1, glob at 1 in Hrun.
  destruct (glob_at fs (clock s) (path_join output_directory "*.mkv"))
    as [found | gmsg]; cbn [of_os] in Hrun.
  2:{ injection Hrun as <- <-. right. exists gmsg. split; reflexivity. }
  unfold sorted_reverse, bind at 1, bind at 1 in Hrun.
  match type of Hrun with
  | context [keyed (getmtime fs) ?l ?st] =>
      destruct (keyed_getmtime_later fs l st) as (k & _ & _ & _ & Hren & _);
      pose proof (keyed_getmtime_raises l st) as Hraise;
      destruct (keyed (getmtime fs) l st) as [[stats | e] s2]
  end; cbn [snd] in Hren.
  - clear Hraise. unfold ret at 1 in Hrun.
    destruct (map fst (sort_desc stats)) as [|ripped_file rest].
    + injection Hrun as <- <-. right. exists no_mkv_error.
      split; [reflexivity | exact Hren].
    + unfold bind, try_except, os_rename in Hrun.
      destruct (rename_at fs (clock s2) ripped_file _) as [u | msg].
      * injection Hrun as <- <-. left. exists ripped_file.
        cbn [fst snd renamed]. rewrite Hren. auto.
      * injection Hrun as <- <-. right. eexists.
        split; [reflexivity | exact Hren].
  - injection Hrun as <- <-.
    destruct (Hraise e s2 eq_refl) as [msg ->].
    right. exists msg. split; [reflexivity | exact Hren].
Qed.

Lemma rip_dvd_not_launched
      (title_index output_file_name output_directory : string)
      (expected_file_size : Z) (drive_letter : string) (s : RipState)
      (msg : string) :
  Popen (makemkv_mkv_command drive_letter title_index output_directory)
    = OSError msg ->
  rip_dvd fs Popen title_index output_file_name output_directory
    expected_file_size drive_letter s
  = (Raise (Exception msg), s).
Proof.
  intros Hopen.
  unfold rip_dvd, bind at 1, supervise, bind at 1. now rewrite Hopen.
Qed.

Lemma rip_dvd_launched
      (title_index output_file_name output_directory : string)
      (expected_file_size : Z) (drive_letter : string) (s : RipState)
      (process : Process) :
  Popen (makemkv_mkv_command drive_letter title_index output_directory)
    = Ok process ->
  stdout_failure process = None ->
  exists s1 reported,
    rip_dvd fs Popen title_index output_file_name output_directory
      expected_file_size drive_letter s
    = (if negb (exit_code process =? 0)%Z
       then (Raise (Exception rip_error), s1)
       else locate_and_rename fs output_file_name output_directory s1) /\
    progress_bar s1
      = {| tqdm_total := expected_file_size;
           tqdm_n := expected_file_size;
           refreshed := (reported ++ [expected_file_size])%list;
           closed := true |} /\
    renamed s1 = renamed s.
Proof.
  intros Hopen Hread.
  destruct (supervise_completes fs Popen _ expected_file_size
              output_directory s process Hopen Hread)
    as (s1 & reported & Hsup & Hbar & _ & Hren & _).
  exists s1, reported. split; [|split; assumption].
  unfold rip_dvd, bind at 1. rewrite Hsup.
  destruct (negb (exit_code process =? 0)%Z); reflexivity.
Qed.

Lemma rip_dvd_unread
      (title_index output_file_name output_directory : string)
      (expected_file_size : Z) (drive_letter : string) (s : RipState)
      (process : Process) (msg : string) :
  Popen (makemkv_mkv_command drive_letter title_index output_directory)
    = Ok process ->
  stdout_failure process = Some msg ->
  exists s1 reported,
    rip_dvd fs Popen title_index output_file_name output_directory
      expected_file_size drive_letter s
    = (Raise (Exception msg), s1) /\
    tqdm_total (progress_bar s1) = expected_file_size /\
    refreshed (progress_bar s1) = reported /\
    closed (progress_bar s1) = false /\
    StronglySorted Z.lt reported /\
    renamed s1 = renamed s /\
    unstopped_monitors s1 = S (unstopped_monitors s).
Proof.
  intros Hopen Hread.
  destruct (supervise_undecodable fs Popen _ expected_file_size
              output_directory s process msg Hopen Hread)
    as (s1 & reported & Hsup & Hrest).
  exists s1, reported. split; [|exact Hrest].
  unfold rip_dvd, bind at 1. now rewrite Hsup.
Qed.

(** X16: [rip_dvd] renames on success only.  Either it returns the output
    directory joined with the output name and [.mkv], having renamed
    exactly one file to that path, or it raises an [Exception] and has
    renamed nothing; it returns no other path and raises nothing else. *)
Theorem rip_dvd_renames_on_success_only
        (title_index output_file_name output_directory : string)
        (expected_file_size : Z) (drive_letter : string) (s : RipState) :
  let outcome := rip_dvd fs Popen title_index output_file_name
                   output_directory expected_file_size drive_letter s in
  let new_file_path :=
    path_join output_directory (output_file_name ++ ".mkv") in
  (exists ripped_file,
      fst outcome = Return new_file_path /\
      renamed (snd outcome)
        = (renamed s ++ [(ripped_file, new_file_path)])%list)
  \/
  (exists msg,
      fst outcome = Raise (Exception msg) /\
      renamed (snd outcome) = renamed s).
Proof.
  cbv zeta.
  destruct (Popen (makemkv_mkv_command drive_letter title_index
                     output_directory)) as [process | msg] eqn:Hopen.
  - destruct (stdout_failure process) as [msg|] eqn:Hread.
    + destruct (rip_dvd_unread title_index output_file_name
                  output_directory expected_file_size drive_letter s
                  process msg Hopen Hread)
        as (s1 & reported & -> & _ & _ & _ & _ & Hren & _).
      right. exists msg. split; [reflexivity | exact Hren].
    + destruct (rip_dvd_launched title_index output_file_name
                  output_directory expected_file_size drive_letter s
                  process Hopen Hread) as (s1 & reported & -> & _ & Hren).
      destruct (negb (exit_code process =? 0)%Z).
      * right. exists rip_error. split; [reflexivity | exact Hren].
      * rewrite <- Hren.
        apply (locate_and_rename_accounts output_file_name
                 output_directory s1).
  - right. exists msg.
    rewrite (rip_dvd_not_launched _ _ _ _ _ _ _ Hopen).
    split; reflexivity.
Qed.


End RipMore.


(** In that run the bar shows what the monitor reported and no more. *)
Lemma rip_dvd_undecodable_output_example :
  progress_bar
    (snd (rip_dvd two_files_fs launch_undecodable "1" "movie" "temp/D" 5000
            "D" idle_state))
  = {| tqdm_total := 5000; tqdm_n := 800;
       refreshed := [300%Z; 800%Z]; closed := false |}.
Proof. vm_compute. reflexivity. Qed.

(* ================================================================== *)
(** * Properties of [encode_to_mp4] *)

Lemma encode_to_mp4_completed
      (subprocess_run : list string -> result CompletedProcess)
      (called_process_error : list string -> Z -> string)
      (new_file_path output_file_name output_directory : string)
      (console : list string) (res : CompletedProcess) :
  subprocess_run
    (handbrake_args new_file_path
       (path_join output_directory (output_file_name ++ ".mp4")))
    = Return res ->
  returncode res = 0%Z ->
  encode_to_mp4 subprocess_run called_process_error
    new_file_path output_file_name output_directory console
  = (Return (path_join output_directory (output_file_name ++ ".mp4")),
     (console ++ [converting_line new_file_path])%list).
Proof.
  intros Hrun Hcode. unfold encode_to_mp4, bind.
  rewrite Hrun, Hcode. reflexivity.
Qed.



(** [encode_to_mp4] does not wrap an exception of the launch itself. *)
Lemma encode_to_mp4_launch_error
      (subprocess_run : list string -> result CompletedProcess)
      (called_process_error : list string -> Z -> string)
      (new_file_path output_file_name output_directory : string)
      (console : list string) (e : BaseException) :
  subprocess_run
    (handbrake_args new_file_path
       (path_join output_directory (output_file_name ++ ".mp4")))
    = Raise e ->
  fst (encode_to_mp4 subprocess_run called_process_error
         new_file_path output_file_name output_directory console)
  = Raise e.
Proof.
  intros Hrun. unfold encode_to_mp4, bind. cbn. now rewrite Hrun.
Qed.

(* ================================================================== *)
(** * Properties of the beginning and the end of [main] *)

Section CalmFacts.

Context {Env : Type}.

Lemma calm_in_env {A : Type} (f : Env -> result A * Env) :
  (forall e code, fst (f e) <> Raise (SystemExit code)) ->
  calm (in_env f).
Proof.
  intros Hf w. unfold in_env.
  pose proof (Hf (env w)) as H.
  destruct (f (env w)) as [r e']. simpl in *. split; [reflexivity | exact H].
Qed.

Lemma calm_os_call {A : Type} (f : Env -> os_result A * Env) :
  calm (os_call f).
Proof.
  apply calm_in_env. intros e code.
  destruct (f e) as [[a | msg] e']; discriminate.
Qed.

Lemma calm_print (text : string) : calm (print (Env := Env) text).
Proof.
  intros w. unfold print, emit. simpl. split; [|discriminate].
  rewrite notifications_app. simpl. now rewrite app_nil_r.
Qed.

Lemma calm_ret {A : Type} (a : A) : calm (ret (S := World Env) a).
Proof. intros w. simpl. split; [reflexivity | discriminate]. Qed.

Lemma calm_bind {A B : Type} (m : M (World Env) A)
      (k : A -> M (World Env) B) :
  calm m -> (forall a, calm (k a)) -> calm (x <- m ;; k x).
Proof.
  intros Hm Hk w. unfold bind.
  destruct (Hm w) as [Hn Hc].
  destruct (m w) as [[a | e] w1]; simpl in *.
  - destruct (Hk a w1) as [Hn' Hc']. split; [|exact Hc'].
    now rewrite Hn'.
  - split; [exact Hn|].
    intros code H. apply (Hc code). injection H as ->. reflexivity.
Qed.

Lemma harmless_guard (m : M (World Env) unit) (text : string) :
  calm m -> harmless (try_except m (fun e => print (text ++ e))).
Proof.
  intros Hm w. unfold try_except.
  destruct (Hm w) as [Hn Hc].
  destruct (m w) as [[[] | [msg | code]] w1]; simpl in *.
  - split; [reflexivity | exact Hn].
  - split; [reflexivity|].
    rewrite notifications_app. simpl. now rewrite app_nil_r.
  - now contradiction (Hc code).
Qed.

Lemma harmless_seq (m1 m2 : M (World Env) unit) :
  harmless m1 -> harmless m2 -> harmless (m1 ;; m2).
Proof.
  intros H1 H2 w. unfold bind.
  destruct (H1 w) as [Hr Hn].
  destruct (m1 w) as [r w1]; simpl in *. subst r.
  destruct (H2 w1) as [Hr' Hn']. split; [exact Hr'|].
  now rewrite Hn'.
Qed.

Variable os_remove : string -> Env -> os_result unit * Env.

Lemma calm_remove_each (output_directory : string) (files : list string) :
  calm (remove_each os_remove output_directory files).
Proof.
  induction files as [|f files IH]; simpl.
  - apply calm_ret.
  - apply calm_bind; [apply calm_os_call | intros _; exact IH].
Qed.

End CalmFacts.

Section CleanupFacts.

Context {Env : Type}.
Variable input : string -> Env -> result string * Env.
Variable os_remove : string -> Env -> os_result unit * Env.
Variable os_rename_to : string -> string -> Env -> os_result unit * Env.
Variable os_listdir : string -> Env -> os_result (list string) * Env.
Variable os_rmdir : string -> Env -> os_result unit * Env.

(** X18: once the question has been answered, [cleanup] cannot fail:
    whatever the operating system answers to the removals, the move and
    the listing, it returns normally and posts no notification.  With an
    answer that is not "yes" (after stripping and lower-casing) it does
    nothing at all. *)
Theorem cleanup_never_fails
        (new_file_path mp4_output_file output_file_name output_directory
         : string) (w : World Env) (answer : string) (e1 : Env) :
  input delete_prompt (env w) = (Return answer, e1) ->
  let outcome :=
    cleanup input os_remove os_rename_to os_listdir os_rmdir
      new_file_path mp4_output_file output_file_name output_directory w in
  fst outcome = Return tt /\
  notifications (trace (snd outcome)) = notifications (trace w) /\
  (String.eqb (lower (strip answer)) "yes" = false ->
   snd outcome = {| env := e1; trace := trace w |}).
Proof.
  intros Hinput outcome.
  set (w1 := {| env := e1; trace := trace w |}).
  assert (Hask : in_env (input delete_prompt) w = (Return answer, w1)).
  { unfold in_env. now rewrite Hinput. }
  unfold outcome, cleanup.
  rewrite (bind_return _ _ w w1 answer Hask). cbv zeta.
  destruct (String.eqb (lower (strip answer)) "yes").
  - match goal with
    | |- context [fst (?m w1)] =>
        assert (Hharmless : harmless m)
    end.
    { apply harmless_seq; [|apply harmless_seq];
        apply harmless_guard.
      - apply calm_bind; [apply calm_os_call | intros _; apply calm_print].
      - apply calm_os_call.
      - apply calm_bind; [apply calm_os_call|]. intros files.
        apply calm_bind; [apply calm_remove_each|]. intros _.
        apply calm_os_call. }
    destruct (Hharmless w1) as [Hr Hn].
    split; [exact Hr|]. split; [exact Hn | discriminate].
  - simpl. split; [reflexivity|]. split; [reflexivity|]. reflexivity.
Qed.

End CleanupFacts.

Section DiskFacts.

Lemma record_calls_nil (d : Disk) : record_calls [] d = d.
Proof. destruct d. unfold record_calls. simpl. now rewrite app_nil_r. Qed.

Lemma record_calls_app (cs1 cs2 : list fs_call) (d : Disk) :
  record_calls cs2 (record_calls cs1 d) = record_calls (cs1 ++ cs2) d.
Proof. unfold record_calls. simpl. now rewrite app_assoc. Qed.

Lemma disk_attempt {A : Type} (c : fs_call) (value : Disk -> A)
      (d : Disk) (t : list event) :
  os_call (attempt c value) {| env := d; trace := t |}
  = (match fails d c with
     | None => Return (value d)
     | Some msg => Raise (Exception msg)
     end,
     {| env := record_calls [c] d; trace := t |}).
Proof.
  unfold os_call, in_env, attempt. simpl.
  destruct (fails d c); reflexivity.
Qed.

(** The purge removes the listed files in order and stops at the first
    removal that fails. *)
Lemma remove_each_disk (output_directory : string) (files : list string) :
  forall (d : Disk) (t : list event),
    exists tried later_files,
      files = (tried ++ later_files)%list /\
      snd (remove_each disk_remove output_directory files
             {| env := d; trace := t |})
      = {| env := record_calls (removals output_directory tried) d;
           trace := t |} /\
      ((fst (remove_each disk_remove output_directory files
               {| env := d; trace := t |}) = Return tt /\
        later_files = [] /\
        forall f, In f files ->
                  fails d (Remove (path_join output_directory f)) = None)
       \/
       (exists msg f,
           fst (remove_each disk_remove output_directory files
                  {| env := d; trace := t |}) = Raise (Exception msg) /\
           In f files /\
           fails d (Remove (path_join output_directory f)) = Some msg)).
Proof.
  induction files as [|f files IH]; intros d t.
  - exists [], []. simpl. rewrite record_calls_nil.
    split; [reflexivity|]. split; [reflexivity|].
    left. repeat split. intros f [].
  - cbn [remove_each]. unfold bind at 1 2 3. unfold disk_remove at 1 3 5.
    rewrite disk_attempt.
    destruct (fails d (Remove (path_join output_directory f))) as [msg|]
      eqn:Hf.
    + exists [f], files. split; [reflexivity|]. split; [reflexivity|].
      right. exists msg, f. split; [reflexivity|]. split; [now left | exact Hf].
    + destruct (IH (record_calls [Remove (path_join output_directory f)] d) t)
        as (tried & later_files & Hfiles & Hsnd & Hfst).
      exists (f :: tried), later_files.
      split; [simpl; now rewrite Hfiles|].
      split.
      * rewrite Hsnd, record_calls_app. reflexivity.
      * destruct Hfst as [(Hr & Hl & Hall) | (msg & g & Hr & Hin & Hg)].
        -- left. split; [exact Hr|]. split; [exact Hl|].
           intros g [<- | Hin]; [exact Hf | exact (Hall g Hin)].
        -- right. exists msg, g. split; [exact Hr|].
           split; [now right | exact Hg].
Qed.

End DiskFacts.

Section DiskCleanup.

Variables new_file_path mp4_output_file output_file_name output_directory
  : string.

(** The calls that [cleanup] makes once the answer is "yes": the removal
    of the MKV file, the move of the MP4 file and the listing are always
    attempted; the purge stops at the first removal that fails, and the
    directory is removed only after a purge without failure. *)
Lemma disk_cleanup_yes (d : Disk) (t : list event) (answer : string)
      (rest : list string) :
  typed d = answer :: rest ->
  String.eqb (lower (strip answer)) "yes" = true ->
  exists purge prints,
    disk_cleanup new_file_path mp4_output_file output_file_name
      output_directory {| env := d; trace := t |}
    = (Return tt,
       {| env := record_calls
                   ([Remove new_file_path;
                     Rename mp4_output_file (final_path output_file_name);
                     Listdir output_directory] ++ purge)
                   (answered d);
          trace := (t ++ prints)%list |}) /\
    ((exists msg, fails d (Listdir output_directory) = Some msg /\
                  purge = [])
     \/
     (fails d (Listdir output_directory) = None /\
      exists tried later_files,
        listing d output_directory = (tried ++ later_files)%list /\
        ((later_files = [] /\
          (forall f, In f (listing d output_directory) ->
                     fails d (Remove (path_join output_directory f)) = None) /\
          purge = (removals output_directory tried
                   ++ [Rmdir output_directory])%list)
         \/
         (purge = removals output_directory tried /\
          exists f msg,
            In f (listing d output_directory) /\
            fails d (Remove (path_join output_directory f)) = Some msg)))).
Proof.
  intros Htyped Hyes.
  unfold disk_cleanup, cleanup.
  assert (Hask : in_env (disk_input delete_prompt) {| env := d; trace := t |}
                 = (Return answer, {| env := answered d; trace := t |})).
  { unfold in_env, disk_input, answered. simpl. now rewrite Htyped. }
  rewrite (bind_return _ _ _ _ answer Hask). cbv zeta. rewrite Hyes.
  set (d1 := answered d).
  (* the MKV file *)
  assert (H1 : exists p1,
    try_except
      (os_call (disk_remove new_file_path) ;; print "MKV file deleted.")
      (fun e => print ("Error deleting MKV file: " ++ e))
      {| env := d1; trace := t |}
    = (Return tt,
       {| env := record_calls [Remove new_file_path] d1;
          trace := (t ++ p1)%list |})).
  { unfold try_except, bind, disk_remove. rewrite disk_attempt.
    destruct (fails d1 (Remove new_file_path)); eexists; reflexivity. }
  destruct H1 as [p1 H1].
  rewrite (bind_return _ _ _ _ tt H1).
  (* the MP4 file *)
  set (d2 := record_calls [Remove new_file_path] d1).
  assert (H2 : exists p2,
    try_except
      (os_call (disk_rename mp4_output_file (final_path output_file_name)))
      (fun e => print ("Error moving MP4 file: " ++ e))
      {| env := d2; trace := (t ++ p1)%list |}
    = (Return tt,
       {| env := record_calls
                   [Rename mp4_output_file (final_path output_file_name)] d2;
          trace := ((t ++ p1) ++ p2)%list |})).
  { unfold try_except, disk_rename. rewrite disk_attempt.
    destruct (fails d2 (Rename mp4_output_file
                          (final_path output_file_name))).
    - eexists. reflexivity.
    - exists []. now rewrite app_nil_r. }
  destruct H2 as [p2 H2].
  rewrite (bind_return _ _ _ _ tt H2).
  (* the working directory *)
  set (d3 := record_calls
               [Rename mp4_output_file (final_path output_file_name)] d2).
  unfold try_except, bind at 1, disk_listdir at 1. rewrite disk_attempt.
  change (fails d3) with (fails d). change (listing d3) with (listing d).
  set (d4 := record_calls [Listdir output_directory] d3).
  destruct (fails d (Listdir output_directory)) as [msg|] eqn:Hlist.
  - exists [], ((p1 ++ p2)
                ++ [Printed ("Error cleaning up output directory: "
                             ++ msg)])%list.
    split.
    + unfold print, emit. cbn [env trace]. unfold d4, d3, d2.
      rewrite !record_calls_app, <- !app_assoc. reflexivity.
    + left. now exists msg.
  - destruct (remove_each_disk output_directory
                (listing d output_directory) d4 ((t ++ p1) ++ p2)%list)
      as (tried & later_files & Hfiles & Hsnd & Hfst).
    unfold bind at 1.
    destruct (remove_each disk_remove output_directory
                (listing d output_directory)
                {| env := d4; trace := ((t ++ p1) ++ p2)%list |})
      as [r w'] eqn:Hpurge.
    cbn [fst snd] in Hsnd, Hfst. subst w'.
    destruct Hfst as [(-> & Hl & Hall) | (msg & g & -> & Hin & Hg)].
    + unfold disk_rmdir. rewrite disk_attempt.
      exists (removals output_directory tried ++ [Rmdir output_directory])%list.
      destruct (fails (record_calls (removals output_directory tried) d4)
                  (Rmdir output_directory)) as [msg|].
      * exists ((p1 ++ p2)
                ++ [Printed ("Error cleaning up output directory: "
                             ++ msg)])%list.
        split.
        -- unfold print, emit. cbn [env trace]. unfold d4, d3, d2.
           rewrite !record_calls_app, <- !app_assoc. reflexivity.
        -- right. split; [reflexivity|].
           exists tried, later_files. split; [exact Hfiles|]. left. auto.
      * exists (p1 ++ p2)%list.
        split.
        -- unfold d4, d3, d2.
           rewrite !record_calls_app, <- !app_assoc. reflexivity.
        -- right. split; [reflexivity|].
           exists tried, later_files. split; [exact Hfiles|]. left. auto.
    + exists (removals output_directory tried),
             ((p1 ++ p2)
              ++ [Printed ("Error cleaning up output directory: "
                           ++ msg)])%list.
      split.
      * unfold print, emit. cbn [env trace]. unfold d4, d3, d2.
        rewrite !record_calls_app, <- !app_assoc. reflexivity.
      * right. split; [reflexivity|].
        exists tried, later_files. split; [exact Hfiles|]. right.
        split; [reflexivity|]. exists g, msg. auto.
Qed.

Lemma removals_are_removes (tried : list string) (c : fs_call) :
  In c (removals output_directory tried) ->
  exists f, In f tried /\ c = Remove (path_join output_directory f).
Proof.
  unfold removals. intros H. apply in_map_iff in H.
  destruct H as (f & <- & Hin). now exists f.
Qed.

(** X19: on a disk where every call succeeds, a [cleanup] answered with
    "yes" removes the MKV file, moves the MP4 file to [output/], lists
    the working directory, removes every file listed, in order, and
    removes the directory; it makes no other call. *)
Theorem cleanup_sequence (d : Disk) (t : list event) (answer : string)
        (rest : list string) :
  typed d = answer :: rest ->
  String.eqb (lower (strip answer)) "yes" = true ->
  (forall c, fails d c = None) ->
  let outcome :=
    disk_cleanup new_file_path mp4_output_file output_file_name
      output_directory {| env := d; trace := t |} in
  fst outcome = Return tt /\
  calls (env (snd outcome))
    = (calls d
       ++ [Remove new_file_path;
           Rename mp4_output_file (final_path output_file_name);
           Listdir output_directory]
       ++ removals output_directory (listing d output_directory)
       ++ [Rmdir output_directory])%list.
Proof.
  intros Htyped Hyes Hok outcome.
  destruct (disk_cleanup_yes d t answer rest Htyped Hyes)
    as (purge & prints & Hrun & Hpurge).
  unfold outcome. rewrite Hrun. cbn [fst snd env].
  split; [reflexivity|].
  destruct Hpurge as [(msg & Hmsg & _) | (_ & tried & later_files & Hfiles
                                          & Hcases)].
  - rewrite Hok in Hmsg. discriminate Hmsg.
  - destruct Hcases as [(-> & _ & ->) | (_ & f & msg & _ & Hf)].
    + rewrite app_nil_r in Hfiles. rewrite Hfiles. reflexivity.
    + rewrite Hok in Hf. discriminate Hf.
Qed.

(** X20: whatever fails, a [cleanup] answered with "yes" attempts the
    removal of the MKV file, the move of the MP4 file and the listing, in
    that order; after them it only removes listed files, and it removes
    the working directory exactly when the listing and every removal of a
    listed file succeeded. *)
Theorem cleanup_calls (d : Disk) (t : list event) (answer : string)
        (rest : list string) :
  typed d = answer :: rest ->
  String.eqb (lower (strip answer)) "yes" = true ->
  let outcome :=
    disk_cleanup new_file_path mp4_output_file output_file_name
      output_directory {| env := d; trace := t |} in
  exists purge,
    calls (env (snd outcome))
      = (calls d
         ++ [Remove new_file_path;
             Rename mp4_output_file (final_path output_file_name);
             Listdir output_directory]
         ++ purge)%list /\
    (forall c, In c purge ->
               c = Rmdir output_directory \/
               exists f, In f (listing d output_directory) /\
                         c = Remove (path_join output_directory f)) /\
    (In (Rmdir output_directory) purge <->
     fails d (Listdir output_directory) = None /\
     forall f, In f (listing d output_directory) ->
               fails d (Remove (path_join output_directory f)) = None).
Proof.
  intros Htyped Hyes outcome.
  destruct (disk_cleanup_yes d t answer rest Htyped Hyes)
    as (purge & prints & Hrun & Hpurge).
  exists purge. unfold outcome. rewrite Hrun. cbn [fst snd env].
  split; [reflexivity|].
  destruct Hpurge as [(msg & Hmsg & ->) | (Hlist & tried & later_files
                                           & Hfiles & Hcases)].
  - split; [intros c []|].
    split; [intros [] | intros [H _]].
    rewrite Hmsg in H. discriminate H.
  - destruct Hcases as [(-> & Hall & ->) | (-> & f & msg & Hin & Hf)].
    + rewrite app_nil_r in Hfiles. subst tried.
      split.
      * intros c Hc. apply in_app_or in Hc.
        destruct Hc as [Hc | [<- | []]]; [right | now left].
        now apply removals_are_removes.
      * split; [auto|]. intros _. apply in_or_app. right. now left.
    + split.
      * intros c Hc. right.
        destruct (removals_are_removes _ _ Hc) as (g & Hg & ->).
        exists g. split; [|reflexivity].
        rewrite Hfiles. apply in_or_app. now left.
      * split.
        -- intros Hc. destruct (removals_are_removes _ _ Hc) as (g & _ & Hg).
           discriminate Hg.
        -- intros [_ Hall]. rewrite (Hall f Hin) in Hf. discriminate Hf.
Qed.

(** X21: when the move of the MP4 file fails but the purge works, the
    encoded file is removed all the same if it lies in the working
    directory: the failed move is followed by the removal of that very
    file. *)
Theorem cleanup_removes_unmoved_mp4 (d : Disk) (t : list event)
        (answer : string) (rest : list string) (file msg : string) :
  typed d = answer :: rest ->
  String.eqb (lower (strip answer)) "yes" = true ->
  fails d (Rename mp4_output_file (final_path output_file_name))
    = Some msg ->
  fails d (Listdir output_directory) = None ->
  (forall f, In f (listing d output_directory) ->
             fails d (Remove (path_join output_directory f)) = None) ->
  In file (listing d output_directory) ->
  path_join output_directory file = mp4_output_file ->
  let outcome :=
    disk_cleanup new_file_path mp4_output_file output_file_name
      output_directory {| env := d; trace := t |} in
  fst outcome = Return tt /\
  exists before after,
    calls (env (snd outcome))
      = (before
         ++ Rename mp4_output_file (final_path output_file_name)
         :: after)%list /\
    In (Remove mp4_output_file) after.
Proof.
  intros Htyped Hyes Hmove Hlist Hall Hin Hpath outcome.
  destruct (disk_cleanup_yes d t answer rest Htyped Hyes)
    as (purge & prints & Hrun & Hpurge).
  unfold outcome. rewrite Hrun. cbn [fst snd env].
  split; [reflexivity|].
  exists (calls d ++ [Remove new_file_path])%list,
         (Listdir output_directory :: purge).
  split.
  - cbn [record_calls calls answered]. rewrite <- !app_assoc. reflexivity.
  - right.
    destruct Hpurge as [(m & Hm & _) | (_ & tried & later_files & Hfiles
                                        & Hcases)].
    + rewrite Hlist in Hm. discriminate Hm.
    + destruct Hcases as [(-> & _ & ->) | (_ & f & m & Hf & Hfm)].
      * rewrite app_nil_r in Hfiles. subst tried.
        apply in_or_app. left. unfold removals.
        apply in_map_iff. exists file. rewrite Hpath. auto.
      * rewrite (Hall f Hf) in Hfm. discriminate Hfm.
Qed.

End DiskCleanup.

Lemma cleanup_never_fails_witness :
  fst (disk_cleanup "temp/D/movie.mkv" "temp/D/movie.mp4" "movie" "temp/D"
         (disk_world (used_disk "no" nothing_fails))) = Return tt /\
  notifications
    (trace (snd (disk_cleanup "temp/D/movie.mkv" "temp/D/movie.mp4" "movie"
                   "temp/D" (disk_world (used_disk "no" nothing_fails)))))
    = [] /\
  (String.eqb (lower (strip "no")) "yes" = false ->
   snd (disk_cleanup "temp/D/movie.mkv" "temp/D/movie.mp4" "movie" "temp/D"
          (disk_world (used_disk "no" nothing_fails)))
   = {| env := answered (used_disk "no" nothing_fails); trace := [] |}).
Proof.
  apply (cleanup_never_fails disk_input disk_remove disk_rename
           disk_listdir disk_rmdir
           "temp/D/movie.mkv" "temp/D/movie.mp4" "movie" "temp/D"
           (disk_world (used_disk "no" nothing_fails)) "no"
           (answered (used_disk "no" nothing_fails))).
  reflexivity.
Defined.

Lemma cleanup_sequence_witness :
  fst (disk_cleanup "temp/D/movie.mkv" "temp/D/movie.mp4" "movie" "temp/D"
         (disk_world (used_disk " Yes " nothing_fails))) = Return tt /\
  calls (env (snd (disk_cleanup "temp/D/movie.mkv" "temp/D/movie.mp4"
                     "movie" "temp/D"
                     (disk_world (used_disk " Yes " nothing_fails)))))
  = [Remove "temp/D/movie.mkv";
     Rename "temp/D/movie.mp4" "output/movie.mp4";
     Listdir "temp/D";
     Remove "temp/D/movie.mp4";
     Remove "temp/D/title_t00.mkv";
     Rmdir "temp/D"].
Proof.
  apply (cleanup_sequence "temp/D/movie.mkv" "temp/D/movie.mp4" "movie"
           "temp/D" (used_disk " Yes " nothing_fails) [] " Yes " []).
  - reflexivity.
  - vm_compute. reflexivity.
  - intros c. reflexivity.
Defined.

Lemma cleanup_calls_witness :
  exists purge,
    calls (env (snd (disk_cleanup "temp/D/movie.mkv" "temp/D/movie.mp4"
                       "movie" "temp/D"
                       (disk_world (used_disk "yes" move_fails)))))
      = ([Remove "temp/D/movie.mkv";
          Rename "temp/D/movie.mp4" (final_path "movie");
          Listdir "temp/D"] ++ purge)%list /\
    (forall c, In c purge ->
               c = Rmdir "temp/D" \/
               exists f, In f ["movie.mp4"; "title_t00.mkv"] /\
                         c = Remove (path_join "temp/D" f)) /\
    (In (Rmdir "temp/D") purge <->
     move_fails (Listdir "temp/D") = None /\
     forall f, In f ["movie.mp4"; "title_t00.mkv"] ->
               move_fails (Remove (path_join "temp/D" f)) = None).
Proof.
  apply (cleanup_calls "temp/D/movie.mkv" "temp/D/movie.mp4" "movie"
           "temp/D" (used_disk "yes" move_fails) [] "yes" []).
  - reflexivity.
  - vm_compute. reflexivity.
Defined.

Lemma cleanup_removes_unmoved_mp4_witness :
  fst (disk_cleanup "temp/D/movie.mkv" "temp/D/movie.mp4" "movie" "temp/D"
         (disk_world (used_disk "yes" move_fails))) = Return tt /\
  exists before after,
    calls (env (snd (disk_cleanup "temp/D/movie.mkv" "temp/D/movie.mp4"
                       "movie" "temp/D"
                       (disk_world (used_disk "yes" move_fails)))))
      = (before ++ Rename "temp/D/movie.mp4" (final_path "movie")
                :: after)%list /\
    In (Remove "temp/D/movie.mp4") after.
Proof.
  apply (cleanup_removes_unmoved_mp4 "temp/D/movie.mkv" "temp/D/movie.mp4"
           "movie" "temp/D" (used_disk "yes" move_fails) [] "yes" []
           "movie.mp4" "[Errno 2] No such file or directory").
  - reflexivity.
  - vm_compute. reflexivity.
  - reflexivity.
  - reflexivity.
  - intros f _. reflexivity.
  - now left.
  - vm_compute. reflexivity.
Defined.

(** X22: [prepare] strips the two names it is given and works in
    [temp/<drive letter>].  It asks whether that directory exists and
    creates it only when it does not; when the creation fails it prints
    and posts "Error creating temp directory: ..." as a "Movie ERROR"
    notification and raises [SystemExit(1)]. *)
Theorem prepare_outcome (d : Disk) (t : list event)
        (typed_name typed_drive : string) (rest : list string) :
  typed d = typed_name :: typed_drive :: rest ->
  let output_directory := path_join "temp" (strip typed_drive) in
  let names := (strip typed_name, strip typed_drive, output_directory) in
  let outcome := disk_prepare {| env := d; trace := t |} in
  (present d output_directory = true ->
   outcome
   = (Return names,
      {| env := record_calls [Exists output_directory]
                             (answered (answered d));
         trace := t |})) /\
  (present d output_directory = false ->
   fails d (Makedirs output_directory) = None ->
   outcome
   = (Return names,
      {| env := record_calls [Exists output_directory;
                              Makedirs output_directory]
                             (answered (answered d));
         trace := t |})) /\
  (present d output_directory = false ->
   forall msg,
     fails d (Makedirs output_directory) = Some msg ->
     outcome
     = (Raise (SystemExit 1),
        {| env := record_calls [Exists output_directory;
                                Makedirs output_directory]
                               (answered (answered d));
           trace := (t ++ [Printed (makedirs_error ++ msg);
                           Posted "Movie ERROR" (makedirs_error ++ msg)])%list
        |})).
Proof.
  intros Htyped output_directory names outcome.
  set (d1 := answered d). set (d2 := answered d1).
  assert (H1 : in_env (disk_input name_prompt) {| env := d; trace := t |}
               = (Return typed_name, {| env := d1; trace := t |})).
  { unfold in_env, disk_input, d1, answered. simpl. now rewrite Htyped. }
  assert (H2 : in_env (disk_input drive_prompt) {| env := d1; trace := t |}
               = (Return typed_drive, {| env := d2; trace := t |})).
  { unfold in_env, disk_input, d2, d1, answered. simpl.
    now rewrite Htyped. }
  assert (Hout : outcome =
    ((if negb (present d output_directory)
      then try_except
             (os_call (disk_makedirs output_directory))
             (fun e => error_handler disk_post (makedirs_error ++ e))
      else ret tt) ;;
     ret names)
      {| env := record_calls [Exists output_directory] d2; trace := t |}).
  { unfold outcome, disk_prepare, prepare.
    rewrite (bind_return _ _ _ _ typed_name H1). cbv zeta.
    rewrite (bind_return _ _ _ _ typed_drive H2). cbv zeta.
    fold output_directory.
    erewrite bind_return by reflexivity. reflexivity. }
  rewrite Hout. clear Hout.
  split; [|split].
  - intros ->. reflexivity.
  - intros -> Hmk. cbn [negb].
    unfold bind, try_except, disk_makedirs. rewrite disk_attempt.
    change (fails (record_calls [Exists output_directory] d2)) with (fails d).
    rewrite Hmk. now rewrite record_calls_app.
  - intros -> msg Hmk. cbn [negb].
    unfold bind, try_except, disk_makedirs. rewrite disk_attempt.
    change (fails (record_calls [Exists output_directory] d2)) with (fails d).
    rewrite Hmk. rewrite error_handler_exits.
    rewrite record_calls_app. reflexivity.
Qed.

Lemma prepare_outcome_witness :
  disk_prepare (disk_world (fresh_disk read_only))
  = (Raise (SystemExit 1),
     {| env := record_calls [Exists "temp/D"; Makedirs "temp/D"]
                 (answered (answered (fresh_disk read_only)));
        trace := [Printed (makedirs_error
                           ++ "[Errno 30] Read-only file system");
                  Posted "Movie ERROR"
                         (makedirs_error
                          ++ "[Errno 30] Read-only file system")] |}).
Proof.
  apply (proj2 (proj2 (prepare_outcome (fresh_disk read_only) []
                         " movie " "D" [] eq_refl)) eq_refl).
  reflexivity.
Defined.

(* ================================================================== *)
(** * The three operations together *)

Lemma mtimes_from_at_rest (fs : FileSystem) (mtime : string -> Z)
      (files : list string) :
  (forall t path, getmtime_at fs t path = Ok (mtime path)) ->
  forall t, mtimes_from fs t files = Some (with_key mtime files).
Proof.
  intros Hrest. induction files as [|f files IH]; intros t; simpl.
  - reflexivity.
  - now rewrite Hrest, IH.
Qed.

(** [rip_dvd] on a directory that is at rest once the process has
    exited, as far as listing and modification times go, and in which
    renames succeed. *)
Lemma rip_dvd_at_rest
      (fs : FileSystem) (Popen : list string -> os_result Process)
      (mtime : string -> Z) (files : list string)
      (title_index output_file_name output_directory : string)
      (expected_file_size : Z) (drive_letter : string) (s : RipState)
      (process : Process) :
  Popen (makemkv_mkv_command drive_letter title_index output_directory)
    = Ok process ->
  stdout_failure process = None ->
  exit_code process = 0%Z ->
  (forall t, glob_at fs t (path_join output_directory "*.mkv") = Ok files) ->
  files <> [] ->
  (forall t path, getmtime_at fs t path = Ok (mtime path)) ->
  (forall t src dst, rename_at fs t src dst = Ok tt) ->
  exists ripped_file reported s',
    rip_dvd fs Popen title_index output_file_name output_directory
      expected_file_size drive_letter s
    = (Return (path_join output_directory (output_file_name ++ ".mkv")), s')
    /\
    first_max (with_key mtime files) (ripped_file, mtime ripped_file) /\
    renamed s'
      = (renamed s
         ++ [(ripped_file,
              path_join output_directory (output_file_name ++ ".mkv"))])%list
    /\
    progress_bar s'
      = {| tqdm_total := expected_file_size;
           tqdm_n := expected_file_size;
           refreshed := (reported ++ [expected_file_size])%list;
           closed := true |}.
Proof.
  intros Hopen Hread Hexit Hglob Hne Hmtime Hrename.
  destruct (rip_dvd_launched fs Popen title_index output_file_name
              output_directory expected_file_size drive_letter s
              process Hopen Hread) as (s1 & reported & Hrip & Hbar & Hren).
  rewrite Hexit in Hrip. cbn [Z.eqb negb] in Hrip.
  pose proof (locate_and_rename_found fs output_file_name output_directory
                s1 files (with_key mtime files)) as Hfound.
  cbv zeta in Hfound.
  destruct (Hfound (Hglob _) Hne
              (mtimes_from_at_rest fs mtime files Hmtime _))
    as (ripped_file & m & Hfm & Hok & _).
  assert (Hm : m = mtime ripped_file).
  { apply first_max_In in Hfm. unfold with_key in Hfm.
    apply in_map_iff in Hfm. destruct Hfm as (p & Hp & _).
    now injection Hp as -> ->. }
  subst m.
  destruct (Hok tt (Hrename _ _ _)) as [Hfst Hsnd].
  exists ripped_file, reported,
         (snd (locate_and_rename fs output_file_name output_directory s1)).
  split.
  - rewrite Hrip.
    destruct (locate_and_rename fs output_file_name output_directory s1)
      as [r s']. simpl in *. now subst r.
  - split; [exact Hfm|]. split.
    + now rewrite Hsnd, Hren.
    + now rewrite locate_and_rename_keeps_bar.
Qed.

Section MachineFacts.

Variable tools : Tools.
Variable size_gb_text : Z -> string.
Variable duration_text : Machine -> string.
Variables output_file_name drive_letter output_directory : string.

(** X23: the three functions fit together.  On a machine where the info
    query selects title [id] of size [size], below [2^1054 - 2^1000]
    bytes, the ripping process launched for that title prints output that
    decodes, exits with code 0 and leaves a directory at rest whose
    listing answers, and HandBrakeCLI exits with code 0 on the renamed
    file, the stages return
    [<output directory>/<name>.mp4] after one call of each function: the
    most recent file has been renamed to [<name>.mkv], that file is what
    HandBrakeCLI was given, and the progress bar ran to a total of
    [size]. *)
Theorem machine_stages_complete
        (m : Machine) (t : list event) (id : string) (size : Z)
        (process : Process) (mtime : string -> Z) (files : list string)
        (res : CompletedProcess) :
  let new_file_path :=
    path_join output_directory (output_file_name ++ ".mkv") in
  let mp4_output_file :=
    path_join output_directory (output_file_name ++ ".mp4") in
  get_largest_title (info_tool tools (launches m)) drive_letter
    = Return (StrIndex id, size) ->
  size_gb_overflows size = false ->
  rip_tool tools (S (launches m))
           (makemkv_mkv_command drive_letter id output_directory)
    = Ok process ->
  stdout_failure process = None ->
  exit_code process = 0%Z ->
  (forall t, glob_at (directory tools) t
                     (path_join output_directory "*.mkv") = Ok files) ->
  files <> [] ->
  (forall t path, getmtime_at (directory tools) t path = Ok (mtime path)) ->
  (forall t src dst, rename_at (directory tools) t src dst = Ok tt) ->
  encode_tool tools (S (S (launches m)))
              (handbrake_args new_file_path mp4_output_file)
    = Return res ->
  returncode res = 0%Z ->
  let outcome :=
    machine_stages tools size_gb_text duration_text
      output_file_name drive_letter output_directory
      {| env := m; trace := t |} in
  fst outcome = Return mp4_output_file /\
  (exists ripped_file reported,
      first_max (with_key mtime files) (ripped_file, mtime ripped_file) /\
      renamed (rip_state (env (snd outcome)))
        = (renamed (rip_state m) ++ [(ripped_file, new_file_path)])%list /\
      progress_bar (rip_state (env (snd outcome)))
        = {| tqdm_total := size; tqdm_n := size;
             refreshed := (reported ++ [size])%list; closed := true |}) /\
  shell (env (snd outcome))
    = (shell m ++ [converting_line new_file_path])%list /\
  launches (env (snd outcome)) = (3 + launches m)%nat /\
  (forall n, In n ["get_largest_title"; "rip_dvd"; "encode_to_mp4"] ->
             invocations n (trace (snd outcome))
             = (invocations n t + 1)%nat).
Proof.
  intros new_file_path mp4_output_file Hsel Hsize Hopen Hread Hexit Hglob
         Hne Hmtime Hrename Henc Hcode outcome.
  set (m1 := {| launches := S (launches m); rip_state := rip_state m;
                shell := shell m |}).
  destruct (rip_dvd_at_rest (directory tools) (rip_tool tools (launches m1))
              mtime files id output_file_name output_directory size
              drive_letter (rip_state m1) process Hopen Hread Hexit Hglob
              Hne Hmtime Hrename)
    as (ripped_file & reported & s' & Hrip & Hfm & Hren & Hbar).
  set (m2 := {| launches := S (launches m1); rip_state := s';
                shell := shell m1 |}).
  set (m3 := {| launches := S (launches m2); rip_state := rip_state m2;
                shell := (shell m2 ++ [converting_line new_file_path])%list |}).
  assert (Hcall1 : select_on tools drive_letter m
                   = (Return (StrIndex id, size), m1)).
  { unfold select_on. now rewrite Hsel. }
  assert (Hcall2 : rip_on tools (StrIndex id) output_file_name
                          output_directory size drive_letter m1
                   = (Return new_file_path, m2)).
  { unfold rip_on. cbn [str_of_index]. now rewrite Hrip. }
  assert (Hcall3 : encode_on tools new_file_path output_file_name
                             output_directory m2
                   = (Return mp4_output_file, m3)).
  { unfold encode_on.
    now rewrite (encode_to_mp4_completed (encode_tool tools (launches m2))
                   (error_text tools) new_file_path output_file_name
                   output_directory (shell m2) res Henc Hcode). }
  pose proof (stages_complete (machine_post tools) (select_on tools)
                (rip_on tools) (encode_on tools) size_gb_text duration_text
                output_file_name drive_letter output_directory
                {| env := m; trace := t |} [] [] [] m m1 m1 m2 m2 m3
                (StrIndex id, size) new_file_path mp4_output_file
                ltac:(unfold ATTEMPTS; simpl; lia) eq_refl Hcall1 Hsize
                ltac:(unfold ATTEMPTS; simpl; lia) eq_refl Hcall2
                ltac:(unfold ATTEMPTS; simpl; lia) eq_refl Hcall3)
    as Hmain.
  cbv zeta in Hmain.
  unfold outcome, machine_stages. rewrite Hmain.
  cbn [fst snd env trace machine_post].
  split; [reflexivity|].
  split; [exists ripped_file, reported; cbn; auto|].
  split; [reflexivity|]. split; [reflexivity|].
  intros n Hn.
  unfold selecting_lines, selected_lines, converted_line.
  cbn [List.length repeat app].
  rewrite !invocations_app.
  repeat (rewrite ?invocations_posted, ?invocations_printed,
            ?invocations_invoked, ?invocations_app, ?invocations_warning).
  destruct Hn as [<- | [<- | [<- | []]]];
    unfold invocations; simpl; lia.
Qed.

(** X24: a disc on which the title selection fails three times ends the
    program before anything is ripped: after exactly three info queries
    the failure of the last one is reported once, [SystemExit(1)] is
    raised, and neither the ripping tool, the directory, the progress bar
    nor the encoder has been touched. *)
Theorem machine_stages_unreadable
        (m : Machine) (t : list event) (msg1 msg2 msg3 : string) :
  get_largest_title (info_tool tools (launches m)) drive_letter
    = Raise (Exception msg1) ->
  get_largest_title (info_tool tools (S (launches m))) drive_letter
    = Raise (Exception msg2) ->
  get_largest_title (info_tool tools (S (S (launches m)))) drive_letter
    = Raise (Exception msg3) ->
  let outcome :=
    machine_stages tools size_gb_text duration_text
      output_file_name drive_letter output_directory
      {| env := m; trace := t |} in
  fst outcome = Raise (SystemExit 1) /\
  env (snd outcome)
    = {| launches := 3 + launches m; rip_state := rip_state m;
         shell := shell m |} /\
  notifications (trace (snd outcome))
    = (notifications t
       ++ [Posted "Movie ERROR"
                  (failure_report "get_largest_title" msg3)])%list /\
  invocations "rip_dvd" (trace (snd outcome)) = invocations "rip_dvd" t /\
  invocations "encode_to_mp4" (trace (snd outcome))
    = invocations "encode_to_mp4" t.
Proof.
  intros H1 H2 H3 outcome.
  set (m1 := {| launches := S (launches m); rip_state := rip_state m;
                shell := shell m |}).
  set (m2 := {| launches := S (launches m1); rip_state := rip_state m;
                shell := shell m |}).
  set (m3 := {| launches := S (launches m2); rip_state := rip_state m;
                shell := shell m |}).
  assert (Hraises : raises_each (select_op (select_on tools) drive_letter)
                                m [msg1; msg2] m2).
  { simpl. exists m1. split; [unfold select_on; now rewrite H1|].
    exists m2. split; [unfold select_on; simpl; now rewrite H2 | reflexivity]. }
  assert (Hlast : select_on tools drive_letter m2
                  = (Raise (Exception msg3), m3)).
  { unfold select_on. simpl. now rewrite H3. }
  unfold outcome, machine_stages.
  rewrite (selection_exhausted (machine_post tools)
             (select_on tools) (rip_on tools) (encode_on tools)
             size_gb_text duration_text
             output_file_name drive_letter output_directory
             {| env := m; trace := t |} [msg1; msg2] m2 m3 msg3
             eq_refl Hraises Hlast).
  cbn [fst snd env trace machine_post].
  destruct (escalation_counts (machine_post tools)
              (failure_report "get_largest_title" msg3) m3) as [Hnote Hinv].
  split; [reflexivity|]. split; [reflexivity|].
  repeat split.
  - rewrite !notifications_app, Hnote, notifications_repeat_invoked.
    reflexivity.
  - rewrite !invocations_app, Hinv.
    rewrite invocations_repeat_other by discriminate.
    unfold invocations at 2. simpl. lia.
  - rewrite !invocations_app, Hinv.
    rewrite invocations_repeat_other by discriminate.
    unfold invocations at 2. simpl. lia.
Qed.

End MachineFacts.

Lemma machine_stages_complete_witness :
  fst (machine_stages working_tools (fun _ => "1.12") (fun _ => "0.5")
         "movie" "D" "temp/D" machine_world)
  = Return "temp/D/movie.mp4".
Proof.
  apply (machine_stages_complete working_tools (fun _ => "1.12")
           (fun _ => "0.5") "movie" "D" "temp/D" idle_machine []
           "1" 1200000000%Z
           {| polls_before_exit := 2; stdout_failure := None;
              exit_code := 0 |}
           two_files_mtime [older_file; newer_file]
           {| returncode := 0; stdout := EmptyString |}).
  - vm_compute. reflexivity.
  - vm_compute. reflexivity.
  - reflexivity.
  - reflexivity.
  - reflexivity.
  - intros t. reflexivity.
  - discriminate.
  - intros t path. reflexivity.
  - intros t src dst. reflexivity.
  - reflexivity.
  - reflexivity.
Defined.

(** On that machine the file renamed is the newer one and the bar ends at
    the size of the selected title. *)
Lemma machine_stages_complete_example :
  renamed (rip_state (env (snd (machine_stages working_tools
                                  (fun _ => "1.12") (fun _ => "0.5")
                                  "movie" "D" "temp/D" machine_world))))
  = [(newer_file, "temp/D/movie.mkv")] /\
  tqdm_n (progress_bar
            (rip_state (env (snd (machine_stages working_tools
                                    (fun _ => "1.12") (fun _ => "0.5")
                                    "movie" "D" "temp/D" machine_world)))))
  = 1200000000%Z.
Proof. split; vm_compute; reflexivity. Qed.

Lemma machine_stages_unreadable_witness :
  fst (machine_stages blank_disc_tools (fun _ => "1.12") (fun _ => "0.5")
         "movie" "D" "temp/D" machine_world)
  = Raise (SystemExit 1) /\
  env (snd (machine_stages blank_disc_tools (fun _ => "1.12")
              (fun _ => "0.5") "movie" "D" "temp/D" machine_world))
  = {| launches := 3; rip_state := idle_state; shell := [] |}.
Proof.
  destruct (machine_stages_unreadable blank_disc_tools (fun _ => "1.12")
              (fun _ => "0.5") "movie" "D" "temp/D" idle_machine []
              no_titles_error no_titles_error no_titles_error)
    as (Hexit & Henv & _).
  - vm_compute. reflexivity.
  - vm_compute. reflexivity.
  - vm_compute. reflexivity.
  - split; [exact Hexit | exact Henv].
Defined.

(* ================================================================== *)
(** * Reading back disc-info texts in the expected format *)

Lemma all_chars_app (q : ascii -> bool) (a b : string) :
  all_chars q (a ++ b) = all_chars q a && all_chars q b.
Proof.
  induction a as [|c a IH]; simpl; [reflexivity|].
  now rewrite IH, andb_assoc.
Qed.

Lemma all_chars_impl (q q' : ascii -> bool) (s : string) :
  (forall c, q c = true -> q' c = true) ->
  all_chars q s = true -> all_chars q' s = true.
Proof.
  intros Hq. induction s as [|c s IH]; simpl; [reflexivity|].
  intros H. apply andb_true_iff in H. destruct H as [Hc Hs].
  now rewrite (Hq c Hc), IH.
Qed.

Lemma uint_digits (d : Decimal.uint) :
  all_chars is_digit (DecimalString.NilEmpty.string_of_uint d) = true.
Proof. induction d; simpl; auto. Qed.

Lemma str_of_nat_digits (n : nat) :
  all_chars is_digit (str_of_nat n) = true /\
  is_empty (str_of_nat n) = false.
Proof.
  unfold str_of_nat, DecimalString.NilZero.string_of_uint.
  destruct (Nat.to_uint n) as [|d|d|d|d|d|d|d|d|d|d];
    (split; [|reflexivity]); try reflexivity;
    cbn [DecimalString.NilEmpty.string_of_uint all_chars];
    rewrite uint_digits; reflexivity.
Qed.

(** A digit is none of the characters the parser gives a meaning to. *)
Lemma digit_is_plain (c : ascii) :
  is_digit c = true ->
  isspace c = false /\ int_space c = false /\ is_linebreak c = false /\
  Ascii.eqb c "," = false /\ Ascii.eqb dquote c = false /\
  Ascii.eqb c "-" = false /\ Ascii.eqb c "+" = false /\
  Ascii.eqb c "_" = false /\ Ascii.eqb c "T" = false.
Proof.
  unfold is_digit, isspace, int_space, is_linebreak. intros H.
  apply andb_true_iff in H. destruct H as [H1 H2].
  apply Nat.leb_le in H1. apply Nat.leb_le in H2.
  assert (Hne : forall k, (k < 48 \/ 57 < k < 256)%nat ->
                          Ascii.eqb c (ascii_of_nat k) = false).
  { intros k Hk. apply Ascii.eqb_neq. intros ->.
    rewrite nat_ascii_embedding in H1, H2 by lia. lia. }
  repeat split;
    try (apply (Hne 44); lia); try (apply (Hne 45); lia);
    try (apply (Hne 43); lia); try (apply (Hne 95); lia);
    try (apply (Hne 84); lia);
    try (rewrite Ascii.eqb_sym; apply (Hne 34); lia);
    repeat (rewrite ?orb_false_iff, ?andb_false_iff);
    repeat split;
    rewrite ?Nat.leb_gt, ?Nat.eqb_neq; lia.
Qed.

Lemma rstrip_by_clean (p : ascii -> bool) (s : string) :
  all_chars (fun c => negb (p c)) s = true -> rstrip_by p s = s.
Proof.
  induction s as [|c s IH]; simpl; [reflexivity|].
  intros H. apply andb_true_iff in H. destruct H as [Hc Hs].
  apply negb_true_iff in Hc. rewrite Hc, (IH Hs). reflexivity.
Qed.

Lemma strip_by_clean (p : ascii -> bool) (s : string) :
  all_chars (fun c => negb (p c)) s = true -> strip_by p s = s.
Proof.
  intros H. unfold strip_by.
  assert (Hl : lstrip_by p s = s).
  { destruct s as [|c s]; [reflexivity|]. simpl in *.
    apply andb_true_iff in H. destruct H as [Hc _].
    apply negb_true_iff in Hc. now rewrite Hc. }
  rewrite Hl. now apply rstrip_by_clean.
Qed.

Lemma rstrip_by_one (p : ascii -> bool) (s : string) (x : ascii) :
  all_chars (fun c => negb (p c)) s = true -> p x = true ->
  rstrip_by p (s ++ String x EmptyString) = s.
Proof.
  intros Hs Hx. induction s as [|c s IH]; simpl.
  - now rewrite Hx.
  - simpl in Hs. apply andb_true_iff in Hs. destruct Hs as [Hc Hs].
    apply negb_true_iff in Hc. rewrite Hc, (IH Hs). reflexivity.
Qed.

Lemma split_no_sep (sep : ascii) (s : string) :
  has_char sep s = false -> split sep s = [s].
Proof.
  induction s as [|c s IH]; simpl; [reflexivity|].
  intros H. apply orb_false_iff in H. destruct H as [Hc Hs].
  now rewrite Hc, (IH Hs).
Qed.

Lemma split_at_sep (sep : ascii) (a b : string) :
  has_char sep a = false ->
  split sep (a ++ String sep b) = a :: split sep b.
Proof.
  induction a as [|c a IH]; simpl; intros H.
  - now rewrite Ascii.eqb_refl.
  - apply orb_false_iff in H. destruct H as [Hc Ha].
    now rewrite Hc, (IH Ha).
Qed.

Lemma replace_digits (s : string) :
  all_chars is_digit s = true ->
  replace_from 0 "TINFO:" EmptyString s = s.
Proof.
  induction s as [|c s IH]; intros H; [reflexivity|].
  simpl in H. apply andb_true_iff in H. destruct H as [Hc Hs].
  cbn [replace_from String.prefix].
  destruct (ascii_dec "T" c) as [<- | _]; [discriminate Hc|].
  now rewrite (IH Hs).
Qed.

Lemma splitlines_line (a b : string) :
  all_chars (fun c => negb (is_linebreak c)) a = true ->
  splitlines (a ++ String newline b) = a :: splitlines b.
Proof.
  induction a as [|c a IH]; intros H.
  - destruct b; reflexivity.
  - simpl in H. apply andb_true_iff in H. destruct H as [Hc Ha].
    apply negb_true_iff in Hc.
    cbn [append splitlines]. rewrite Hc, (IH Ha). reflexivity.
Qed.

(** [int] reads a decimal numeral as the number it denotes. *)
Lemma int_digits_uint (d : Decimal.uint) :
  forall (acc cnt : nat) (after_digit : bool),
    (cnt + String.length (DecimalString.NilEmpty.string_of_uint d)
     <= int_max_str_digits)%nat ->
    d <> Decimal.Nil \/ after_digit = true ->
    int_digits (DecimalString.NilEmpty.string_of_uint d)
               (Z.of_nat acc) cnt after_digit
    = Some (Z.of_nat (Nat.of_uint_acc d acc)).
Proof.
  induction d; intros acc cnt after_digit Hlen Hd;
    try (cbn [DecimalString.NilEmpty.string_of_uint int_digits
              Nat.of_uint_acc];
         change (is_digit _) with true; cbv iota;
         match goal with
         | |- context [digit_value ?c] =>
             let v := eval vm_compute in (digit_value c) in
             change (digit_value c) with v
         end;
         match goal with
         | |- int_digits _ ?z _ _ = Some (Z.of_nat (Nat.of_uint_acc _ ?a)) =>
             replace z with (Z.of_nat a)
               by (rewrite ?Nat2Z.inj_succ, Nat.tail_mul_spec, Nat2Z.inj_mul;
                   lia)
         end;
         apply IHd; [cbn [DecimalString.NilEmpty.string_of_uint String.length] in Hlen; lia | now right]).
  cbn [DecimalString.NilEmpty.string_of_uint int_digits Nat.of_uint_acc].
  destruct Hd as [Hd | ->]; [now contradiction Hd|].
  cbn [DecimalString.NilEmpty.string_of_uint String.length] in Hlen. rewrite Nat.add_0_r in Hlen.
  apply Nat.leb_le in Hlen. now rewrite Hlen.
Qed.

Lemma int_str_of_nat (n : nat) :
  (String.length (str_of_nat n) <= int_max_str_digits)%nat ->
  int (str_of_nat n) = Some (Z.of_nat n).
Proof.
  intros Hlen.
  destruct (str_of_nat_digits n) as [Hdigits Hne].
  unfold int.
  rewrite strip_by_clean.
  2:{ eapply all_chars_impl; [|exact Hdigits].
      intros c Hc. apply negb_true_iff. apply (digit_is_plain c Hc). }
  destruct (str_of_nat n) as [|c s] eqn:Hs; [discriminate Hne|].
  assert (Hc : is_digit c = true).
  { cbn [all_chars] in Hdigits. now apply andb_true_iff in Hdigits. }
  destruct (digit_is_plain c Hc) as (_ & _ & _ & _ & _ & Hminus & Hplus & _).
  rewrite Hminus, Hplus, <- Hs.
  rewrite <- Hs in Hlen. clear Hs Hdigits Hne Hc Hminus Hplus.
  rewrite <- (DecimalNat.Unsigned.of_to n) at 2.
  unfold str_of_nat in *. unfold Nat.of_uint.
  unfold DecimalString.NilZero.string_of_uint in *.
  destruct (Nat.to_uint n) as [|d|d|d|d|d|d|d|d|d|d] eqn:E;
    try reflexivity;
    (apply (int_digits_uint _ 0 0 false); [exact Hlen | left; discriminate]).
Qed.

Lemma has_char_all (q : ascii -> bool) (c : ascii) (s : string) :
  q c = false -> all_chars q s = true -> has_char c s = false.
Proof.
  intros Hc. induction s as [|x s IH]; simpl; [reflexivity|].
  intros H. apply andb_true_iff in H. destruct H as [Hx Hs].
  rewrite (IH Hs), orb_false_r. apply Ascii.eqb_neq. intros ->.
  rewrite Hx in Hc. discriminate Hc.
Qed.

Lemma has_char_app (c : ascii) (a b : string) :
  has_char c (a ++ b) = has_char c a || has_char c b.
Proof.
  induction a as [|x a IH]; simpl; [reflexivity|].
  now rewrite IH, orb_assoc.
Qed.

Lemma lstrip_by_keeps (p : ascii -> bool) (a b : string) :
  is_empty a = false -> all_chars (fun c => negb (p c)) a = true ->
  lstrip_by p (a ++ b) = a ++ b.
Proof.
  destruct a as [|c a]; [discriminate|]. intros _ H. simpl in *.
  apply andb_true_iff in H. destruct H as [Hc _].
  apply negb_true_iff in Hc. now rewrite Hc.
Qed.

Lemma str_of_nat_plain (q : ascii -> bool) (n : nat) :
  (forall c, is_digit c = true -> q c = true) ->
  all_chars q (str_of_nat n) = true.
Proof.
  intros Hq. eapply all_chars_impl; [exact Hq|].
  apply str_of_nat_digits.
Qed.

Lemma replace_tinfo_prefix (s : string) :
  replace_from 0 "TINFO:" EmptyString ("TINFO:" ++ s)
  = replace_from 0 "TINFO:" EmptyString s.
Proof. destruct s; vm_compute; reflexivity. Qed.

Lemma split_size_line (title : nat * nat) :
  split "," (size_line title)
  = ["TINFO:" ++ str_of_nat (fst title); "11"; "0";
     quoted (str_of_nat (snd title))].
Proof.
  unfold size_line.
  replace ("TINFO:" ++ str_of_nat (fst title) ++ ",11,0," ++
           quoted (str_of_nat (snd title)))
    with (("TINFO:" ++ str_of_nat (fst title)) ++
          String "," ("11" ++ String "," ("0" ++ String ","
             (quoted (str_of_nat (snd title))))))
    by (rewrite append_assoc; reflexivity).
  assert (Hdig : forall n, has_char "," (str_of_nat n) = false).
  { intros n. apply (has_char_all is_digit); [reflexivity|].
    apply str_of_nat_digits. }
  rewrite split_at_sep.
  2:{ rewrite has_char_app, Hdig. reflexivity. }
  rewrite split_at_sep by reflexivity.
  rewrite split_at_sep by reflexivity.
  rewrite split_no_sep; [reflexivity|].
  unfold quoted. cbn [has_char]. rewrite has_char_app, Hdig. reflexivity.
Qed.

Lemma record_of_size_line (title : nat * nat) :
  (String.length (str_of_nat (snd title)) <= int_max_str_digits)%nat ->
  is_size_record (size_line title) = true /\
  record_of (size_line title) = title_record title.
Proof.
  intros Hlen. unfold is_size_record, record_of.
  rewrite split_size_line. split; [reflexivity|].
  unfold title_record. f_equal.
  - unfold title_index_str, replace. cbn [nth].
    rewrite replace_tinfo_prefix.
    rewrite replace_digits by apply str_of_nat_digits.
    apply strip_by_clean. apply str_of_nat_plain.
    intros c Hc. apply negb_true_iff. apply (digit_is_plain c Hc).
  - unfold file_size, size_str. cbn [nth].
    assert (Hq : strip_char dquote (strip (quoted (str_of_nat (snd title))))
                 = str_of_nat (snd title)).
    { unfold strip. rewrite strip_by_clean.
      2:{ unfold quoted. cbn [all_chars].
          rewrite all_chars_app. cbn [all_chars].
          rewrite str_of_nat_plain; [reflexivity|].
          intros c Hc. apply negb_true_iff. apply (digit_is_plain c Hc). }
      unfold strip_char, strip_by, quoted. cbn [lstrip_by].
      rewrite Ascii.eqb_refl.
      assert (Hplain : all_chars (fun c => negb (Ascii.eqb dquote c))
                                 (str_of_nat (snd title)) = true).
      { apply str_of_nat_plain.
        intros c Hc. apply negb_true_iff. apply (digit_is_plain c Hc). }
      rewrite lstrip_by_keeps;
        [| apply str_of_nat_digits | exact Hplain].
      apply rstrip_by_one; [exact Hplain | apply Ascii.eqb_refl]. }
    rewrite Hq, (int_str_of_nat _ Hlen). reflexivity.
Qed.

Lemma size_line_plain (q : ascii -> bool) (title : nat * nat) :
  (forall c, is_digit c = true -> q c = true) ->
  all_chars q "TINFO:" = true -> all_chars q ",11,0," = true ->
  q dquote = true ->
  all_chars q (size_line title) = true.
Proof.
  intros Hdigit Hhead Hfixed Hquote. unfold size_line.
  rewrite !all_chars_app, Hhead, Hfixed.
  unfold quoted. cbn [all_chars]. rewrite all_chars_app. cbn [all_chars].
  rewrite !(str_of_nat_plain q _ Hdigit), Hquote. reflexivity.
Qed.

Lemma startswith_size_line (title : nat * nat) :
  startswith (size_line title) "TINFO:" = true.
Proof.
  unfold size_line, startswith.
  destruct (str_of_nat (fst title) ++ ",11,0," ++
            quoted (str_of_nat (snd title))); vm_compute; reflexivity.
Qed.

Lemma tinfo_lines_disc_info (titles : list (nat * nat)) :
  tinfo_lines (disc_info titles) = map size_line titles.
Proof.
  unfold tinfo_lines.
  induction titles as [|title titles IH]; [reflexivity|].
  cbn [disc_info map].
  change (size_line title ++ nl ++ disc_info titles)
    with (size_line title ++ String newline (disc_info titles)).
  rewrite splitlines_line.
  2:{ apply size_line_plain; [| reflexivity | reflexivity | reflexivity].
      intros c Hc. apply negb_true_iff. apply (digit_is_plain c Hc). }
  cbn [map filter]. unfold strip at 1 2.
  rewrite strip_by_clean.
  2:{ apply size_line_plain; [| reflexivity | reflexivity | reflexivity].
      intros c Hc. apply negb_true_iff. apply (digit_is_plain c Hc). }
  rewrite startswith_size_line, IH. reflexivity.
Qed.

Lemma size_records_disc_info (titles : list (nat * nat)) :
  Forall (fun title =>
            (String.length (str_of_nat (snd title)) <= int_max_str_digits)%nat)
         titles ->
  size_records (disc_info titles) = map title_record titles.
Proof.
  intros Hlen. unfold size_records. rewrite tinfo_lines_disc_info.
  induction Hlen as [|title titles Htitle _ IH]; [reflexivity|].
  cbn [map filter].
  destruct (record_of_size_line title Htitle) as [-> Hrec].
  cbn [map]. now rewrite Hrec, IH.
Qed.

(** X25 ([get_largest_title], reading a listing): when the info query
    exits with code 0 and prints one file size record per title in the
    format [TINFO:<index>,11,0,"<size>"], the records read back are exactly
    the titles listed, and as soon as one title has a positive size the
    function returns the index and size of the first title of maximal
    size. *)
Theorem get_largest_title_reads_disc_info
        (subprocess_run : list string -> result CompletedProcess)
        (drive_letter : string) (titles : list (nat * nat))
        (title : nat * nat) :
  Forall (fun t =>
            (String.length (str_of_nat (snd t)) <= int_max_str_digits)%nat)
         titles ->
  subprocess_run (makemkv_info_command drive_letter)
    = Return {| returncode := 0; stdout := disc_info titles |} ->
  In title titles -> (0 < snd title)%nat ->
  size_records (disc_info titles) = map title_record titles /\
  exists best,
    In best titles /\
    first_max (map title_record titles) (title_record best) /\
    get_largest_title subprocess_run drive_letter
      = Return (StrIndex (str_of_nat (fst best)), Z.of_nat (snd best)).
Proof.
  intros Hlen Hrun Hin Hpos.
  pose proof (size_records_disc_info titles Hlen) as Hrecs.
  split; [exact Hrecs|].
  destruct (get_largest_title_positive subprocess_run drive_letter
              (disc_info titles) Hrun)
    as (id & size & Hfm & _ & Hget).
  { exists (title_record title). split.
    - rewrite Hrecs. now apply in_map.
    - unfold title_record. cbn [snd]. lia. }
  rewrite Hrecs in Hfm.
  assert (Hbest : In (id, size) (map title_record titles)).
  { destruct Hfm as (pre & post & -> & _). apply in_or_app. right. now left. }
  apply in_map_iff in Hbest. destruct Hbest as (best & Hbest & Hinb).
  exists best. split; [exact Hinb|]. split.
  - now rewrite Hbest.
  - rewrite Hget. unfold title_record in Hbest.
    now injection Hbest as <- <-.
Qed.

Lemma get_largest_title_reads_disc_info_witness :
  size_records (disc_info [(0, 5); (1, 12); (2, 12)])
    = map title_record [(0, 5); (1, 12); (2, 12)] /\
  exists best,
    In best [(0, 5); (1, 12); (2, 12)] /\
    first_max (map title_record [(0, 5); (1, 12); (2, 12)])
              (title_record best) /\
    get_largest_title
      (completes_with (disc_info [(0, 5); (1, 12); (2, 12)])) "D"
      = Return (StrIndex (str_of_nat (fst best)), Z.of_nat (snd best)).
Proof.
  apply (get_largest_title_reads_disc_info
           (completes_with (disc_info [(0, 5); (1, 12); (2, 12)])) "D"
           [(0, 5); (1, 12); (2, 12)] (1, 12)).
  - repeat constructor; apply Nat.leb_le; reflexivity.
  - reflexivity.
  - right. left. reflexivity.
  - cbn [snd]. lia.
Defined.
